(** * Payroll manager (app.py): a shallow embedding and its properties

  The program keeps three SQLite tables (employees, work_hours,
  adjustments), writes to them through three [add_*] functions and
  computes a per-employee payroll report for a date range with three
  aggregation queries, three pandas left merges, a formula and a sort.

  Dates are Python [datetime.date] values rendered with [isoformat()]
  into TEXT columns and compared by SQLite as text; amounts are REAL
  columns and float64 data frame columns, hence IEEE-754 binary64
  values, modelled by the primitive floats. Ids are 64-bit integers;
  the employee_id column the merges join on turns into a float64 column
  when an employee has no hours. The sort is numpy's quicksort. *)

From Stdlib Require Import ZArith Arith List String Ascii Floats Bool Lia.
From Stdlib Require Import Permutation Sorted.
From Stdlib Require Uint63.
Import ListNotations.

Local Open Scope Z_scope.

(* ================================================================= *)
(** ** Python dates and their ISO text form *)

Module Date.

(** [datetime.date(year, month, day)]. *)
Record date : Set := mk { year : Z; month : Z; day : Z }.

Definition is_leap (y : Z) : bool :=
  ((y mod 4 =? 0) && negb (y mod 100 =? 0)) || (y mod 400 =? 0).

Definition days_in_month (y m : Z) : Z :=
  if m =? 2 then (if is_leap y then 29 else 28)
  else if (m =? 4) || (m =? 6) || (m =? 9) || (m =? 11) then 30
  else 31.

(** The values the [date] constructor accepts: MINYEAR = 1,
    MAXYEAR = 9999, a month of the year and a day of that month. *)
Definition valid (d : date) : bool :=
  (1 <=? year d) && (year d <=? 9999) &&
  (1 <=? month d) && (month d <=? 12) &&
  (1 <=? day d) && (day d <=? days_in_month (year d) (month d)).

(** Python compares dates as the triples (year, month, day). *)
Definition compare (a b : date) : comparison :=
  match year a ?= year b with
  | Eq => match month a ?= month b with
          | Eq => day a ?= day b
          | c => c
          end
  | c => c
  end.

Definition leb (a b : date) : bool :=
  match compare a b with Gt => false | _ => true end.

Definition ltb (a b : date) : bool :=
  match compare a b with Lt => true | _ => false end.

(** [a > b] in the source is [gtb a b]. *)
Definition gtb (a b : date) : bool := ltb b a.

Definition eqb (a b : date) : bool :=
  match compare a b with Eq => true | _ => false end.

(** [d + timedelta(days=1)]; Python raises OverflowError past
    [date.max], which is [None] here. *)
Definition next_day (d : date) : option date :=
  if day d <? days_in_month (year d) (month d)
  then Some (mk (year d) (month d) (day d + 1))
  else if month d <? 12 then Some (mk (year d) (month d + 1) 1)
  else if year d <? 9999 then Some (mk (year d + 1) 1 1)
  else None.

(** One decimal digit as its ASCII character. *)
Definition digit (n : Z) : ascii := ascii_of_N (48 + Z.to_N (n mod 10)).

(** ["%02d"] and ["%04d"] on the ranges a valid date has. *)
Definition pad2 (n : Z) : string :=
  String (digit (n / 10)) (String (digit n) EmptyString).

Definition pad4 (n : Z) : string :=
  String (digit (n / 1000)) (String (digit (n / 100)) (pad2 n)).

(** [date.isoformat()]: ["%04d-%02d-%02d" % (year, month, day)]. *)
Definition isoformat (d : date) : string :=
  (pad4 (year d) ++ "-" ++ pad2 (month d) ++ "-" ++ pad2 (day d))%string.

End Date.

(* ================================================================= *)
(** ** SQLite values: TEXT comparison, REAL storage, SUM *)

Module Sqlite.

(** TEXT values compare bytewise (the BINARY collation); a proper
    prefix comes first. *)
Definition text_le (a b : string) : bool := String.leb a b.

(** [x BETWEEN lo AND hi] is [x >= lo AND x <= hi]. *)
Definition between (x lo hi : string) : bool :=
  text_le lo x && text_le x hi.

(** A float bound to a REAL NOT NULL column, as it reads back: NaN is
    bound as NULL, which the column refuses ([None]); a real without
    fractional part is kept as an integer, so [-0.0] reads back as
    [0.0]. *)
Definition real_not_null (x : float) : option float :=
  if PrimFloat.is_nan x then None
  else if PrimFloat.is_zero x then Some PrimFloat.zero
  else Some x.

(** [SUM] over the REAL values of one group, in scan order, starting
    from 0.0. A NaN total is returned as NULL, which a float64 column
    holds as NaN again. *)
Definition sum (values : list float) : float :=
  fold_left PrimFloat.add values PrimFloat.zero.

(** The accumulation of SQLite 3.44 and later, which carries the
    rounding error of each addition along (Kahan-Babuska-Neumaier) and
    adds it to the total at the end. The statements below are about
    [sum]; the examples of rounding are checked against both. *)
Definition compensated_step (state : float * float) (r : float)
  : float * float :=
  let (s, err) := state in
  let t := PrimFloat.add s r in
  if PrimFloat.ltb (PrimFloat.abs r) (PrimFloat.abs s)
  then (t, PrimFloat.add err (PrimFloat.add (PrimFloat.sub s t) r))
  else (t, PrimFloat.add err (PrimFloat.add (PrimFloat.sub r t) s)).

Definition compensated_sum (values : list float) : float :=
  let (s, err) :=
    fold_left compensated_step values (PrimFloat.zero, PrimFloat.zero) in
  PrimFloat.add s err.

(** One step of [GROUP BY key] with a [SUM]: the groups are kept in
    ascending key order, each with its running total. *)
Fixpoint group_step (k : Z) (v : float) (groups : list (Z * float))
  : list (Z * float) :=
  match groups with
  | [] => [(k, PrimFloat.add PrimFloat.zero v)]
  | (k', s) :: rest =>
      if k =? k' then (k', PrimFloat.add s v) :: rest
      else if k <? k' then (k, PrimFloat.add PrimFloat.zero v) :: groups
      else (k', s) :: group_step k v rest
  end.

(** [SELECT key, SUM(value) FROM rows GROUP BY key]. *)
Definition group_sum {A : Type} (key : A -> Z) (value : A -> float)
  (rows : list A) : list (Z * float) :=
  fold_left (fun groups r => group_step (key r) (value r) groups) rows [].

(** The next AUTOINCREMENT rowid of a table nothing is deleted from. *)
Definition next_rowid (ids : list Z) : Z := 1 + fold_right Z.max 0 ids.

(** The integers an INTEGER column holds, and the only ones the sqlite3
    module binds to a parameter: 64 bits, signed. *)
Definition int64 (k : Z) : bool := (- 2 ^ 63 <=? k) && (k <? 2 ^ 63).

End Sqlite.

(* ================================================================= *)
(** ** Sorting

    SQLite's [ORDER BY] promises no order among equal keys, so it is
    taken as a sorting routine of which only the contract is known: the
    result is a permutation of the input, ascending in the key. What
    holds of the program for every such routine is stated for every
    [sorter]. *)

Definition key_le {A : Type} (key : A -> string) (x y : A) : Prop :=
  String.leb (key x) (key y) = true.

Record sorter : Type := {
  sort_on : forall A : Type, (A -> string) -> list A -> list A;
  sort_on_perm :
    forall (A : Type) (key : A -> string) (l : list A),
      Permutation l (sort_on A key l);
  sort_on_sorted :
    forall (A : Type) (key : A -> string) (l : list A),
      Sorted (key_le key) (sort_on A key l)
}.

Arguments sort_on _ {A} _ _.

(** Insertion sort placing an element after its equals: a routine
    within the contract that keeps equal keys in input order. *)
Fixpoint insert_after {A : Type} (key : A -> string) (x : A) (l : list A)
  : list A :=
  match l with
  | [] => [x]
  | y :: l' =>
      if String.ltb (key x) (key y) then x :: l
      else y :: insert_after key x l'
  end.

Definition stable_sort {A : Type} (key : A -> string) (l : list A) : list A :=
  fold_left (fun acc x => insert_after key x acc) l [].

(* ================================================================= *)
(** ** numpy's quicksort (DataFrame.sort_values)

    [sort_values("full_name")] keeps its default [kind="quicksort"] and
    sorts the row positions with numpy's [argsort] on the key column, a
    column of Python strings, hence with [npy_aquicksort] and the
    comparison [a < b] of the strings. That routine is an introsort: a
    segment of more than SMALL_QUICKSORT + 1 elements is partitioned
    around the median of its first, middle and last element, a shorter
    one is sorted by insertion, and a segment taken from the stack
    after the depth limit is used up is sorted by [npy_aheapsort].

    The rows stand here for their positions, which [argsort] moves as
    it would move the rows; indices count from the start of the segment
    ([pl] is 0). SMALL_QUICKSORT is a constant of numpy's source and a
    parameter here. *)

Section Npysort.

Local Open Scope nat_scope.

Context {A : Type} (key : A -> string).

(** cmp(a, b) < 0 *)
Definition less (x y : A) : bool := String.ltb (key x) (key y).

(** a[i] = x *)
Fixpoint set (i : nat) (x : A) (a : list A) : list A :=
  match a, i with
  | [], _ => []
  | _ :: a', O => x :: a'
  | y :: a', S i' => y :: set i' x a'
  end.

(** vi = *pi; while (pj > pl && cmp(vp, v[*pk]) < 0) { *pj-- = *pk--; }
    *pj = vi; the elements before pi are given from pi - 1 down. *)
Fixpoint insert (x : A) (before : list A) : list A :=
  match before with
  | [] => [x]
  | y :: rest => if less x y then y :: insert x rest else x :: before
  end.

(** for (pi = pl + 1; pi <= pr; ++pi) *)
Definition insertion_sort (a : list A) : list A :=
  rev (fold_left (fun before x => insert x before) a []).

(** What a read outside the array would give; no read is. *)
Variable d : A.

(** INTP_SWAP(a[i], a[j]) *)
Definition swap (i j : nat) (a : list A) : list A :=
  set j (nth i a d) (set i (nth j a d) a).

(** if (cmp(v[i], v[j]) < 0) INTP_SWAP *)
Definition swap_if_less (i j : nat) (a : list A) : list A :=
  if less (nth i a d) (nth j a d) then swap i j a else a.

(** do { ++pi; } while (cmp(v[pi], vp) < 0 && pi < pj) *)
Fixpoint scan_up (fuel : nat) (a : list A) (vp : A) (pi pj : nat) : nat :=
  let pi := S pi in
  match fuel with
  | O => pi
  | S fuel =>
      if less (nth pi a d) vp && (pi <? pj) then scan_up fuel a vp pi pj
      else pi
  end.

(** do { --pj; } while (cmp(vp, v[pj]) < 0 && pi < pj) *)
Fixpoint scan_down (fuel : nat) (a : list A) (vp : A) (pi pj : nat) : nat :=
  let pj := pj - 1 in
  match fuel with
  | O => pj
  | S fuel =>
      if less vp (nth pj a d) && (pi <? pj) then scan_down fuel a vp pi pj
      else pj
  end.

(** for (;;) { scan up; scan down; if (pi >= pj) break; INTP_SWAP } *)
Fixpoint hoare (fuel : nat) (a : list A) (vp : A) (pi pj : nat)
  : list A * nat :=
  match fuel with
  | O => (a, pi)
  | S fuel =>
      let pi := scan_up (List.length a) a vp pi pj in
      let pj := scan_down (List.length a) a vp pi pj in
      if pj <=? pi then (a, pi)
      else hoare fuel (swap pi pj a) vp pi pj
  end.

(** The body of while ((pr - pl) > SMALL_QUICKSORT): the array after
    it and the place pi of the pivot. *)
Definition partition (a : list A) : list A * nat :=
  let pl := 0 in
  let pr := List.length a - 1 in
  let pm := pl + (pr - pl) / 2 in
  let a := swap_if_less pm pl a in
  let a := swap_if_less pr pm a in
  let a := swap_if_less pm pl a in
  let vp := nth pm a d in
  let a := swap pm (pr - 1) a in
  let (a, pi) := hoare (List.length a) a vp pl (pr - 1) in
  (swap pi (pr - 1) a, pi).

(** The array offset by one, as npy_aheapsort indexes it
    (a = tosort - 1). *)
Definition get1 (a : list A) (k : nat) : A := nth (k - 1) a d.

Definition set1 (k : nat) (x : A) (a : list A) : list A := set (k - 1) x a.

(** for (i = .., j = ..; j <= n;) { if (j < n && cmp(a[j], a[j+1]) < 0)
    ++j; if (cmp(tmp, a[j]) < 0) { a[i] = a[j]; i = j; j += j; } else
    break; } a[i] = tmp; *)
Fixpoint sift (fuel : nat) (a : list A) (tmp : A) (i j n : nat) : list A :=
  match fuel with
  | O => set1 i tmp a
  | S fuel =>
      if j <=? n then
        let j :=
          if (j <? n) && less (get1 a j) (get1 a (j + 1)) then j + 1 else j in
        if less tmp (get1 a j)
        then sift fuel (set1 i (get1 a j) a) tmp j (j + j) n
        else set1 i tmp a
      else set1 i tmp a
  end.

(** for (l = n >> 1; l > 0; --l) { tmp = a[l]; ... } *)
Fixpoint build (l : nat) (a : list A) (n : nat) : list A :=
  match l with
  | O => a
  | S l' => build l' (sift n a (get1 a l) l (l + l) n) n
  end.

(** for (; n > 1;) { tmp = a[n]; a[n] = a[1]; n -= 1; ... } *)
Fixpoint extract (n : nat) (a : list A) : list A :=
  match n with
  | S (S _ as n') =>
      let tmp := get1 a n in
      let a := set1 n (get1 a 1) a in
      extract n' (sift n' a tmp 1 2 n')
  | _ => a
  end.

Definition heapsort (a : list A) : list A :=
  let n := List.length a in
  extract n (build (n / 2) a n).

Variable small_quicksort : nat.

(** One segment [pl, pr] of the array, taken from the stack ([popped])
    or carried on with inside the inner loop. The two parts a partition
    leaves are sorted apart from each other: the loop carries on with
    the shorter one and pushes the other, which is tested against the
    depth limit when it is popped. *)
Fixpoint introsort (fuel : nat) (popped : bool) (cdepth : Z) (a : list A)
  : list A :=
  match fuel with
  | O => a
  | S fuel =>
      if popped && (cdepth <? 0)%Z then heapsort a
      else if List.length a - 1 <=? small_quicksort then insertion_sort a
      else
        let (a, pi) := partition a in
        let pr := List.length a - 1 in
        let cdepth := (cdepth - 1)%Z in
        let left_first := pi <? pr - pi in
        introsort fuel (negb left_first) cdepth (firstn pi a) ++
        nth pi a d ::
        introsort fuel left_first cdepth (skipn (S pi) a)
  end.

End Npysort.

(** npy_aquicksort on num elements, cdepth = npy_get_msb(num) * 2. *)
Definition quicksort {A : Type} (key : A -> string) (small_quicksort : nat)
  (a : list A) : list A :=
  match a with
  | [] => []
  | d :: _ =>
      introsort key d small_quicksort (S (List.length a)) true
        (2 * Z.of_nat (Nat.log2 (List.length a))) a
  end.

(* ================================================================= *)
(** ** The three tables (init_db) *)

Module Employees.
(** employees(id, full_name, role_title, hourly_rate, start_date) *)
Record row : Type := mk {
  id : Z;
  full_name : string;
  role_title : string;
  hourly_rate : float;
  start_date : string
}.
End Employees.

Module WorkHours.
(** work_hours(id, employee_id, work_date, hours, notes) *)
Record row : Type := mk {
  id : Z;
  employee_id : Z;
  work_date : string;
  hours : float;
  notes : string
}.
End WorkHours.

Module Adjustments.
(** adjustments(id, employee_id, adjustment_date, adjustment_type,
    amount, description) *)
Record row : Type := mk {
  id : Z;
  employee_id : Z;
  adjustment_date : string;
  adjustment_type : string;
  amount : float;
  description : string
}.
End Adjustments.

(** The database file: the rows of each table in rowid order. *)
Record database : Type := mk_database {
  employees : list Employees.row;
  work_hours : list WorkHours.row;
  adjustments : list Adjustments.row
}.

(** What [init_db] leaves on a fresh file. *)
Definition empty_database : database := mk_database [] [] [].

(** A connection. SQLite checks FOREIGN KEY clauses only on a
    connection that ran [PRAGMA foreign_keys = ON]. *)
Record connection : Type := { foreign_keys : bool }.

(** [sqlite3.connect(DB_PATH, check_same_thread=False)]: the pragma is
    at its default, off, and no statement of the program sets it. *)
Definition get_connection : connection := {| foreign_keys := false |}.

(* ================================================================= *)
(** ** Statements against the database: a state and exception monad *)

(** What a statement raises: sqlite3.IntegrityError from SQLite, and
    Python's OverflowError from binding an int parameter that does not
    fit 64 bits. *)
Inductive error : Type :=
| IntegrityError (message : string)
| OverflowError (message : string).

Inductive result (A : Type) : Type :=
| Ok (value : A)
| Raise (e : error).

Arguments Ok {A} _.
Arguments Raise {A} _.

Definition sql (A : Type) : Type := database -> result A * database.

Definition ret {A : Type} (a : A) : sql A := fun db => (Ok a, db).

Definition bind {A B : Type} (c : sql A) (k : A -> sql B) : sql B :=
  fun db =>
    match c db with
    | (Ok a, db') => k a db'
    | (Raise e, db') => (Raise e, db')
    end.

Notation "x <- c ;; k" := (bind c (fun x => k))
  (at level 61, c at next level, right associativity).

(** [pd.read_sql_query(select, conn)]: the rows a SELECT yields. *)
Definition read_sql_query {A : Type} (select : database -> list A)
  : sql (list A) :=
  fun db => (Ok (select db), db).

(** [cur.execute(insert); conn.commit()]: the statement either fails,
    and nothing is committed, or yields the new database. *)
Definition execute (insert : database -> result database) : sql unit :=
  fun db =>
    match insert db with
    | Ok db' => (Ok tt, db')
    | Raise e => (Raise e, db)
    end.

Definition employee_exists (db : database) (employee_id : Z) : bool :=
  existsb (fun e => Employees.id e =? employee_id) (employees db).

(** The FOREIGN KEY (employee_id) REFERENCES employees (id) clause, as
    a connection enforces it. *)
Definition foreign_key_ok (conn : connection) (db : database)
  (employee_id : Z) : bool :=
  negb (foreign_keys conn) || employee_exists db employee_id.

(* ================================================================= *)
(** ** Writes: add_employee, add_work_hours, add_adjustment *)

(** INSERT INTO employees (full_name, role_title, hourly_rate,
    start_date) VALUES (?, ?, ?, ?) *)
Definition insert_employee (full_name role_title : string)
  (hourly_rate : float) (start_date : string) (db : database)
  : result database :=
  match Sqlite.real_not_null hourly_rate with
  | None =>
      Raise (IntegrityError "NOT NULL constraint failed: employees.hourly_rate")
  | Some rate =>
      let id := Sqlite.next_rowid (map Employees.id (employees db)) in
      Ok (mk_database
            (employees db ++
               [Employees.mk id full_name role_title rate start_date])
            (work_hours db) (adjustments db))
  end.

(** INSERT INTO work_hours (employee_id, work_date, hours, notes)
    VALUES (?, ?, ?, ?): the parameters are bound first, then the
    statement runs. *)
Definition insert_work_hours (conn : connection) (employee_id : Z)
  (work_date : string) (hours : float) (notes : string) (db : database)
  : result database :=
  if negb (Sqlite.int64 employee_id) then
    Raise (OverflowError "Python int too large to convert to SQLite INTEGER")
  else
    match Sqlite.real_not_null hours with
    | None =>
        Raise (IntegrityError "NOT NULL constraint failed: work_hours.hours")
    | Some h =>
        if foreign_key_ok conn db employee_id then
          let id := Sqlite.next_rowid (map WorkHours.id (work_hours db)) in
          Ok (mk_database (employees db)
                (work_hours db ++
                   [WorkHours.mk id employee_id work_date h notes])
                (adjustments db))
        else Raise (IntegrityError "FOREIGN KEY constraint failed")
    end.

(** INSERT INTO adjustments (employee_id, adjustment_date,
    adjustment_type, amount, description) VALUES (?, ?, ?, ?, ?) *)
Definition insert_adjustment (conn : connection) (employee_id : Z)
  (adjustment_date adjustment_type : string) (amount : float)
  (description : string) (db : database) : result database :=
  if negb (Sqlite.int64 employee_id) then
    Raise (OverflowError "Python int too large to convert to SQLite INTEGER")
  else
    match Sqlite.real_not_null amount with
    | None =>
        Raise
          (IntegrityError "NOT NULL constraint failed: adjustments.amount")
    | Some a =>
        if foreign_key_ok conn db employee_id then
          let id :=
            Sqlite.next_rowid (map Adjustments.id (adjustments db)) in
          Ok (mk_database (employees db) (work_hours db)
                (adjustments db ++
                   [Adjustments.mk id employee_id adjustment_date
                      adjustment_type a description]))
        else Raise (IntegrityError "FOREIGN KEY constraint failed")
    end.

Definition add_employee (full_name role_title : string)
  (hourly_rate : float) (start_date : Date.date) : sql unit :=
  execute
    (insert_employee full_name role_title hourly_rate
       (Date.isoformat start_date)).

Definition add_work_hours (employee_id : Z) (work_date : Date.date)
  (hours : float) (notes : string) : sql unit :=
  let conn := get_connection in
  execute
    (insert_work_hours conn employee_id (Date.isoformat work_date) hours
       notes).

Definition add_adjustment (employee_id : Z) (adjustment_date : Date.date)
  (adjustment_type : string) (amount : float) (description : string)
  : sql unit :=
  let conn := get_connection in
  execute
    (insert_adjustment conn employee_id (Date.isoformat adjustment_date)
       adjustment_type amount description).

(* ================================================================= *)
(** ** Range-filtered reads: load_work_hours, load_adjustments *)

Module HoursDetail.
(** The columns load_work_hours selects. *)
Record row : Type := mk {
  id : Z;
  full_name : string;
  employee_id : Z;
  work_date : string;
  hours : float;
  notes : string
}.
End HoursDetail.

Module AdjustmentDetail.
(** The columns load_adjustments selects. *)
Record row : Type := mk {
  id : Z;
  full_name : string;
  employee_id : Z;
  adjustment_date : string;
  adjustment_type : string;
  amount : float;
  description : string
}.
End AdjustmentDetail.

(** FROM work_hours JOIN employees ON employees.id =
    work_hours.employee_id WHERE work_hours.work_date BETWEEN ? AND ? *)
Definition select_work_hours (lo hi : string) (db : database)
  : list HoursDetail.row :=
  flat_map
    (fun w =>
       map
         (fun e =>
            HoursDetail.mk (WorkHours.id w) (Employees.full_name e)
              (WorkHours.employee_id w) (WorkHours.work_date w)
              (WorkHours.hours w) (WorkHours.notes w))
         (filter (fun e => Employees.id e =? WorkHours.employee_id w)
            (employees db)))
    (filter (fun w => Sqlite.between (WorkHours.work_date w) lo hi)
       (work_hours db)).

(** FROM adjustments JOIN employees ON employees.id =
    adjustments.employee_id WHERE adjustments.adjustment_date
    BETWEEN ? AND ? *)
Definition select_adjustments (lo hi : string) (db : database)
  : list AdjustmentDetail.row :=
  flat_map
    (fun a =>
       map
         (fun e =>
            AdjustmentDetail.mk (Adjustments.id a) (Employees.full_name e)
              (Adjustments.employee_id a) (Adjustments.adjustment_date a)
              (Adjustments.adjustment_type a) (Adjustments.amount a)
              (Adjustments.description a))
         (filter (fun e => Employees.id e =? Adjustments.employee_id a)
            (employees db)))
    (filter (fun a => Sqlite.between (Adjustments.adjustment_date a) lo hi)
       (adjustments db)).

Definition load_employees : sql (list Employees.row) :=
  read_sql_query employees.

(** The SELECT above, ORDER BY work_hours.work_date. *)
Definition load_work_hours (order_by : sorter)
  (start_date end_date : Date.date) : sql (list HoursDetail.row) :=
  read_sql_query
    (fun db =>
       sort_on order_by HoursDetail.work_date
         (select_work_hours (Date.isoformat start_date)
            (Date.isoformat end_date) db)).

(** The SELECT above, ORDER BY adjustments.adjustment_date. *)
Definition load_adjustments (order_by : sorter)
  (start_date end_date : Date.date) : sql (list AdjustmentDetail.row) :=
  read_sql_query
    (fun db =>
       sort_on order_by AdjustmentDetail.adjustment_date
         (select_adjustments (Date.isoformat start_date)
            (Date.isoformat end_date) db)).

(* ================================================================= *)
(** ** calculate_payroll *)

Module Roster.
(** SELECT id, full_name, hourly_rate FROM employees *)
Record row : Type := mk {
  id : Z;
  full_name : string;
  hourly_rate : float
}.
End Roster.

Module Payroll.
(** The columns of the report. *)
Record row : Type := mk {
  full_name : string;
  hourly_rate : float;
  total_hours : float;
  gross_pay : float;
  bonus_total : float;
  deduction_total : float;
  net_pay : float
}.
End Payroll.

Definition select_roster (db : database) : list Roster.row :=
  map
    (fun e =>
       Roster.mk (Employees.id e) (Employees.full_name e)
         (Employees.hourly_rate e))
    (employees db).

(** SELECT employee_id, SUM(hours) AS total_hours FROM work_hours
    WHERE work_date BETWEEN ? AND ? GROUP BY employee_id *)
Definition select_total_hours (lo hi : string) (db : database)
  : list (Z * float) :=
  Sqlite.group_sum WorkHours.employee_id WorkHours.hours
    (filter (fun w => Sqlite.between (WorkHours.work_date w) lo hi)
       (work_hours db)).

(** SELECT employee_id, SUM(amount) FROM adjustments
    WHERE adjustment_date BETWEEN ? AND ? AND adjustment_type = kind
    GROUP BY employee_id, for kind 'bonus' and for kind 'deduction'. *)
Definition select_adjustment_total (kind : string) (lo hi : string)
  (db : database) : list (Z * float) :=
  Sqlite.group_sum Adjustments.employee_id Adjustments.amount
    (filter
       (fun a =>
          Sqlite.between (Adjustments.adjustment_date a) lo hi &&
          String.eqb (Adjustments.adjustment_type a) kind)
       (adjustments db)).

(** The float64 nearest to an integer, ties to even, given as the
    integer it is (a float64 of magnitude 2^52 or more has no fractional
    part): what is left of an int64 cast to float64, which keeps 53
    significant bits. *)
Definition float64_of_int (k : Z) : Z :=
  let m := Z.abs k in
  let shift := Z.log2 m - 52 in
  if shift <=? 0 then k
  else
    let ulp := 2 ^ shift in
    let q := m / ulp in
    let r := m mod ulp in
    let q :=
      if 2 * r <? ulp then q
      else if ulp <? 2 * r then q + 1
      else if Z.even q then q else q + 1 in
    Z.sgn k * (q * ulp).

(** A cell of a key column of the left frame: of an int64 column, or of
    a float64 column, which can hold NaN. *)
Inductive key : Type :=
| Int64 (k : Z)
| Float64 (x : Z)
| NaN.

(** A left key against a key of the right frame, an int64 column: a
    float64 left column has the right one cast to float64 as well, and
    NaN is the key of no right row. *)
Definition key_eqb (left : key) (right : Z) : bool :=
  match left with
  | Int64 k => k =? right
  | Float64 x => x =? float64_of_int right
  | NaN => false
  end.

(** [left.merge(right, how="left", ...)] on one key column: every left
    row in order, once per right row of its key, in the order of the
    right frame, and once with the right columns missing when no right
    row has it. *)
Definition merge_left {L R : Type} (left_on : L -> key)
  (right_on : R -> Z) (left : list L) (right : list R)
  : list (L * option R) :=
  flat_map
    (fun l =>
       match filter (fun r => key_eqb (left_on l) (right_on r)) right with
       | [] => [(l, None)]
       | matches => map (fun r => (l, Some r)) matches
       end)
    left.

(** The two columns an aggregate frame contributes to a merged row:
    the employee_id key and the total, both missing on a left row
    without a match. *)
Definition key_column (r : option (Z * float)) : option Z :=
  option_map fst r.

Definition total_column (r : option (Z * float)) : float :=
  match r with
  | Some (_, total) => total
  | None => PrimFloat.nan
  end.

(** [Series.fillna(0)] on a float column. *)
Definition fillna (x : float) : float :=
  if PrimFloat.is_nan x then PrimFloat.zero else x.

(** The rows of [payroll] after the three merges: the roster columns,
    then what the hours, bonuses and deductions frames matched. *)
Definition merged_row : Type :=
  ((Roster.row * option (Z * float)) * option (Z * float))
  * option (Z * float).

(** The id column of the roster, the left key of the first merge. *)
Definition roster_id (e : Roster.row) : key := Int64 (Roster.id e).

(** The employee_id column of [payroll], the key of the two later
    merges. It comes from the hours frame in the first merge
    (left_on="id", right_on="employee_id" keeps both key columns): while
    every employee has a row there it is the int64 column of that
    frame; once an employee has none it is a float64 column, NaN for
    that employee and for the others their employee_id cast to
    float64. (With an empty hours frame it is a column of NaN only.) *)
Definition employee_id_after_hours
  (payroll : list (Roster.row * option (Z * float)))
  (r : Roster.row * option (Z * float)) : key :=
  match key_column (snd r) with
  | None => NaN
  | Some k =>
      if forallb
           (fun r' =>
              match key_column (snd r') with
              | Some _ => true
              | None => false
              end)
           payroll
      then Int64 k
      else Float64 (float64_of_int k)
  end.

(** The second merge (on="employee_id") takes its key column from its
    left frame: the column is the same, row by row. *)
Definition employee_id_after_bonuses
  (payroll : list (Roster.row * option (Z * float)))
  (r : (Roster.row * option (Z * float)) * option (Z * float)) : key :=
  employee_id_after_hours payroll (fst r).

Definition merge_frames (roster : list Roster.row)
  (hours bonuses deductions : list (Z * float)) : list merged_row :=
  let payroll := merge_left roster_id fst roster hours in
  let with_bonuses :=
    merge_left (employee_id_after_hours payroll) fst payroll bonuses in
  merge_left (employee_id_after_bonuses payroll) fst with_bonuses deductions.

(** The fillna lines, the two formula lines and the column selection. *)
Definition payroll_row (r : merged_row) : Payroll.row :=
  let '(((e, h), b), d) := r in
  let total_hours := fillna (total_column h) in
  let bonus_total := fillna (total_column b) in
  let deduction_total := fillna (total_column d) in
  let gross_pay := PrimFloat.mul total_hours (Roster.hourly_rate e) in
  let net_pay :=
    PrimFloat.sub (PrimFloat.add gross_pay bonus_total) deduction_total in
  Payroll.mk (Roster.full_name e) (Roster.hourly_rate e) total_hours
    gross_pay bonus_total deduction_total net_pay.

(** calculate_payroll. [sort_values] is DataFrame.sort_values, in the
    program numpy's quicksort; what does not depend on the order of
    equal names is stated for every sorting routine. *)
Definition calculate_payroll (sort_values : sorter)
  (start_date end_date : Date.date) : sql (list Payroll.row) :=
  let lo := Date.isoformat start_date in
  let hi := Date.isoformat end_date in
  roster <- read_sql_query select_roster ;;
  match roster with
  | [] => ret []
  | _ =>
      hours <- read_sql_query (select_total_hours lo hi) ;;
      bonuses <- read_sql_query (select_adjustment_total "bonus" lo hi) ;;
      deductions <-
        read_sql_query (select_adjustment_total "deduction" lo hi) ;;
      ret
        (sort_on sort_values Payroll.full_name
           (map payroll_row (merge_frames roster hours bonuses deductions)))
  end.

(* ================================================================= *)
(** ** render_payroll_section *)

(** What an expander of the section holds. *)
Inductive detail : Type :=
| Write (text : string)
| Hours_dataframe (rows : list HoursDetail.row)
| Adjustments_dataframe (rows : list AdjustmentDetail.row).

(** What the section draws. The metric shows the sum of the column it
    carries, formatted to two decimals. *)
Inductive widget : Type :=
| St_subheader (text : string)
| St_error (text : string)
| St_info (text : string)
| St_dataframe (rows : list Payroll.row)
| St_metric (label : string) (column : list float)
| St_expander (label : string) (body : detail).

(** The section, given what the two date inputs hold. *)
Definition render_payroll_section (sort_values order_by : sorter)
  (start_date end_date : Date.date) : sql (list widget) :=
  let header := [St_subheader "Resumen de quincena"] in
  if Date.gtb start_date end_date then
    ret
      (header ++
         [St_error "La fecha de inicio no puede ser mayor que la fecha fin."])
  else
    payroll <- calculate_payroll sort_values start_date end_date ;;
    match payroll with
    | [] =>
        ret
          (header ++
             [St_info "No hay movimientos para el rango seleccionado."])
    | _ =>
        hours <- load_work_hours order_by start_date end_date ;;
        adjustments <- load_adjustments order_by start_date end_date ;;
        ret
          (header ++
             [St_dataframe payroll;
              St_metric "Total a depositar" (map Payroll.net_pay payroll);
              St_expander "Detalle de horas"
                (match hours with
                 | [] => Write "Sin horas registradas."
                 | _ => Hours_dataframe hours
                 end);
              St_expander "Detalle de movimientos"
                (match adjustments with
                 | [] => Write "Sin movimientos registrados."
                 | _ => Adjustments_dataframe adjustments
                 end)])
    end.

(* ================================================================= *)
(** * Properties *)

(** ** Dates: the ISO text order is the calendar order *)

Example isoformat_2024_03_07 :
  Date.isoformat (Date.mk 2024 3 7) = "2024-03-07"%string /\
  Date.isoformat (Date.mk 1 1 1) = "0001-01-01"%string.
Proof. split; reflexivity. Qed.

Example next_day_2024 :
  Date.next_day (Date.mk 2024 2 28) = Some (Date.mk 2024 2 29) /\
  Date.next_day (Date.mk 2023 2 28) = Some (Date.mk 2023 3 1) /\
  Date.next_day (Date.mk 2023 12 31) = Some (Date.mk 2024 1 1) /\
  Date.next_day (Date.mk 9999 12 31) = None.
Proof. repeat split. Qed.

Ltac divmod := Z.div_mod_to_equations; lia.

Lemma digit_code (n : Z) :
  N_of_ascii (Date.digit n) = (48 + Z.to_N (n mod 10))%N.
Proof.
  unfold Date.digit. apply N_ascii_embedding.
  assert (0 <= n mod 10 < 10) by (apply Z.mod_pos_bound; lia). lia.
Qed.

Lemma digit_compare (a b : Z) :
  Ascii.compare (Date.digit a) (Date.digit b) = (a mod 10 ?= b mod 10).
Proof.
  unfold Ascii.compare. rewrite !digit_code.
  assert (0 <= a mod 10 < 10) by (apply Z.mod_pos_bound; lia).
  assert (0 <= b mod 10 < 10) by (apply Z.mod_pos_bound; lia).
  destruct (N.compare_spec (48 + Z.to_N (a mod 10)) (48 + Z.to_N (b mod 10)));
    destruct (Z.compare_spec (a mod 10) (b mod 10)); try reflexivity; lia.
Qed.

Lemma pad2_compare (n m : Z) (s t : string) :
  0 <= n < 100 -> 0 <= m < 100 ->
  String.compare (Date.pad2 n ++ s) (Date.pad2 m ++ t) =
  match n ?= m with Eq => String.compare s t | c => c end.
Proof.
  intros Hn Hm. unfold Date.pad2. cbn [String.append String.compare].
  rewrite !digit_compare.
  destruct (Z.compare_spec ((n / 10) mod 10) ((m / 10) mod 10));
    destruct (Z.compare_spec (n mod 10) (m mod 10));
    destruct (Z.compare_spec n m); try reflexivity; exfalso; divmod.
Qed.

Lemma digit_ext (a b : Z) :
  a mod 10 = b mod 10 -> Date.digit a = Date.digit b.
Proof. unfold Date.digit. intros ->. reflexivity. Qed.

Lemma pad4_as_pad2 (n : Z) (s : string) :
  (Date.pad4 n ++ s =
   Date.pad2 (n / 100) ++ (Date.pad2 (n mod 100) ++ s))%string.
Proof.
  unfold Date.pad4, Date.pad2. cbn [String.append].
  rewrite (digit_ext (n / 1000) (n / 100 / 10)) by divmod.
  rewrite (digit_ext (n / 10) (n mod 100 / 10)) by divmod.
  rewrite (digit_ext n (n mod 100)) by divmod.
  reflexivity.
Qed.

Lemma pad4_compare (n m : Z) (s t : string) :
  0 <= n < 10000 -> 0 <= m < 10000 ->
  String.compare (Date.pad4 n ++ s) (Date.pad4 m ++ t) =
  match n ?= m with Eq => String.compare s t | c => c end.
Proof.
  intros Hn Hm. rewrite !pad4_as_pad2.
  rewrite pad2_compare by divmod.
  rewrite pad2_compare by divmod.
  destruct (Z.compare_spec (n / 100) (m / 100));
    destruct (Z.compare_spec (n mod 100) (m mod 100));
    destruct (Z.compare_spec n m); try reflexivity; exfalso; divmod.
Qed.

Lemma valid_bounds (d : Date.date) :
  Date.valid d = true ->
  1 <= Date.year d <= 9999 /\ 1 <= Date.month d <= 12 /\
  1 <= Date.day d <= Date.days_in_month (Date.year d) (Date.month d).
Proof.
  unfold Date.valid. rewrite !andb_true_iff, !Z.leb_le. tauto.
Qed.

Lemma days_in_month_bounds (y m : Z) : 28 <= Date.days_in_month y m <= 31.
Proof.
  unfold Date.days_in_month.
  destruct (m =? 2); [destruct (Date.is_leap y); lia|].
  destruct ((m =? 4) || (m =? 6) || (m =? 9) || (m =? 11)); lia.
Qed.

(** isoformat is an order embedding of the valid dates into TEXT. *)
Lemma isoformat_compare (a b : Date.date) :
  Date.valid a = true -> Date.valid b = true ->
  String.compare (Date.isoformat a) (Date.isoformat b) = Date.compare a b.
Proof.
  intros Ha Hb.
  apply valid_bounds in Ha. apply valid_bounds in Hb.
  pose proof (days_in_month_bounds (Date.year a) (Date.month a)).
  pose proof (days_in_month_bounds (Date.year b) (Date.month b)).
  unfold Date.isoformat, Date.compare.
  rewrite pad4_compare by lia.
  destruct (Date.year a ?= Date.year b); try reflexivity.
  cbn [String.append String.compare].
  replace (Ascii.compare "-" "-") with Eq by reflexivity.
  rewrite pad2_compare by lia.
  destruct (Date.month a ?= Date.month b); try reflexivity.
  cbn [String.append String.compare].
  replace (Ascii.compare "-" "-") with Eq by reflexivity.
  change (Date.pad2 (Date.day a))
    with (Date.pad2 (Date.day a) ++ "")%string.
  change (Date.pad2 (Date.day b))
    with (Date.pad2 (Date.day b) ++ "")%string.
  rewrite pad2_compare by lia.
  destruct (Date.day a ?= Date.day b); reflexivity.
Qed.

Lemma isoformat_leb (a b : Date.date) :
  Date.valid a = true -> Date.valid b = true ->
  Sqlite.text_le (Date.isoformat a) (Date.isoformat b) = Date.leb a b.
Proof.
  intros Ha Hb. unfold Sqlite.text_le, String.leb, Date.leb.
  rewrite isoformat_compare by assumption. reflexivity.
Qed.

(** BETWEEN on the ISO texts is the closed calendar interval. *)
Lemma between_isoformat (x lo hi : Date.date) :
  Date.valid x = true -> Date.valid lo = true -> Date.valid hi = true ->
  Sqlite.between (Date.isoformat x) (Date.isoformat lo) (Date.isoformat hi)
  = Date.leb lo x && Date.leb x hi.
Proof.
  intros Hx Hlo Hhi. unfold Sqlite.between.
  rewrite !isoformat_leb by assumption. reflexivity.
Qed.

(** Date order as arithmetic on the three fields. *)
Lemma leb_spec (a b : Date.date) :
  Date.leb a b = true <->
  Date.year a < Date.year b \/
  (Date.year a = Date.year b /\
   (Date.month a < Date.month b \/
    (Date.month a = Date.month b /\ Date.day a <= Date.day b))).
Proof.
  unfold Date.leb, Date.compare.
  destruct (Z.compare_spec (Date.year a) (Date.year b));
    destruct (Z.compare_spec (Date.month a) (Date.month b));
    destruct (Z.compare_spec (Date.day a) (Date.day b));
    split; intros; try reflexivity; try discriminate; lia.
Qed.

Lemma leb_false_spec (a b : Date.date) :
  Date.leb a b = false <->
  Date.year b < Date.year a \/
  (Date.year a = Date.year b /\
   (Date.month b < Date.month a \/
    (Date.month a = Date.month b /\ Date.day b < Date.day a))).
Proof.
  unfold Date.leb, Date.compare.
  destruct (Z.compare_spec (Date.year a) (Date.year b));
    destruct (Z.compare_spec (Date.month a) (Date.month b));
    destruct (Z.compare_spec (Date.day a) (Date.day b));
    split; intros; try reflexivity; try discriminate; lia.
Qed.

Lemma gtb_spec (a b : Date.date) :
  Date.gtb a b = negb (Date.leb a b).
Proof.
  unfold Date.gtb, Date.ltb, Date.leb, Date.compare.
  rewrite (Z.compare_antisym (Date.year a) (Date.year b)).
  rewrite (Z.compare_antisym (Date.month a) (Date.month b)).
  rewrite (Z.compare_antisym (Date.day a) (Date.day b)).
  destruct (Date.year a ?= Date.year b); try reflexivity;
    destruct (Date.month a ?= Date.month b); try reflexivity;
    destruct (Date.day a ?= Date.day b); reflexivity.
Qed.

Lemma leb_refl (a : Date.date) : Date.leb a a = true.
Proof. apply leb_spec. lia. Qed.

Lemma leb_trans (a b c : Date.date) :
  Date.leb a b = true -> Date.leb b c = true -> Date.leb a c = true.
Proof. rewrite !leb_spec. lia. Qed.

(** The day after: a valid date, later, with no valid date between. *)
Lemma next_day_valid (d d' : Date.date) :
  Date.valid d = true -> Date.next_day d = Some d' -> Date.valid d' = true.
Proof.
  intros Hd Hn. apply valid_bounds in Hd. unfold Date.next_day in Hn.
  destruct (Z.ltb_spec (Date.day d)
              (Date.days_in_month (Date.year d) (Date.month d))).
  { injection Hn as <-. unfold Date.valid. cbn.
    rewrite !andb_true_iff, !Z.leb_le. lia. }
  destruct (Z.ltb_spec (Date.month d) 12).
  { injection Hn as <-. unfold Date.valid. cbn.
    pose proof (days_in_month_bounds (Date.year d) (Date.month d + 1)).
    rewrite !andb_true_iff, !Z.leb_le. lia. }
  destruct (Z.ltb_spec (Date.year d) 9999); [|discriminate].
  injection Hn as <-. unfold Date.valid. cbn.
  rewrite !andb_true_iff, !Z.leb_le. lia.
Qed.

Lemma next_day_adjacent (d d' x : Date.date) :
  Date.valid d = true -> Date.valid x = true ->
  Date.next_day d = Some d' ->
  Date.leb d' x = negb (Date.leb x d).
Proof.
  intros Hd Hx Hn. apply valid_bounds in Hd. apply valid_bounds in Hx.
  unfold Date.next_day in Hn.
  destruct (Date.leb x d) eqn:Hxd; cbn [negb].
  - apply leb_spec in Hxd. apply leb_false_spec.
    destruct (Z.ltb_spec (Date.day d)
                (Date.days_in_month (Date.year d) (Date.month d))).
    { injection Hn as <-. cbn. lia. }
    destruct (Z.ltb_spec (Date.month d) 12).
    { injection Hn as <-. cbn. lia. }
    destruct (Z.ltb_spec (Date.year d) 9999); [|discriminate].
    injection Hn as <-. cbn. lia.
  - apply leb_false_spec in Hxd. apply leb_spec.
    destruct (Z.ltb_spec (Date.day d)
                (Date.days_in_month (Date.year d) (Date.month d))).
    { injection Hn as <-. cbn. lia. }
    destruct (Z.ltb_spec (Date.month d) 12).
    { injection Hn as <-. cbn.
      assert (Date.year x = Date.year d /\ Date.month x = Date.month d ->
              False) by (intros [E1 E2]; rewrite E1, E2 in Hx; lia).
      lia. }
    destruct (Z.ltb_spec (Date.year d) 9999); [|discriminate].
    injection Hn as <-. cbn.
    assert (Date.year x = Date.year d /\ Date.month x = Date.month d ->
            False) by (intros [E1 E2]; rewrite E1, E2 in Hx; lia).
    lia.
Qed.

(* ================================================================= *)
(** ** The TEXT order is a total preorder *)

Lemma text_ltb_leb (s t : string) :
  String.ltb s t = true -> String.leb s t = true.
Proof.
  unfold String.ltb, String.leb.
  destruct (String.compare s t); cbn; congruence.
Qed.

Lemma text_ltb_false (s t : string) :
  String.ltb s t = false -> String.leb t s = true.
Proof.
  unfold String.ltb, String.leb. rewrite (String.compare_antisym t s).
  destruct (String.compare s t); cbn; congruence.
Qed.

Lemma text_leb_false (s t : string) :
  String.leb s t = false -> String.leb t s = true.
Proof.
  unfold String.leb. rewrite (String.compare_antisym t s).
  destruct (String.compare s t); cbn; congruence.
Qed.

Lemma text_compare_refl (s : string) : String.compare s s = Eq.
Proof.
  induction s as [|c s IH]; cbn; [reflexivity|].
  unfold Ascii.compare. rewrite N.compare_refl. exact IH.
Qed.

Lemma text_compare_lt_trans (a b c : string) :
  String.compare a b = Lt -> String.compare b c = Lt ->
  String.compare a c = Lt.
Proof.
  revert b c. induction a as [|x a IH]; intros [|y b] [|z c]; cbn;
    try congruence.
  unfold Ascii.compare.
  destruct (N.compare_spec (N_of_ascii x) (N_of_ascii y)) as [Exy|Lxy|Gxy];
    try congruence;
    destruct (N.compare_spec (N_of_ascii y) (N_of_ascii z)) as [Eyz|Lyz|Gyz];
    try congruence;
    destruct (N.compare_spec (N_of_ascii x) (N_of_ascii z)) as [Exz|Lxz|Gxz];
    try congruence; try lia; intros; eauto.
Qed.

Lemma text_le_refl (s : string) : Sqlite.text_le s s = true.
Proof.
  unfold Sqlite.text_le, String.leb. rewrite text_compare_refl. reflexivity.
Qed.

Lemma text_le_trans (a b c : string) :
  Sqlite.text_le a b = true -> Sqlite.text_le b c = true ->
  Sqlite.text_le a c = true.
Proof.
  unfold Sqlite.text_le, String.leb.
  destruct (String.compare a b) eqn:Hab; try discriminate;
    destruct (String.compare b c) eqn:Hbc; try discriminate; intros _ _.
  - apply String.compare_eq_iff in Hab, Hbc. subst.
    rewrite text_compare_refl. reflexivity.
  - apply String.compare_eq_iff in Hab. subst. rewrite Hbc. reflexivity.
  - apply String.compare_eq_iff in Hbc. subst. rewrite Hab. reflexivity.
  - rewrite (text_compare_lt_trans a b c Hab Hbc). reflexivity.
Qed.

Lemma text_ltb_irrefl (s : string) : String.ltb s s = false.
Proof.
  unfold String.ltb. rewrite text_compare_refl. reflexivity.
Qed.

(** A range whose bounds are reversed matches no text. *)
Lemma between_reversed (x lo hi : string) :
  Sqlite.text_le lo hi = false -> Sqlite.between x lo hi = false.
Proof.
  intros H. unfold Sqlite.between.
  destruct (Sqlite.text_le lo x) eqn:H1; [|reflexivity].
  destruct (Sqlite.text_le x hi) eqn:H2; [|reflexivity].
  rewrite (text_le_trans lo x hi H1 H2) in H. discriminate.
Qed.

Lemma key_le_trans {A : Type} (key : A -> string) (x y z : A) :
  key_le key x y -> key_le key y z -> key_le key x z.
Proof. unfold key_le. apply text_le_trans. Qed.

Lemma sorted_strongly {A : Type} (key : A -> string) (l : list A) :
  Sorted (key_le key) l -> StronglySorted (key_le key) l.
Proof.
  apply Sorted_StronglySorted. intros x y z. apply key_le_trans.
Qed.

(* ================================================================= *)
(** ** Insertion sort meets the contract of a sorter *)

Section Insertion.

Context {A : Type} (key : A -> string).

Lemma insert_after_perm (x : A) (l : list A) :
  Permutation (x :: l) (insert_after key x l).
Proof.
  induction l as [|y l IH]; cbn; [reflexivity|].
  destruct (String.ltb (key x) (key y)); [reflexivity|].
  rewrite perm_swap. constructor. exact IH.
Qed.

Lemma insert_after_sorted (x : A) (l : list A) :
  Sorted (key_le key) l -> Sorted (key_le key) (insert_after key x l).
Proof.
  induction 1 as [|y l Hs IH Hd]; cbn; [repeat constructor|].
  destruct (String.ltb (key x) (key y)) eqn:E.
  - constructor; [constructor; assumption|].
    constructor. apply text_ltb_leb, E.
  - constructor; [exact IH|].
    destruct Hd as [|z l Hyz]; cbn.
    + constructor. apply text_ltb_false, E.
    + destruct (String.ltb (key x) (key z)); constructor;
        [apply text_ltb_false, E | exact Hyz].
Qed.

Lemma fold_insert_perm (ins : A -> list A -> list A) :
  (forall x l, Permutation (x :: l) (ins x l)) ->
  forall l acc,
    Permutation (l ++ acc) (fold_left (fun acc x => ins x acc) l acc).
Proof.
  intros Hins. induction l as [|x l IH]; intros acc; cbn; [reflexivity|].
  rewrite <- IH. rewrite <- Hins. apply Permutation_middle.
Qed.

Lemma fold_insert_sorted (ins : A -> list A -> list A) :
  (forall x l, Sorted (key_le key) l -> Sorted (key_le key) (ins x l)) ->
  forall l acc,
    Sorted (key_le key) acc ->
    Sorted (key_le key) (fold_left (fun acc x => ins x acc) l acc).
Proof.
  intros Hins. induction l as [|x l IH]; intros acc Hacc; cbn; auto.
Qed.

End Insertion.

Lemma stable_sort_perm (A : Type) (key : A -> string) (l : list A) :
  Permutation l (stable_sort key l).
Proof.
  unfold stable_sort. rewrite <- (app_nil_r l) at 1.
  apply fold_insert_perm. apply insert_after_perm.
Qed.

Lemma stable_sort_sorted (A : Type) (key : A -> string) (l : list A) :
  Sorted (key_le key) (stable_sort key l).
Proof.
  apply (fold_insert_sorted key (insert_after key)).
  - apply insert_after_sorted.
  - constructor.
Qed.

(** A sorter that keeps equal keys in input order. *)
Definition stable_sorter : sorter :=
  {| sort_on := @stable_sort;
     sort_on_perm := stable_sort_perm;
     sort_on_sorted := stable_sort_sorted |}.

(* ================================================================= *)
(** ** numpy's quicksort sorts *)

Section NpysortProofs.

Local Open Scope nat_scope.

Context {A : Type} (key : A -> string).

Lemma less_key_le (x y : A) : less key y x = false <-> key_le key x y.
Proof.
  unfold less, key_le, String.ltb, String.leb.
  rewrite (String.compare_antisym (key x) (key y)).
  destruct (String.compare (key y) (key x)); cbn; split; congruence.
Qed.

Lemma less_asym (x y : A) : less key x y = true -> less key y x = false.
Proof.
  intros H. apply less_key_le. apply text_ltb_leb, H.
Qed.

Lemma not_less_trans (x y z : A) :
  less key y x = false -> less key z y = false -> less key z x = false.
Proof.
  rewrite !less_key_le. unfold key_le. apply text_le_trans.
Qed.

Lemma less_irrefl (x : A) : less key x x = false.
Proof. apply less_key_le. apply text_le_refl. Qed.

Lemma length_set (i : nat) (x : A) (a : list A) :
  List.length (set i x a) = List.length a.
Proof.
  revert i. induction a as [|y a IH]; intros [|i]; cbn; auto.
Qed.

Lemma nth_error_set (i k : nat) (x : A) (a : list A) :
  nth_error (set i x a) k =
  if (k =? i) && (i <? List.length a) then Some x else nth_error a k.
Proof.
  revert i k. induction a as [|y a IH]; intros [|i] [|k]; cbn; auto;
    destruct (k =? i); reflexivity.
Qed.

Lemma nth_set (d : A) (i k : nat) (x : A) (a : list A) :
  (i < List.length a) ->
  nth k (set i x a) d = if (k =? i) then x else nth k a d.
Proof.
  revert i k. induction a as [|y a IH]; intros [|i] [|k]; cbn; intros H;
    try lia; auto.
  apply IH. lia.
Qed.

Lemma set_set (i : nat) (x y : A) (a : list A) :
  set i x (set i y a) = set i x a.
Proof.
  revert i. induction a as [|z a IH]; intros [|i]; cbn; auto.
  rewrite IH. reflexivity.
Qed.

Lemma set_nth (d : A) (i : nat) (a : list A) : set i (nth i a d) a = a.
Proof.
  revert i. induction a as [|z a IH]; intros [|i]; cbn; auto.
  rewrite IH. reflexivity.
Qed.

Definition descending (l : list A) : Prop :=
  Sorted (fun x y => key_le key y x) l.

Lemma insert_perm (x : A) (l : list A) : Permutation (x :: l) (insert key x l).
Proof.
  induction l as [|y l IH]; cbn; [reflexivity|].
  destruct (less key x y); [|reflexivity].
  rewrite perm_swap. constructor. exact IH.
Qed.

Lemma insert_descending (x : A) (l : list A) :
  descending l -> descending (insert key x l).
Proof.
  unfold descending.
  induction 1 as [|y l Hs IH Hd]; cbn; [repeat constructor|].
  destruct (less key x y) eqn:E.
  - constructor; [exact IH|].
    destruct Hd as [|z l Hyz]; cbn.
    + constructor. apply text_ltb_leb, E.
    + destruct (less key x z); constructor;
        [exact Hyz | apply text_ltb_leb, E].
  - constructor; [constructor; assumption|].
    constructor. apply less_key_le, E.
Qed.

Lemma sorted_app (l r : list A) (p : A) :
  Sorted (key_le key) l -> Sorted (key_le key) r ->
  Forall (fun x => key_le key x p) l -> Forall (key_le key p) r ->
  Sorted (key_le key) (l ++ p :: r).
Proof.
  intros Hl Hr Hlp Hpr. induction Hl as [|x l Hs IH Hd]; cbn.
  - constructor; [exact Hr|]. destruct Hpr; constructor; assumption.
  - inversion Hlp; subst. constructor; [apply IH; assumption|].
    destruct Hd; cbn; constructor; assumption.
Qed.

Lemma descending_rev (l : list A) :
  descending l -> Sorted (key_le key) (rev l).
Proof.
  intros H. apply Sorted_StronglySorted in H.
  2:{ intros x y z Hxy Hyz. apply (key_le_trans key z y x); assumption. }
  induction H as [|x l Hs IH Hall]; cbn; [constructor|].
  rewrite <- (app_nil_r (rev l ++ [x])), <- app_assoc. cbn.
  assert (E : rev l ++ [x] = rev l ++ x :: []) by reflexivity.
  apply sorted_app; [exact IH|constructor| |constructor].
  apply Forall_rev. exact Hall.
Qed.

Lemma insertion_sort_perm (a : list A) : Permutation a (insertion_sort key a).
Proof.
  unfold insertion_sort. rewrite <- Permutation_rev.
  rewrite <- (app_nil_r a) at 1. generalize (@nil A) as acc.
  induction a as [|x a IH]; intros acc; cbn; [reflexivity|].
  rewrite <- IH. rewrite <- insert_perm. apply Permutation_middle.
Qed.

Lemma insertion_sort_sorted (a : list A) :
  Sorted (key_le key) (insertion_sort key a).
Proof.
  unfold insertion_sort. apply descending_rev.
  assert (H : descending []) by constructor.
  revert H. generalize (@nil A) as acc.
  induction a as [|x a IH]; intros acc H; cbn; [exact H|].
  apply IH, insert_descending, H.
Qed.

(** Insertion never moves an element past one of the same key. *)
Lemma insert_filter (s : string) (x : A) (l : list A) :
  filter (fun y => String.eqb (key y) s) (insert key x l) =
  (if String.eqb (key x) s then [x] else []) ++
  filter (fun y => String.eqb (key y) s) l.
Proof.
  induction l as [|y l IH]; cbn; [destruct (String.eqb (key x) s); reflexivity|].
  destruct (less key x y) eqn:E; cbn; [|destruct (String.eqb (key x) s); reflexivity].
  rewrite IH.
  destruct (String.eqb_spec (key y) s) as [Ey|Ny];
    destruct (String.eqb_spec (key x) s) as [Ex|Nx]; try reflexivity.
  unfold less in E. rewrite Ex, Ey in E.
  rewrite text_ltb_irrefl in E. discriminate.
Qed.

Lemma insertion_sort_stable (s : string) (a : list A) :
  filter (fun y => String.eqb (key y) s) (insertion_sort key a) =
  filter (fun y => String.eqb (key y) s) a.
Proof.
  unfold insertion_sort. rewrite filter_rev.
  assert (H : forall acc,
             filter (fun y => String.eqb (key y) s)
               (fold_left (fun before x => insert key x before) a acc) =
             rev (filter (fun y => String.eqb (key y) s) a) ++
             filter (fun y => String.eqb (key y) s) acc).
  { induction a as [|x a IH]; intros acc; cbn; [reflexivity|].
    rewrite IH, insert_filter.
    destruct (String.eqb (key x) s); cbn; [|reflexivity].
    rewrite <- app_assoc. reflexivity. }
  rewrite H. cbn. rewrite app_nil_r, rev_involutive. reflexivity.
Qed.

Variable small_quicksort : nat.

Hypothesis small_quicksort_ok : (1 <= small_quicksort).

Section Segment.

Variable d : A.

Lemma length_swap (i j : nat) (a : list A) :
  List.length (swap d i j a) = List.length a.
Proof. unfold swap. rewrite !length_set. reflexivity. Qed.

Lemma nth_swap (i j k : nat) (a : list A) :
  (i < List.length a) -> (j < List.length a) ->
  nth k (swap d i j a) d =
  if (k =? j) then nth i a d
  else if (k =? i) then nth j a d else nth k a d.
Proof.
  intros Hi Hj. unfold swap.
  rewrite nth_set by (rewrite length_set; exact Hj).
  destruct (k =? j); [reflexivity|].
  apply nth_set, Hi.
Qed.

Definition transpose (i j k : nat) : nat :=
  if (k =? j) then i else if (k =? i) then j else k.

Lemma swap_perm (i j : nat) (a : list A) :
  (i < List.length a) -> (j < List.length a) ->
  Permutation a (swap d i j a).
Proof.
  intros Hi Hj. apply Permutation_nth_error. split.
  - rewrite length_swap. reflexivity.
  - exists (transpose i j). split.
    + intros x y. unfold transpose.
      destruct (Nat.eqb_spec x j), (Nat.eqb_spec x i), (Nat.eqb_spec y j),
        (Nat.eqb_spec y i); lia.
    + intros k. unfold swap, transpose. rewrite !nth_error_set, !length_set.
      destruct (Nat.ltb_spec j (List.length a)); [|lia].
      destruct (Nat.ltb_spec i (List.length a)); [|lia].
      rewrite !andb_true_r.
      destruct (Nat.eqb_spec k j) as [->|_].
      * symmetry. apply nth_error_nth'. exact Hi.
      * destruct (Nat.eqb_spec k i) as [->|_]; [|reflexivity].
        symmetry. apply nth_error_nth'. exact Hj.
Qed.

Lemma scan_up_spec (a : list A) (vp : A) (pj : nat) :
  less key (nth pj a d) vp = false ->
  forall fuel pi,
    (pi < pj) -> (pj - pi <= fuel) ->
    let r := scan_up key d fuel a vp pi pj in
    (pi < r <= pj) /\
    (forall k, (pi < k < r) -> less key (nth k a d) vp = true) /\
    less key (nth r a d) vp = false.
Proof.
  intros Hpj. induction fuel as [|fuel IH]; intros pi Hlt Hfuel; [lia|].
  cbn [scan_up].
  destruct (less key (nth (S pi) a d) vp) eqn:E; cbn [andb].
  - destruct (Nat.ltb_spec (S pi) pj) as [Hlt'|Hge].
    + destruct (IH (S pi) Hlt' ltac:(lia)) as (Hr & Hk & Hs).
      split; [lia|]. split; [|exact Hs].
      intros k Hk'. destruct (Nat.eq_dec k (S pi)) as [->|Hne]; [exact E|].
      apply Hk. lia.
    + assert (S pi = pj) as -> by lia.
      split; [lia|]. split; [intros; lia|exact Hpj].
  - split; [lia|]. split; [intros; lia|exact E].
Qed.

Lemma scan_down_spec (a : list A) (vp : A) (pi : nat) :
  forall fuel pj,
    (1 <= pi <= pj) -> (pj - pi <= fuel) ->
    let r := scan_down key d fuel a vp pi pj in
    (pi - 1 <= r < pj) /\
    (forall k, (r < k < pj) -> less key vp (nth k a d) = true) /\
    ((pi < r) -> less key vp (nth r a d) = false).
Proof.
  induction fuel as [|fuel IH]; intros pj Hle Hfuel.
  - assert (pj = pi) as -> by lia. cbn [scan_down].
    split; [lia|]. split; intros; lia.
  - cbn [scan_down].
    destruct (less key vp (nth (pj - 1) a d)) eqn:E; cbn [andb].
    + destruct (Nat.ltb_spec pi (pj - 1)) as [Hlt|Hge].
      * destruct (IH (pj - 1) ltac:(lia) ltac:(lia)) as (Hr & Hk & Hs).
        split; [lia|]. split; [|exact Hs].
        intros k Hk'.
        destruct (Nat.eq_dec k (pj - 1)) as [->|Hne]; [exact E|].
        apply Hk. lia.
      * split; [lia|]. split; intros; lia.
    + split; [lia|]. split; [intros; lia|]. intros _. exact E.
Qed.

(** The state of the partition key d loop. *)
Record hoare_inv (n : nat) (vp : A) (a : list A) (pi pj : nat) : Prop := {
  inv_length : List.length a = n;
  inv_bounds : (pi < pj <= n - 2);
  inv_low : forall k, (k <= pi) -> less key vp (nth k a d) = false;
  inv_high : forall k, (pj <= k < n) -> less key (nth k a d) vp = false;
  inv_pivot : (nth (n - 2) a d) = vp
}.

Lemma hoare_spec (n : nat) (vp : A) :
  forall fuel a pi pj,
    hoare_inv n vp a pi pj -> (pj - pi <= fuel) ->
    let (a', r) := hoare key d fuel a vp pi pj in
    Permutation a a' /\ List.length a' = n /\ (r <= n - 2) /\
    (forall k, (k < r) -> less key vp (nth k a' d) = false) /\
    (forall k, (r <= k < n) -> less key (nth k a' d) vp = false) /\
    (nth (n - 2) a' d) = vp.
Proof.
  induction fuel as [|fuel IH]; intros a pi pj Hinv Hfuel.
  { destruct Hinv. lia. }
  destruct Hinv as [Hlen Hb Hlow Hhigh Hpiv].
  cbn [hoare]. rewrite Hlen.
  pose proof (scan_up_spec a vp pj (Hhigh pj ltac:(lia)) n pi ltac:(lia)
                ltac:(lia)) as (Hi & Hik & His).
  set (ri := scan_up key d n a vp pi pj) in *.
  pose proof (scan_down_spec a vp ri n pj ltac:(lia) ltac:(lia))
    as (Hj & Hjk & Hjs).
  set (rj := scan_down key d n a vp ri pj) in *.
  destruct (Nat.leb_spec rj ri) as [Hbreak|Hswap].
  - split; [reflexivity|]. split; [exact Hlen|]. split; [lia|].
    split; [|split; [|exact Hpiv]].
    + intros k Hk. destruct (Nat.le_gt_cases k pi) as [Hk'|Hk'];
        [apply Hlow, Hk'|].
      apply less_asym. apply Hik. lia.
    + intros k Hk. destruct (Nat.eq_dec k ri) as [->|Hne]; [exact His|].
      destruct (Nat.le_gt_cases pj k) as [Hk'|Hk'];
        [apply Hhigh; lia|].
      apply less_asym. apply Hjk. lia.
  - assert (Hri : (ri < List.length a)) by lia.
    assert (Hrj : (rj < List.length a)) by lia.
    specialize (IH (swap d ri rj a) ri rj).
    destruct (hoare key d fuel (swap d ri rj a) vp ri rj) as [a' r].
    destruct IH as (Hperm & IH); [|lia|].
    { constructor.
      - rewrite length_swap. exact Hlen.
      - lia.
      - intros k Hk. rewrite nth_swap by assumption.
        destruct (Nat.eqb_spec k rj); [lia|].
        destruct (Nat.eqb_spec k ri) as [->|Hne]; [apply Hjs; lia|].
        destruct (Nat.le_gt_cases k pi) as [Hk'|Hk'];
          [apply Hlow, Hk'|].
        apply less_asym. apply Hik. lia.
      - intros k Hk. rewrite nth_swap by assumption.
        destruct (Nat.eqb_spec k rj) as [->|Hne]; [exact His|].
        destruct (Nat.eqb_spec k ri); [lia|].
        destruct (Nat.le_gt_cases pj k) as [Hk'|Hk'];
          [apply Hhigh; lia|].
        apply less_asym. apply Hjk. lia.
      - rewrite nth_swap by assumption.
        destruct (Nat.eqb_spec (n - 2) rj); [lia|].
        destruct (Nat.eqb_spec (n - 2) ri); [lia|]. exact Hpiv. }
    split; [|exact IH].
    etransitivity; [|exact Hperm]. apply swap_perm; assumption.
Qed.


Lemma swap_if_less_spec (i j : nat) (a : list A) :
  (i < List.length a) -> (j < List.length a) -> i <> j ->
  let b := swap_if_less key d i j a in
  List.length b = List.length a /\ Permutation a b /\
  less key (nth i b d) (nth j b d) = false /\
  (forall k, k <> i -> k <> j -> (nth k b d) = (nth k a d)) /\
  (((nth i b d) = (nth i a d) /\ (nth j b d) = (nth j a d)) \/ ((nth i b d) = (nth j a d) /\ (nth j b d) = (nth i a d))).
Proof.
  intros Hi Hj Hne. unfold swap_if_less.
  destruct (less key (nth i a d) (nth j a d)) eqn:E; cbv zeta.
  - split; [apply length_swap|]. split; [apply swap_perm; assumption|].
    rewrite !nth_swap by assumption. rewrite !Nat.eqb_refl.
    destruct (Nat.eqb_spec i j); [contradiction|].
    split; [apply less_asym, E|]. split; [|right; split; reflexivity].
    intros k Hki Hkj. rewrite nth_swap by assumption.
    destruct (Nat.eqb_spec k j); [contradiction|].
    destruct (Nat.eqb_spec k i); [contradiction|]. reflexivity.
  - split; [reflexivity|]. split; [reflexivity|]. split; [exact E|].
    split; [reflexivity|]. left. split; reflexivity.
Qed.

(** The three conditional swaps leave v[pl] <= v[pm] <= v[pr]. *)
Lemma median_spec (pl pm pr : nat) (a : list A) :
  (pl < pm < pr) -> (pr < List.length a) ->
  let b := swap_if_less key d pm pl (swap_if_less key d pr pm (swap_if_less key d pm pl a)) in
  List.length b = List.length a /\ Permutation a b /\
  less key (nth pm b d) (nth pl b d) = false /\ less key (nth pr b d) (nth pm b d) = false.
Proof.
  intros Hlt Hpr.
  pose proof (swap_if_less_spec pm pl a ltac:(lia) ltac:(lia) ltac:(lia))
    as (L1 & P1 & O1 & F1 & C1).
  set (a1 := swap_if_less key d pm pl a) in *.
  pose proof (swap_if_less_spec pr pm a1 ltac:(lia) ltac:(lia) ltac:(lia))
    as (L2 & P2 & O2 & F2 & C2).
  set (a2 := swap_if_less key d pr pm a1) in *.
  pose proof (swap_if_less_spec pm pl a2 ltac:(lia) ltac:(lia) ltac:(lia))
    as (L3 & P3 & O3 & F3 & C3).
  set (a3 := swap_if_less key d pm pl a2) in *.
  cbv zeta. split; [congruence|].
  split; [etransitivity; [exact P1|etransitivity; [exact P2|exact P3]]|].
  split; [exact O3|].
  rewrite (F3 pr) by lia.
  assert (Hlow : less key (nth pr a2 d) (nth pl a2 d) = false).
  { rewrite (F2 pl) by lia.
    destruct C2 as [[E1 E2]|[E1 E2]]; rewrite E1.
    - apply (not_less_trans _ (nth pm a1 d)); [exact O1|].
      rewrite <- E1, <- E2. exact O2.
    - exact O1. }
  destruct C3 as [[E1 E2]|[E1 E2]]; rewrite E1; [exact O2|exact Hlow].
Qed.

Lemma partition_spec (a : list A) :
  (3 <= List.length a) ->
  let (b, r) := partition key d a in
  Permutation a b /\ List.length b = List.length a /\
  (r < List.length a) /\
  (forall k, (k < r) -> less key (nth r b d) (nth k b d) = false) /\
  (forall k, (r < k < List.length a) -> less key (nth k b d) (nth r b d) = false).
Proof.
  intros Hn. unfold partition.
  set (n := List.length a) in *.
  set (pm := (0 + (n - 1 - 0) / 2)).
  assert (Hpm : (0 < pm < n - 1)).
  { unfold pm. rewrite Nat.sub_0_r, Nat.add_0_l.
    split.
    - apply Nat.div_str_pos. lia.
    - apply Nat.div_lt; lia. }
  pose proof (median_spec 0 pm (n - 1) a ltac:(lia) ltac:(lia))
    as (L3 & P3 & O1 & O2).
  set (a3 := swap_if_less key d pm 0 (swap_if_less key d (n - 1) pm
                                   (swap_if_less key d pm 0 a))) in *.
  set (vp := (nth pm a3 d)) in *.
  assert (Hpm3 : (pm < List.length a3)) by lia.
  assert (Hpk3 : (n - 1 - 1 < List.length a3)) by lia.
  set (a4 := swap d pm (n - 1 - 1) a3).
  assert (L4 : List.length a4 = n)
    by (unfold a4; rewrite length_swap; exact L3).
  rewrite L4.
  pose proof (hoare_spec n vp n a4 0 (n - 1 - 1)) as H.
  destruct (hoare key d n a4 vp 0 (n - 1 - 1)) as [a5 r].
  destruct H as (P5 & L5 & Hr & Hlow & Hhigh & Hpiv); [|lia|].
  { constructor.
    - exact L4.
    - lia.
    - intros k Hk. assert (k = 0) as -> by lia.
      unfold a4. rewrite nth_swap by assumption.
      destruct (Nat.eqb_spec 0 (n - 1 - 1)); [lia|].
      destruct (Nat.eqb_spec 0 pm); [lia|]. exact O1.
    - intros k Hk. unfold a4. rewrite nth_swap by assumption.
      destruct (Nat.eqb_spec k (n - 1 - 1)); [apply less_irrefl|].
      assert (k = n - 1) as -> by lia.
      destruct (Nat.eqb_spec (n - 1) pm); [lia|]. exact O2.
    - unfold a4. rewrite nth_swap by assumption.
      replace (n - 2) with (n - 1 - 1) by lia.
      rewrite Nat.eqb_refl. reflexivity. }
  assert (Hr5 : (r < List.length a5)) by lia.
  assert (Hk5 : (n - 1 - 1 < List.length a5)) by lia.
  split.
  { etransitivity; [exact P3|]. etransitivity; [|etransitivity; [exact P5|]].
    - apply swap_perm; assumption.
    - apply swap_perm; assumption. }
  split; [rewrite length_swap; exact L5|]. split; [lia|].
  replace (n - 2) with (n - 1 - 1) in Hpiv by lia.
  assert (Er : nth r (swap d r (n - 1 - 1) a5) d = vp).
  { rewrite nth_swap by assumption.
    destruct (Nat.eqb_spec r (n - 1 - 1)) as [->|_]; [exact Hpiv|].
    rewrite Nat.eqb_refl. exact Hpiv. }
  rewrite Er. split.
  - intros k Hk. rewrite nth_swap by assumption.
    destruct (Nat.eqb_spec k (n - 1 - 1)); [lia|].
    destruct (Nat.eqb_spec k r); [lia|]. apply Hlow, Hk.
  - intros k Hk. rewrite nth_swap by assumption.
    destruct (Nat.eqb_spec k (n - 1 - 1)); [apply Hhigh; lia|].
    destruct (Nat.eqb_spec k r); [lia|]. apply Hhigh. lia.
Qed.

Lemma length_set1 (k : nat) (x : A) (a : list A) :
  List.length (set1 k x a) = List.length a.
Proof. apply length_set. Qed.

Lemma get1_set1 (i k : nat) (x : A) (a : list A) :
  (1 <= i <= List.length a) -> (1 <= k) ->
  get1 d (set1 i x a) k = if (k =? i) then x else get1 d a k.
Proof.
  intros Hi Hk. unfold get1, set1. rewrite nth_set by lia.
  destruct (Nat.eqb_spec (k - 1) (i - 1)), (Nat.eqb_spec k i);
    try reflexivity; lia.
Qed.

Lemma set1_swap (i j : nat) (x : A) (a : list A) :
  (1 <= i <= List.length a) -> (1 <= j <= List.length a) -> i <> j ->
  Permutation (set1 i x a) (set1 j x (set1 i (get1 d a j) a)).
Proof.
  intros Hi Hj Hne.
  assert (E : set1 j x (set1 i (get1 d a j) a) =
              swap d (i - 1) (j - 1) (set1 i x a)).
  { unfold swap, set1, get1.
    rewrite !nth_set by lia. rewrite Nat.eqb_refl.
    destruct (Nat.eqb_spec (j - 1) (i - 1)); [lia|].
    rewrite set_set. reflexivity. }
  rewrite E. apply swap_perm; rewrite length_set1; lia.
Qed.

(** The children of k, up to n, are not above it. *)
Definition heap_at (t : list A) (n k : nat) : Prop :=
  forall c, (c = 2 * k \/ c = 2 * k + 1) -> (c <= n) ->
            less key (get1 d t k) (get1 d t c) = false.

Record sift_inv (lo n : nat) (t : list A) (i : nat) : Prop := {
  sift_bounds : (1 <= lo <= i) /\ (i <= n <= List.length t);
  sift_heap : forall k, (lo <= k <= n) -> k <> i -> heap_at t n k;
  sift_parent :
    forall p c, (lo <= p) -> (i = 2 * p \/ i = 2 * p + 1) ->
                (c = 2 * i \/ c = 2 * i + 1) -> (c <= n) ->
                less key (get1 d t p) (get1 d t c) = false
}.

Lemma sift_spec (lo n : nat) :
  forall fuel a tmp i,
    sift_inv lo n (set1 i tmp a) i -> (n + 1 - (i + i) <= fuel) ->
    let t := set1 i tmp a in
    let r := sift key d fuel a tmp i (i + i) n in
    List.length r = List.length a /\ Permutation t r /\
    (forall k, (lo <= k <= n) -> heap_at r n k) /\
    (forall k, (n < k) -> get1 d r k = get1 d t k) /\
    (forall k, (1 <= k <= n) ->
               exists k', (1 <= k' <= n) /\ get1 d r k = get1 d t k').
Proof.
  induction fuel as [|fuel IH]; intros a tmp i Hinv Hfuel t r.
  - (* no child within n *)
    subst r. cbn [sift]. fold t.
    destruct Hinv as [Hb Hheap Hparent].
    rewrite length_set1 in Hb.
    split; [apply length_set1|]. split; [reflexivity|].
    split; [|split; [reflexivity|]].
    + intros k Hk. destruct (Nat.eq_dec k i) as [->|Hne]; [|auto].
      intros c Hc Hcn. lia.
    + intros k Hk. exists k. split; [exact Hk|reflexivity].
  - subst r. cbn [sift].
    destruct Hinv as [Hb Hheap Hparent].
    rewrite length_set1 in Hb.
    destruct (Nat.leb_spec (i + i) n) as [Hjn|Hjn].
    2:{ fold t. split; [apply length_set1|]. split; [reflexivity|].
        split; [|split; [reflexivity|]].
        + intros k Hk. destruct (Nat.eq_dec k i) as [->|Hne]; [|auto].
          intros c Hc Hcn. lia.
        + intros k Hk. exists k. split; [exact Hk|reflexivity]. }
    set (j := if ((i + i <? n) &&
                  less key (get1 d a (i + i)) (get1 d a (i + i + 1)))
              then (i + i + 1) else (i + i)).
    assert (Hj : (j = 2 * i \/ j = 2 * i + 1) /\ (j <= n) /\
                 forall c, (c = 2 * i \/ c = 2 * i + 1) -> (c <= n) ->
                           less key (get1 d a j) (get1 d a c) = false).
    { unfold j. destruct (Nat.ltb_spec (i + i) n) as [Hlt|Hge]; cbn [andb].
      - destruct (less key (get1 d a (i + i)) (get1 d a (i + i + 1))) eqn:E.
        + split; [lia|]. split; [lia|]. intros c [->| ->] _.
          * replace (2 * i) with (i + i) by lia.
            apply less_asym, E.
          * replace (2 * i + 1) with (i + i + 1) by lia.
            apply less_irrefl.
        + split; [lia|]. split; [lia|]. intros c [->| ->] _.
          * replace (2 * i) with (i + i) by lia.
            apply less_irrefl.
          * replace (2 * i + 1) with (i + i + 1) by lia. exact E.
      - split; [lia|]. split; [lia|]. intros c [->| ->] Hc; [|lia].
        replace (2 * i) with (i + i) by lia. apply less_irrefl. }
    destruct Hj as (Hjc & Hjle & Hjmax).
    clearbody j.
    assert (Htj : forall k, (1 <= k) -> k <> i -> get1 d t k = get1 d a k).
    { intros k Hk Hne. unfold t. rewrite get1_set1 by lia.
      destruct (Nat.eqb_spec k i); [contradiction|reflexivity]. }
    assert (Hti : get1 d t i = tmp).
    { unfold t. rewrite get1_set1 by lia. rewrite Nat.eqb_refl. reflexivity. }
    destruct (less key tmp (get1 d a j)) eqn:E.
    + (* the child moves up, the hole moves down *)
      set (a' := set1 i (get1 d a j) a).
      set (t' := set1 j tmp a').
      assert (La' : List.length a' = List.length a) by apply length_set1.
      assert (Ht' : forall k, (1 <= k) ->
                get1 d t' k = if (k =? j) then tmp
                            else if (k =? i) then get1 d a j
                                 else get1 d a k).
      { intros k Hk. unfold t', a'. rewrite get1_set1 by (rewrite ?length_set1; lia).
        destruct (k =? j); [reflexivity|].
        rewrite get1_set1 by lia. reflexivity. }
      specialize (IH a' tmp j).
      destruct IH as (Hlen & Hperm & Hh & Hframe & Hin).
      { fold t'. constructor.
        - unfold t'. rewrite length_set1, La'. lia.
        - intros k Hk Hne c Hc Hcn.
          rewrite (Ht' k) by lia. rewrite (Ht' c) by lia.
          destruct (Nat.eqb_spec k j); [contradiction|].
          destruct (Nat.eqb_spec k i) as [->|Hki].
          + destruct (Nat.eqb_spec c j) as [->|Hcj]; [apply less_asym, E|].
            destruct (Nat.eqb_spec c i); [lia|].
            apply Hjmax; assumption.
          + destruct (Nat.eqb_spec c j); [lia|].
            destruct (Nat.eqb_spec c i) as [->|Hci].
            * rewrite <- (Htj k) by lia. rewrite <- (Htj j) by lia.
              apply Hparent; try assumption; lia.
            * rewrite <- (Htj k) by lia. rewrite <- (Htj c) by lia.
              apply Hheap; try assumption. 
        - intros p c Hp Hpj Hc Hcn.
          assert (p = i) as -> by lia.
          rewrite (Ht' i) by lia. rewrite (Ht' c) by lia.
          destruct (Nat.eqb_spec i j); [lia|]. rewrite Nat.eqb_refl.
          destruct (Nat.eqb_spec c j); [lia|].
          destruct (Nat.eqb_spec c i); [lia|].
          rewrite <- (Htj j) by lia. rewrite <- (Htj c) by lia.
          apply (Hheap j); try assumption; lia. }
      { lia. }
      fold t' in Hperm, Hframe, Hin.
      replace (j + j) with (j + j) by reflexivity.
      split; [rewrite Hlen; exact La'|].
      split.
      { etransitivity; [|exact Hperm]. unfold t, t', a'.
        apply set1_swap; lia. }
      split; [intros k Hk; apply Hh; lia|].
      split.
      { intros k Hk. rewrite Hframe by exact Hk. rewrite Ht' by lia.
        destruct (Nat.eqb_spec k j); [lia|].
        destruct (Nat.eqb_spec k i); [lia|].
        symmetry. apply Htj; lia. }
      intros k Hk. destruct (Hin k Hk) as (k' & Hk' & Ek').
      rewrite Ek', Ht' by lia.
      destruct (Nat.eqb_spec k' j) as [->|Hkj].
      { exists i. split; [lia|]. symmetry. exact Hti. }
      destruct (Nat.eqb_spec k' i) as [->|Hki].
      { exists j. split; [lia|]. symmetry. apply Htj; lia. }
      exists k'. split; [exact Hk'|]. symmetry. apply Htj; lia.
    + (* tmp stays at i *)
      fold t. split; [apply length_set1|]. split; [reflexivity|].
      split; [|split; [reflexivity|]].
      * intros k Hk. destruct (Nat.eq_dec k i) as [->|Hne]; [|auto].
        intros c Hc Hcn. rewrite Hti. rewrite Htj by lia.
        apply (not_less_trans _ (get1 d a j)); [apply Hjmax; assumption|exact E].
      * intros k Hk. exists k. split; [exact Hk|reflexivity].
Qed.

Definition heap (a : list A) (n : nat) : Prop :=
  forall k, (1 <= k <= n) -> heap_at a n k.

Lemma build_spec (n : nat) :
  forall l a,
    List.length a = n -> (l <= n) ->
    (forall k, (l < k <= n) -> heap_at a n k) ->
    let r := build key d l a n in
    List.length r = n /\ Permutation a r /\ heap r n.
Proof.
  induction l as [|l IH]; intros a Hlen Hl Hheap r.
  - subst r. cbn [build]. split; [exact Hlen|]. split; [reflexivity|].
    intros k Hk. apply Hheap. lia.
  - subst r. cbn [build].
    assert (Efill : set1 (S l) (get1 d a (S l)) a = a) by apply set_nth.
    pose proof (sift_spec (S l) n n a (get1 d a (S l)) (S l)) as H.
    rewrite Efill in H. cbv zeta in H.
    destruct H as (L1 & P1 & H1 & _ & _); [|lia|].
    { constructor.
      - lia.
      - intros k Hk Hne. apply Hheap. lia.
      - intros p c Hp Hi. lia. }
    specialize (IH (sift key d n a (get1 d a (S l)) (S l) (S l + S l) n)).
    destruct IH as (L2 & P2 & H2); [congruence|lia| |].
    { intros k Hk. apply H1. lia. }
    split; [exact L2|]. split; [|exact H2].
    etransitivity; [exact P1|exact P2].
Qed.

Lemma heap_root (a : list A) (n : nat) :
  heap a n ->
  forall k, (1 <= k <= n) -> less key (get1 d a 1) (get1 d a k) = false.
Proof.
  intros Hheap k. induction k as [k IH] using lt_wf_ind. intros Hk.
  destruct (Nat.eq_dec k 1) as [->|Hne]; [apply less_irrefl|].
  assert (Hp : (1 <= k / 2 <= n) /\ (k / 2 < k) /\
               (k = 2 * (k / 2) \/ k = 2 * (k / 2) + 1)).
  { pose proof (Nat.div_mod_eq k 2) as E.
    pose proof (Nat.mod_upper_bound k 2 ltac:(lia)) as M. lia. }
  destruct Hp as (Hp1 & Hp2 & Hp3).
  apply (not_less_trans _ (get1 d a (k / 2))).
  - apply (Hheap (k / 2) Hp1 k Hp3). lia.
  - apply IH; assumption.
Qed.

Record extract_inv (N n : nat) (a : list A) : Prop := {
  ext_length : List.length a = N;
  ext_bound : (n <= N);
  ext_heap : heap a n;
  ext_sorted :
    forall m, (n < m < N) -> less key (get1 d a (m + 1)) (get1 d a m) = false;
  ext_above :
    forall k m, (1 <= k <= n) -> (n < m <= N) ->
                less key (get1 d a m) (get1 d a k) = false
}.

Lemma extract_spec (N : nat) :
  forall n a,
    extract_inv N n a ->
    let r := extract key d n a in
    List.length r = N /\ Permutation a r /\
    forall m, (1 <= m < N) -> less key (get1 d r (m + 1)) (get1 d r m) = false.
Proof.
  induction n as [n IH] using lt_wf_ind. intros a Hinv r.
  destruct Hinv as [Hlen Hn Hheap Hsorted Habove].
  destruct n as [|[|n0]].
  - subst r. cbn [extract]. split; [exact Hlen|]. split; [reflexivity|].
    intros m Hm. apply Hsorted. lia.
  - subst r. cbn [extract]. split; [exact Hlen|]. split; [reflexivity|].
    intros m Hm. destruct (Nat.eq_dec m 1) as [->|Hne].
    + apply Habove; lia.
    + apply Hsorted. lia.
  - subst r. cbn [extract].
    set (n := S (S n0)) in *. set (n' := S n0) in *.
    set (tmp := get1 d a n). set (a1 := set1 n (get1 d a 1) a).
    set (t := set1 1 tmp a1).
    assert (La1 : List.length a1 = N)
      by (unfold a1; rewrite length_set1; exact Hlen).
    assert (Ht : forall k, (1 <= k) ->
               get1 d t k = if (k =? 1) then get1 d a n
                          else if (k =? n) then get1 d a 1 else get1 d a k).
    { intros k Hk. unfold t, a1, tmp.
      rewrite get1_set1 by (rewrite ?length_set1; lia).
      destruct (k =? 1); [reflexivity|].
      rewrite get1_set1 by lia. reflexivity. }
    pose proof (sift_spec 1 n' n' a1 tmp 1) as H. cbv zeta in H.
    fold t in H.
    destruct H as (L1 & P1 & H1 & F1 & I1); [|lia|].
    { constructor.
      - unfold t. rewrite length_set1. lia.
      - intros k Hk Hne c Hc Hcn.
        rewrite (Ht k) by lia. rewrite (Ht c) by lia.
        destruct (Nat.eqb_spec k 1); [lia|].
        destruct (Nat.eqb_spec k n); [lia|].
        destruct (Nat.eqb_spec c 1); [lia|].
        destruct (Nat.eqb_spec c n); [lia|].
        apply Hheap; lia.
      - intros p c Hp Hi. lia. }
    change (1 + 1) with 2 in *.
    set (r1 := sift key d n' a1 tmp 1 2 n') in *.
    assert (Hin : forall k, (1 <= k <= n') ->
                exists k', (1 <= k' <= n) /\ get1 d r1 k = get1 d a k').
    { intros k Hk. destruct (I1 k Hk) as (k' & Hk' & E).
      rewrite E, Ht by lia.
      destruct (Nat.eqb_spec k' 1); [exists n; split; [lia|reflexivity]|].
      destruct (Nat.eqb_spec k' n); [lia|].
      exists k'. split; [lia|reflexivity]. }
    assert (Hout : forall m, (n' < m) ->
                get1 d r1 m = if (m =? n) then get1 d a 1 else get1 d a m).
    { intros m Hm. rewrite F1, Ht by lia.
      destruct (Nat.eqb_spec m 1); [lia|]. reflexivity. }
    specialize (IH n' ltac:(lia) r1).
    destruct IH as (L2 & P2 & S2).
    { constructor.
      - congruence.
      - lia.
      - exact H1.
      - intros m Hm. rewrite !Hout by lia.
        destruct (Nat.eqb_spec (m + 1) n); [lia|].
        destruct (Nat.eqb_spec m n) as [->|Hne].
        + apply Habove; lia.
        + apply Hsorted. lia.
      - intros k m Hk Hm. destruct (Hin k Hk) as (k' & Hk' & ->).
        rewrite Hout by lia.
        destruct (Nat.eqb_spec m n) as [->|Hne].
        + apply heap_root with (n := n); assumption.
        + apply Habove; lia. }
    split; [exact L2|]. split; [|exact S2].
    etransitivity; [|exact P2]. etransitivity; [|exact P1].
    unfold t, a1, tmp.
    rewrite <- (set_nth d (n - 1) a) at 1.
    apply (set1_swap n 1 (get1 d a n) a); lia.
Qed.

(** Neighbours in order make the list ascending. *)
Lemma sorted_nth (l : list A) :
  (forall i, (S i < List.length l) ->
             less key (nth (S i) l d) (nth i l d) = false) ->
  Sorted (key_le key) l.
Proof.
  induction l as [|x l IH]; intros H; [constructor|].
  constructor.
  - apply IH. intros i Hi. apply (H (S i)). cbn. lia.
  - destruct l as [|y l]; constructor.
    apply less_key_le. apply (H 0). cbn. lia.
Qed.

Lemma heapsort_perm (a : list A) : Permutation a (heapsort key d a).
Proof.
  unfold heapsort. set (n := List.length a).
  pose proof (build_spec n (n / 2) a eq_refl) as H. cbv zeta in H.
  destruct H as (L1 & P1 & H1).
  { pose proof (Nat.div_mod_eq n 2) as E. lia. }
  { intros k Hk c Hc Hcn.
    pose proof (Nat.div_mod_eq n 2) as E.
    pose proof (Nat.mod_upper_bound n 2 ltac:(lia)) as M. lia. }
  pose proof (extract_spec n n (build key d (n / 2) a n)) as H.
  cbv zeta in H. destruct H as (_ & P2 & _).
  { constructor; try assumption; intros; lia. }
  etransitivity; [exact P1|exact P2].
Qed.

Lemma heapsort_sorted (a : list A) : Sorted (key_le key) (heapsort key d a).
Proof.
  unfold heapsort. set (n := List.length a).
  pose proof (build_spec n (n / 2) a eq_refl) as H. cbv zeta in H.
  destruct H as (L1 & P1 & H1).
  { pose proof (Nat.div_mod_eq n 2) as E. lia. }
  { intros k Hk c Hc Hcn.
    pose proof (Nat.div_mod_eq n 2) as E.
    pose proof (Nat.mod_upper_bound n 2 ltac:(lia)) as M. lia. }
  pose proof (extract_spec n n (build key d (n / 2) a n)) as H.
  cbv zeta in H. destruct H as (L2 & _ & S2).
  { constructor; try assumption; intros; lia. }
  apply sorted_nth. intros i Hi.
  specialize (S2 (S i)). unfold get1 in S2.
  replace (S i + 1 - 1) with (S i) in S2 by lia.
  replace (S i - 1) with i in S2 by lia.
  apply S2. lia.
Qed.

Lemma nth_split_at (i : nat) (a : list A) :
  (i < List.length a) ->
  a = firstn i a ++ nth i a d :: skipn (S i) a.
Proof.
  revert i. induction a as [|x a IH]; intros [|i] H; cbn in *; try lia;
    [reflexivity|].
  f_equal. apply IH. lia.
Qed.

Lemma introsort_spec :
  forall fuel popped cdepth a,
    (List.length a < fuel) ->
    Permutation a (introsort key d small_quicksort fuel popped cdepth a) /\
    Sorted (key_le key) (introsort key d small_quicksort fuel popped cdepth a).
Proof.
  induction fuel as [|fuel IH]; intros popped cdepth a Hfuel; [lia|].
  cbn [introsort].
  destruct (popped && (cdepth <? 0)%Z).
  { split; [apply heapsort_perm|apply heapsort_sorted]. }
  destruct (Nat.leb_spec (List.length a - 1) small_quicksort) as [_|Hbig].
  { split; [apply insertion_sort_perm|apply insertion_sort_sorted]. }
  pose proof (partition_spec a ltac:(lia)) as H.
  destruct (partition key d a) as [b pi].
  destruct H as (Hperm & Hlen & Hpi & Hlow & Hhigh).
  rewrite <- Hlen in Hpi.
  pose proof (nth_split_at pi b Hpi) as Hsplit.
  set (left := firstn pi b) in *. set (right := skipn (S pi) b) in *.
  assert (Hll : (List.length left < fuel)).
  { unfold left. rewrite length_firstn. lia. }
  assert (Hlr : (List.length right < fuel)).
  { unfold right. rewrite length_skipn. lia. }
  destruct (IH (negb (pi <? List.length b - 1 - pi)) (cdepth - 1)%Z left
              Hll) as [Pl Sl].
  destruct (IH (pi <? List.length b - 1 - pi) (cdepth - 1)%Z right Hlr)
    as [Pr Sr].
  split.
  - etransitivity; [exact Hperm|]. rewrite Hsplit at 1.
    apply Permutation_app; [exact Pl|]. constructor. exact Pr.
  - apply sorted_app; [exact Sl|exact Sr| |].
    + eapply Permutation_Forall; [exact Pl|].
      apply Forall_nth. intros k d' Hk. unfold left in *.
      rewrite length_firstn in Hk.
      rewrite (nth_indep _ d' d) by (rewrite length_firstn; lia).
      rewrite nth_firstn.
      destruct (Nat.ltb_spec k pi); [|lia].
      apply less_key_le. apply Hlow. lia.
    + eapply Permutation_Forall; [exact Pr|].
      apply Forall_nth. intros k d' Hk. unfold right in *.
      rewrite length_skipn in Hk.
      rewrite (nth_indep _ d' d) by (rewrite length_skipn; lia).
      rewrite nth_skipn.
      apply less_key_le. apply Hhigh. lia.
Qed.

End Segment.

Lemma quicksort_perm (a : list A) : Permutation a (quicksort key small_quicksort a).
Proof.
  destruct a as [|x a]; [reflexivity|].
  apply introsort_spec. lia.
Qed.

Lemma quicksort_sorted (a : list A) : Sorted (key_le key) (quicksort key small_quicksort a).
Proof.
  destruct a as [|x a]; [constructor|].
  apply introsort_spec. lia.
Qed.

(** Up to SMALL_QUICKSORT + 1 elements nothing is partitioned. *)
Lemma quicksort_small (a : list A) :
  (List.length a <= small_quicksort + 1) ->
  quicksort key small_quicksort a = insertion_sort key a.
Proof.
  intros H. destruct a as [|x a]; [reflexivity|].
  unfold quicksort. cbn [introsort].
  destruct (Z.ltb_spec (2 * Z.of_nat (Nat.log2 (List.length (x :: a)))) 0);
    [lia|].
  cbn [andb]. destruct (Nat.leb_spec (List.length (x :: a) - 1)
                          small_quicksort); [reflexivity|lia].
Qed.

End NpysortProofs.

(** numpy's quicksort as a sorter, for a value of SMALL_QUICKSORT. *)
Definition quicksort_sorter (small_quicksort : nat)
  (small_quicksort_ok : (1 <= small_quicksort)%nat) : sorter :=
  {| sort_on := fun A key => quicksort key small_quicksort;
     sort_on_perm :=
       fun A key => quicksort_perm key small_quicksort small_quicksort_ok;
     sort_on_sorted :=
       fun A key => quicksort_sorted key small_quicksort small_quicksort_ok |}.

Lemma small_quicksort_15 : (1 <= 15)%nat.
Proof. lia. Qed.

Lemma small_quicksort_16 : (1 <= 16)%nat.
Proof. lia. Qed.

(* ================================================================= *)
(** ** GROUP BY with SUM: one row per key, holding the key's SUM *)

(** The total an aggregate frame holds for a key, if it has the key. *)
Fixpoint lookup (k : Z) (groups : list (Z * float)) : option float :=
  match groups with
  | [] => None
  | (k', s) :: rest => if k =? k' then Some s else lookup k rest
  end.

(** Keys strictly ascending. *)
Definition keys_ascending (groups : list (Z * float)) : Prop :=
  StronglySorted Z.lt (map fst groups).

Lemma lookup_below (k : Z) (groups : list (Z * float)) :
  Forall (Z.lt k) (map fst groups) -> lookup k groups = None.
Proof.
  induction groups as [|[k' s] rest IH]; cbn; intros H; [reflexivity|].
  inversion H; subst.
  destruct (Z.eqb_spec k k'); [lia|]. auto.
Qed.

Lemma group_step_keys (k : Z) (v : float) (groups : list (Z * float)) :
  forall x, In x (map fst (Sqlite.group_step k v groups)) ->
            x = k \/ In x (map fst groups).
Proof.
  induction groups as [|[k' s] rest IH]; cbn; intros x Hx.
  - intuition congruence.
  - destruct (Z.eqb_spec k k'); [cbn in Hx; tauto|].
    destruct (Z.ltb_spec k k'); cbn in Hx; [intuition congruence|].
    destruct Hx as [Hx|Hx]; [tauto|]. apply IH in Hx. tauto.
Qed.

Lemma group_step_ascending (k : Z) (v : float) (groups : list (Z * float)) :
  keys_ascending groups -> keys_ascending (Sqlite.group_step k v groups).
Proof.
  unfold keys_ascending.
  induction groups as [|[k' s] rest IH]; cbn; intros H.
  - repeat constructor.
  - inversion H as [|? ? Hrest Hall]; subst.
    destruct (Z.eqb_spec k k'); [exact H|].
    destruct (Z.ltb_spec k k'); cbn.
    + constructor; [exact H|]. constructor; [assumption|].
      eapply Forall_impl; [|exact Hall]. cbn. intros; lia.
    + constructor; [auto|]. apply Forall_forall. intros x Hx.
      apply group_step_keys in Hx. destruct Hx as [->|Hx]; [lia|].
      rewrite Forall_forall in Hall. auto.
Qed.

Lemma lookup_group_step (k k' : Z) (v : float) (groups : list (Z * float)) :
  keys_ascending groups ->
  lookup k (Sqlite.group_step k' v groups) =
  if k =? k' then
    Some (PrimFloat.add
            (match lookup k groups with
             | Some s => s
             | None => PrimFloat.zero
             end) v)
  else lookup k groups.
Proof.
  unfold keys_ascending.
  induction groups as [|[k0 s] rest IH]; cbn; intros H.
  - destruct (k =? k'); reflexivity.
  - inversion H as [|? ? Hrest Hall]; subst.
    destruct (Z.eqb_spec k' k0) as [->|Hne].
    + cbn. destruct (Z.eqb_spec k k0); reflexivity.
    + destruct (Z.ltb_spec k' k0); cbn.
      * destruct (Z.eqb_spec k k') as [->|]; [|reflexivity].
        destruct (Z.eqb_spec k' k0); [lia|].
        rewrite lookup_below; [reflexivity|].
        eapply Forall_impl; [|exact Hall]. cbn. intros; lia.
      * rewrite IH by assumption.
        destruct (Z.eqb_spec k k0) as [->|]; [|reflexivity].
        destruct (Z.eqb_spec k0 k'); [lia|reflexivity].
Qed.

(** The total an aggregate frame holds for values summed: no row when
    there is none. *)
Definition aggregate (values : list float) : option float :=
  match values with
  | [] => None
  | _ => Some (Sqlite.sum values)
  end.

Section GroupSum.

Context {A : Type} (key : A -> Z) (value : A -> float).

(** The values of the rows of one key, in scan order. *)
Definition group_values (k : Z) (rows : list A) : list float :=
  map value (filter (fun r => key r =? k) rows).

Lemma group_fold_ascending (rows : list A) (groups : list (Z * float)) :
  keys_ascending groups ->
  keys_ascending
    (fold_left (fun g r => Sqlite.group_step (key r) (value r) g) rows groups).
Proof.
  revert groups. induction rows as [|r rows IH]; cbn; intros groups H; auto.
  apply IH, group_step_ascending, H.
Qed.

Lemma group_fold_lookup (k : Z) (rows : list A) (groups : list (Z * float)) :
  keys_ascending groups ->
  lookup k
    (fold_left (fun g r => Sqlite.group_step (key r) (value r) g) rows groups)
  = match lookup k groups, group_values k rows with
    | Some s, vs => Some (fold_left PrimFloat.add vs s)
    | None, [] => None
    | None, vs => Some (Sqlite.sum vs)
    end.
Proof.
  revert groups. unfold group_values, Sqlite.sum.
  induction rows as [|r rows IH]; cbn; intros groups H.
  - destruct (lookup k groups); reflexivity.
  - rewrite IH by (apply group_step_ascending, H).
    rewrite lookup_group_step by exact H.
    rewrite (Z.eqb_sym k (key r)).
    destruct (key r =? k); cbn.
    + destruct (lookup k groups); reflexivity.
    + reflexivity.
Qed.

Lemma group_sum_ascending (rows : list A) :
  keys_ascending (Sqlite.group_sum key value rows).
Proof. apply group_fold_ascending. constructor. Qed.

(** The frame has a row for a key exactly when some row has the key,
    and the row holds the SUM of the key's values. *)
Lemma group_sum_lookup (k : Z) (rows : list A) :
  lookup k (Sqlite.group_sum key value rows) =
  aggregate (group_values k rows).
Proof.
  unfold Sqlite.group_sum. rewrite group_fold_lookup by constructor.
  cbn [lookup]. destruct (group_values k rows); reflexivity.
Qed.

End GroupSum.

(* ================================================================= *)
(** ** Integers as float64 keys *)

(** The integers float64 tells apart from every other integer: those
    below 2^53 in absolute value. *)
Definition safe_integer (k : Z) : Prop := Z.abs k < 2 ^ 53.

Lemma float64_of_safe_integer (k : Z) :
  safe_integer k -> float64_of_int k = k.
Proof.
  unfold safe_integer, float64_of_int. intros H.
  destruct (Z.leb_spec (Z.log2 (Z.abs k) - 52) 0) as [_|Hbig]; [reflexivity|].
  exfalso. assert (Hpos : 0 < Z.abs k).
  { destruct (Z.eq_dec (Z.abs k) 0) as [E|N]; [|lia].
    rewrite E in Hbig. cbn in Hbig. lia. }
  apply Z.log2_lt_pow2 in H; lia.
Qed.

Lemma float64_of_large_integer (k : Z) :
  2 ^ 53 <= Z.abs k -> 2 ^ 53 <= Z.abs (float64_of_int k).
Proof.
  intros H. unfold float64_of_int.
  assert (Hpos : 0 < Z.abs k) by lia.
  assert (Hlog : 53 <= Z.log2 (Z.abs k)) by (apply Z.log2_le_pow2; lia).
  destruct (Z.leb_spec (Z.log2 (Z.abs k) - 52) 0) as [Hs|Hs]; [lia|].
  set (shift := Z.log2 (Z.abs k) - 52) in *.
  set (ulp := 2 ^ shift).
  assert (Hulp : 2 <= ulp).
  { unfold ulp. change 2 with (2 ^ 1) at 1. apply Z.pow_le_mono_r; lia. }
  assert (Hq : 2 ^ 52 <= Z.abs k / ulp).
  { apply Z.div_le_lower_bound; [lia|].
    unfold ulp. rewrite <- Z.pow_add_r by lia.
    replace (shift + 52) with (Z.log2 (Z.abs k)) by (unfold shift; lia).
    apply Z.log2_spec. lia. }
  set (q := Z.abs k / ulp) in *.
  set (q' := if 2 * (Z.abs k mod ulp) <? ulp then q
             else if ulp <? 2 * (Z.abs k mod ulp) then q + 1
                  else if Z.even q then q else q + 1).
  assert (Hq' : q <= q').
  { unfold q'. destruct (_ <? _); [lia|]. destruct (_ <? _); [lia|].
    destruct (Z.even q); lia. }
  assert (Hsg : Z.abs (Z.sgn k) = 1) by lia.
  rewrite Z.abs_mul, Hsg, (Z.abs_eq (q' * ulp)) by nia.
  change (2 ^ 53) with (2 ^ 52 * 2). nia.
Qed.

(** A safe integer is the float64 of no other integer. *)
Lemma float64_eqb_safe (x r : Z) :
  safe_integer x -> (x =? float64_of_int r) = (x =? r).
Proof.
  intros Hx. destruct (Z.lt_ge_cases (Z.abs r) (2 ^ 53)) as [Hr|Hr].
  - rewrite float64_of_safe_integer by exact Hr. reflexivity.
  - pose proof (float64_of_large_integer r Hr) as H.
    unfold safe_integer in Hx.
    destruct (Z.eqb_spec x (float64_of_int r)); destruct (Z.eqb_spec x r);
      try reflexivity; lia.
Qed.

(** The integer a binary64 value is, when it is one. *)
Definition integer_of_float (x : float) : option Z :=
  match Prim2SF x with
  | S754_zero _ => Some 0
  | S754_finite s m e =>
      if 0 <=? e then
        Some ((if s then -1 else 1) * (Z.pos m * 2 ^ e))
      else if Z.pos m mod 2 ^ (- e) =? 0 then
        Some ((if s then -1 else 1) * (Z.pos m / 2 ^ (- e)))
      else None
  | _ => None
  end.

(** [float64_of_int] against the cast of the primitive floats, at 2^53
    and around it, at ties and next to them, and at the largest int64. *)
Example float64_of_int_is_the_cast :
  let samples :=
    [0; 1; 2 ^ 53 - 1; 2 ^ 53; 2 ^ 53 + 1; 2 ^ 53 + 2; 2 ^ 53 + 3;
     2 ^ 54 + 2; 2 ^ 54 + 6; 2 ^ 54 + 7; 2 ^ 62 + 2 ^ 9; 2 ^ 62 + 2 ^ 9 + 1;
     2 ^ 62 + 3 * 2 ^ 9; 2 ^ 63 - 513; 2 ^ 63 - 512; 2 ^ 63 - 1] in
  map (fun k => Some (float64_of_int k)) samples =
  map (fun k => integer_of_float (PrimFloat.of_uint63 (Uint63.of_Z k)))
    samples /\
  float64_of_int (2 ^ 53 + 1) = 2 ^ 53 /\
  float64_of_int (2 ^ 53 + 3) = 2 ^ 53 + 4 /\
  float64_of_int (- (2 ^ 53 + 1)) = - 2 ^ 53.
Proof. repeat split; vm_compute; reflexivity. Qed.

(* ================================================================= *)
(** ** Left merges against an aggregate frame *)

(** What a left row with key [k] finds in an aggregate frame whose keys
    are compared as they are. *)
Definition frame_match (k : option Z) (frame : list (Z * float))
  : option (Z * float) :=
  match k with
  | Some k => option_map (pair k) (lookup k frame)
  | None => None
  end.

Lemma filter_key_ascending (k : Z) (frame : list (Z * float)) :
  keys_ascending frame ->
  filter (fun r => k =? fst r) frame =
  match lookup k frame with
  | Some s => [(k, s)]
  | None => []
  end.
Proof.
  unfold keys_ascending.
  induction frame as [|[k' s] rest IH]; cbn; intros H; [reflexivity|].
  inversion H as [|? ? Hrest Hall]; subst.
  destruct (Z.eqb_spec k k') as [->|Hne].
  - f_equal. rewrite IH by assumption.
    rewrite lookup_below; [reflexivity|assumption].
  - auto.
Qed.

Lemma flat_map_singleton {X Y : Type} (f : X -> list Y) (g : X -> Y)
  (l : list X) :
  (forall x, In x l -> f x = [g x]) -> flat_map f l = map g l.
Proof.
  induction l as [|x l IH]; cbn; intros H; [reflexivity|].
  rewrite H by (left; reflexivity). rewrite IH; [reflexivity|].
  intros y Hy. apply H. right. exact Hy.
Qed.

Lemma filter_none {X : Type} (l : list X) : filter (fun _ => false) l = [].
Proof. induction l; cbn; auto. Qed.

(** The key a cell stands for, when the cell lost nothing of it. *)
Definition exact_key (c : key) : option Z :=
  match c with
  | Int64 k => Some k
  | Float64 x => Some x
  | NaN => None
  end.

Definition exact (c : key) : Prop :=
  match c with
  | Float64 x => safe_integer x
  | _ => True
  end.

Lemma key_eqb_exact (c : key) (right : Z) :
  exact c ->
  key_eqb c right =
  match exact_key c with
  | Some k => k =? right
  | None => false
  end.
Proof.
  destruct c as [k|x|]; cbn; intros H; try reflexivity.
  apply float64_eqb_safe, H.
Qed.

(** With exact left keys a left merge against an aggregate frame (one
    row per key) keeps one row per left row. *)
Lemma merge_left_frame {L : Type} (left_on : L -> key)
  (left : list L) (frame : list (Z * float)) :
  Forall (fun l => exact (left_on l)) left ->
  keys_ascending frame ->
  merge_left left_on fst left frame =
  map (fun l => (l, frame_match (exact_key (left_on l)) frame)) left.
Proof.
  intros Hexact H. unfold merge_left. apply flat_map_singleton. intros l Hl.
  rewrite Forall_forall in Hexact. specialize (Hexact l Hl).
  erewrite filter_ext by (intros r; apply key_eqb_exact, Hexact).
  destruct (exact_key (left_on l)) as [k|]; cbn [frame_match].
  - rewrite filter_key_ascending by exact H.
    destruct (lookup k frame); reflexivity.
  - rewrite filter_none. reflexivity.
Qed.

(** Whatever the keys, a left merge keeps every left row, at least
    once, and makes up none. *)
Lemma merge_left_left {L R : Type} (left_on : L -> key) (right_on : R -> Z)
  (left : list L) (right : list R) (p : L * option R) :
  In p (merge_left left_on right_on left right) -> In (fst p) left.
Proof.
  unfold merge_left. intros H. apply in_flat_map in H.
  destruct H as [l [Hl H]].
  destruct (filter _ right) as [|r matches].
  - destruct H as [<-|[]]. exact Hl.
  - apply in_map_iff in H. destruct H as [r' [<- _]]. exact Hl.
Qed.

Lemma merge_left_length {L R : Type} (left_on : L -> key)
  (right_on : R -> Z) (left : list L) (right : list R) :
  (List.length left <= List.length (merge_left left_on right_on left right))%nat.
Proof.
  unfold merge_left.
  induction left as [|l left IH]; cbn [flat_map List.length]; [lia|].
  rewrite length_app.
  destruct (filter _ right) as [|r matches];
    [|rewrite length_map]; cbn [List.length]; lia.
Qed.

(** A left row without a key finds no right row. *)
Lemma merge_left_nan {L R : Type} (left_on : L -> key) (right_on : R -> Z)
  (left : list L) (right : list R) (l : L) :
  In l left -> left_on l = NaN ->
  In (l, None) (merge_left left_on right_on left right).
Proof.
  intros Hl Hnan. unfold merge_left. apply in_flat_map. exists l.
  split; [exact Hl|]. rewrite Hnan. cbn [key_eqb].
  rewrite filter_none. left. reflexivity.
Qed.

Lemma merge_left_empty {L R : Type} (left_on : L -> key) (right_on : R -> Z)
  (left : list L) :
  merge_left left_on right_on left (@nil R) = map (fun l => (l, None)) left.
Proof.
  unfold merge_left. apply flat_map_singleton. reflexivity.
Qed.

(** The first merge compares int64 with int64. *)
Lemma merge_hours (roster : list Roster.row) (hours : list (Z * float)) :
  keys_ascending hours ->
  merge_left roster_id fst roster hours =
  map (fun e => (e, frame_match (Some (Roster.id e)) hours)) roster.
Proof.
  intros H. rewrite merge_left_frame; [reflexivity| |exact H].
  apply Forall_forall. intros e _. exact I.
Qed.

(** Every merged row is the row of an employee of the roster, with what
    the hours frame holds for that employee. *)
Lemma merge_frames_in (roster : list Roster.row)
  (hours bonuses deductions : list (Z * float)) (r : merged_row) :
  keys_ascending hours ->
  In r (merge_frames roster hours bonuses deductions) ->
  In (fst (fst (fst r))) roster /\
  snd (fst (fst r)) =
    frame_match (Some (Roster.id (fst (fst (fst r))))) hours.
Proof.
  intros Hh Hr. unfold merge_frames in Hr.
  apply merge_left_left in Hr. apply merge_left_left in Hr.
  rewrite merge_hours in Hr by exact Hh.
  apply in_map_iff in Hr. destruct Hr as [e [E He]].
  rewrite <- E. split; [exact He|reflexivity].
Qed.

(** An employee without a row in the hours frame has a merged row
    without bonus and deduction. *)
Lemma merge_frames_without_hours (roster : list Roster.row)
  (hours bonuses deductions : list (Z * float)) (e : Roster.row) :
  keys_ascending hours ->
  In e roster -> lookup (Roster.id e) hours = None ->
  In (((e, None), None), None)
    (merge_frames roster hours bonuses deductions).
Proof.
  intros Hh He Hnone. unfold merge_frames.
  rewrite merge_hours by exact Hh.
  apply merge_left_nan; [|reflexivity].
  apply merge_left_nan; [|reflexivity].
  apply in_map_iff. exists e. split; [|exact He].
  cbn [frame_match]. rewrite Hnone. reflexivity.
Qed.

Lemma merge_frames_empty (roster : list Roster.row) :
  merge_frames roster [] [] [] =
  map (fun e => (((e, None), None), None)) roster.
Proof.
  unfold merge_frames. rewrite !merge_left_empty, !map_map. reflexivity.
Qed.

Lemma merge_frames_length (roster : list Roster.row)
  (hours bonuses deductions : list (Z * float)) :
  (List.length roster <=
   List.length (merge_frames roster hours bonuses deductions))%nat.
Proof.
  unfold merge_frames.
  etransitivity; [|apply merge_left_length].
  etransitivity; [|apply merge_left_length].
  apply merge_left_length.
Qed.

(** The merged row of one employee whose id float64 holds exactly. *)
Definition employee_row (hours bonuses deductions : list (Z * float))
  (e : Roster.row) : merged_row :=
  let h := frame_match (Some (Roster.id e)) hours in
  let b := frame_match (key_column h) bonuses in
  let d := frame_match (key_column h) deductions in
  (((e, h), b), d).

Lemma key_column_frame_match (k : Z) (frame : list (Z * float)) :
  key_column (frame_match (Some k) frame) = None \/
  key_column (frame_match (Some k) frame) = Some k.
Proof.
  cbn [frame_match]. destruct (lookup k frame); [right|left]; reflexivity.
Qed.

(** Over employees with safe ids the employee_id column is exact,
    int64 or float64. *)
Lemma employee_id_exact (payroll : list (Roster.row * option (Z * float)))
  (hours : list (Z * float)) (e : Roster.row) :
  safe_integer (Roster.id e) ->
  let r := (e, frame_match (Some (Roster.id e)) hours) in
  exact (employee_id_after_hours payroll r) /\
  exact_key (employee_id_after_hours payroll r) = key_column (snd r).
Proof.
  intros Hsafe r. unfold employee_id_after_hours. subst r. cbn [snd].
  destruct (key_column_frame_match (Roster.id e) hours) as [-> | ->];
    [split; [exact I|reflexivity]|].
  destruct (forallb _ payroll); cbn; [split; [exact I|reflexivity]|].
  rewrite float64_of_safe_integer by exact Hsafe.
  split; [exact Hsafe|reflexivity].
Qed.

Lemma merge_frames_rows (roster : list Roster.row)
  (hours bonuses deductions : list (Z * float)) :
  Forall (fun e => safe_integer (Roster.id e)) roster ->
  keys_ascending hours -> keys_ascending bonuses ->
  keys_ascending deductions ->
  merge_frames roster hours bonuses deductions =
  map (employee_row hours bonuses deductions) roster.
Proof.
  intros Hsafe Hh Hb Hd. unfold merge_frames.
  rewrite (merge_hours roster hours Hh).
  set (payroll := map (fun e => (e, frame_match (Some (Roster.id e)) hours))
                    roster).
  rewrite Forall_forall in Hsafe.
  rewrite (merge_left_frame _ payroll bonuses); [| |exact Hb].
  2:{ apply Forall_forall. intros r Hr. unfold payroll in Hr.
      apply in_map_iff in Hr. destruct Hr as [e [<- He]].
      apply employee_id_exact, Hsafe, He. }
  rewrite (merge_left_frame _ _ deductions); [| |exact Hd].
  2:{ apply Forall_forall. intros r Hr.
      apply in_map_iff in Hr. destruct Hr as [r' [<- Hr']].
      unfold payroll in Hr'.
      apply in_map_iff in Hr'. destruct Hr' as [e [<- He]].
      apply employee_id_exact, Hsafe, He. }
  unfold payroll. rewrite !map_map. apply map_ext_in. intros e He.
  unfold employee_id_after_bonuses. cbn [fst].
  destruct (employee_id_exact
              (map (fun e => (e, frame_match (Some (Roster.id e)) hours))
                 roster) hours e (Hsafe e He)) as [_ E].
  cbv zeta in E. rewrite E. reflexivity.
Qed.

(** The report as the program computes it from a database, before the
    final sort. *)
Definition report_rows (lo hi : string) (db : database) : list Payroll.row :=
  map payroll_row
    (merge_frames (select_roster db) (select_total_hours lo hi db)
       (select_adjustment_total "bonus" lo hi db)
       (select_adjustment_total "deduction" lo hi db)).

(** calculate_payroll always returns: the sorted report rows, and the
    database as it was. *)
Lemma calculate_payroll_returns (sort_values : sorter)
  (start_date end_date : Date.date) (db : database) :
  calculate_payroll sort_values start_date end_date db =
  (Ok
     (match employees db with
      | [] => []
      | _ =>
          sort_on sort_values Payroll.full_name
            (report_rows (Date.isoformat start_date)
               (Date.isoformat end_date) db)
      end), db).
Proof.
  unfold calculate_payroll, bind, read_sql_query, ret, report_rows.
  unfold select_roster at 1.
  destruct (employees db) as [|e es] eqn:E; cbn [map]; [reflexivity|].
  unfold select_roster. rewrite E. reflexivity.
Qed.

(** Every employee id is a safe integer: float64 holds it exactly. *)
Definition safe_ids (db : database) : Prop :=
  Forall (fun e => safe_integer (Employees.id e)) (employees db).

(** The report row of one employee with a safe id. *)
Definition employee_report_row (lo hi : string) (db : database)
  (emp : Employees.row) : Payroll.row :=
  payroll_row
    (employee_row (select_total_hours lo hi db)
       (select_adjustment_total "bonus" lo hi db)
       (select_adjustment_total "deduction" lo hi db)
       (Roster.mk (Employees.id emp) (Employees.full_name emp)
          (Employees.hourly_rate emp))).

(** With safe ids the report has one row per employee, in the order of
    the employees table. *)
Lemma report_rows_per_employee (lo hi : string) (db : database) :
  safe_ids db ->
  report_rows lo hi db = map (employee_report_row lo hi db) (employees db).
Proof.
  intros Hsafe. unfold report_rows.
  rewrite merge_frames_rows;
    try (unfold select_total_hours, select_adjustment_total;
         apply group_sum_ascending).
  - unfold select_roster. rewrite !map_map. reflexivity.
  - unfold select_roster. apply Forall_map. exact Hsafe.
Qed.

Lemma select_total_hours_ascending (lo hi : string) (db : database) :
  keys_ascending (select_total_hours lo hi db).
Proof. apply group_sum_ascending. Qed.

(* ================================================================= *)
(** ** Statements that only read *)

Definition read_only {A : Type} (c : sql A) : Prop :=
  forall db, snd (c db) = db.

Lemma read_only_ret {A : Type} (a : A) : read_only (ret a).
Proof. intros db. reflexivity. Qed.

Lemma read_only_read_sql_query {A : Type} (select : database -> list A) :
  read_only (read_sql_query select).
Proof. intros db. reflexivity. Qed.

Lemma read_only_bind {A B : Type} (c : sql A) (k : A -> sql B) :
  read_only c -> (forall a, read_only (k a)) -> read_only (bind c k).
Proof.
  intros Hc Hk db. unfold bind. specialize (Hc db).
  destruct (c db) as [[a|e] db']; cbn in *; subst; [apply Hk|reflexivity].
Qed.

Lemma calculate_payroll_read_only (sort_values : sorter)
  (start_date end_date : Date.date) :
  read_only (calculate_payroll sort_values start_date end_date).
Proof.
  unfold calculate_payroll.
  apply read_only_bind; [apply read_only_read_sql_query|].
  intros [|e roster]; [apply read_only_ret|].
  repeat (apply read_only_bind; [apply read_only_read_sql_query|intros ?]).
  apply read_only_ret.
Qed.

(* ================================================================= *)
(** ** What the two entry writes do *)

(** On the connection the program opens, the check never fails. *)
Lemma foreign_key_not_enforced (db : database) (employee_id : Z) :
  foreign_key_ok get_connection db employee_id = true.
Proof. reflexivity. Qed.

Lemma add_work_hours_outcome (employee_id : Z) (work_date : Date.date)
  (hours : float) (notes : string) (db : database) :
  add_work_hours employee_id work_date hours notes db =
  if Sqlite.int64 employee_id then
    match Sqlite.real_not_null hours with
    | Some stored =>
        (Ok tt,
         mk_database (employees db)
           (work_hours db ++
              [WorkHours.mk
                 (Sqlite.next_rowid (map WorkHours.id (work_hours db)))
                 employee_id (Date.isoformat work_date) stored notes])
           (adjustments db))
    | None =>
        (Raise
           (IntegrityError "NOT NULL constraint failed: work_hours.hours"),
         db)
    end
  else
    (Raise
       (OverflowError "Python int too large to convert to SQLite INTEGER"),
     db).
Proof.
  unfold add_work_hours, execute, insert_work_hours.
  rewrite foreign_key_not_enforced.
  destruct (Sqlite.int64 employee_id); [|reflexivity].
  destruct (Sqlite.real_not_null hours); reflexivity.
Qed.

Lemma add_adjustment_outcome (employee_id : Z) (adjustment_date : Date.date)
  (adjustment_type : string) (amount : float) (description : string)
  (db : database) :
  add_adjustment employee_id adjustment_date adjustment_type amount
    description db =
  if Sqlite.int64 employee_id then
    match Sqlite.real_not_null amount with
    | Some stored =>
        (Ok tt,
         mk_database (employees db) (work_hours db)
           (adjustments db ++
              [Adjustments.mk
                 (Sqlite.next_rowid (map Adjustments.id (adjustments db)))
                 employee_id (Date.isoformat adjustment_date)
                 adjustment_type stored description]))
    | None =>
        (Raise
           (IntegrityError "NOT NULL constraint failed: adjustments.amount"),
         db)
    end
  else
    (Raise
       (OverflowError "Python int too large to convert to SQLite INTEGER"),
     db).
Proof.
  unfold add_adjustment, execute, insert_adjustment.
  rewrite foreign_key_not_enforced.
  destruct (Sqlite.int64 employee_id); [|reflexivity].
  destruct (Sqlite.real_not_null amount); reflexivity.
Qed.

(* ================================================================= *)
(** * Statements about the program *)

(** ** C1: the pay formula *)

(** The two formula columns of a report row, in the program's float64
    arithmetic. *)
Definition formula_holds (r : Payroll.row) : Prop :=
  Payroll.gross_pay r =
    PrimFloat.mul (Payroll.total_hours r) (Payroll.hourly_rate r) /\
  Payroll.net_pay r =
    PrimFloat.sub
      (PrimFloat.add (Payroll.gross_pay r) (Payroll.bonus_total r))
      (Payroll.deduction_total r).

Lemma payroll_row_formula (r : merged_row) : formula_holds (payroll_row r).
Proof. destruct r as [[[e h] b] d]. split; reflexivity. Qed.

(** C1. For every database and every date range, calculate_payroll
    returns a report, and in every row of it gross_pay is total_hours *
    hourly_rate and net_pay is gross_pay + bonus_total - deduction_total,
    the very float64 values those operations give. *)
Theorem c1_pay_formula (sort_values : sorter)
  (start_date end_date : Date.date) (db : database) :
  match fst (calculate_payroll sort_values start_date end_date db) with
  | Ok rows => Forall formula_holds rows
  | Raise _ => False
  end.
Proof.
  rewrite calculate_payroll_returns. cbn [fst].
  destruct (employees db) as [|emp emps]; [constructor|].
  eapply Permutation_Forall; [apply sort_on_perm|].
  unfold report_rows. apply Forall_forall. intros r Hr.
  apply in_map_iff in Hr. destruct Hr as [m [<- _]].
  apply payroll_row_formula.
Qed.

(** ** C8: calculate_payroll only reads *)

(** C8. For every database and date range, the employees, work_hours
    and adjustments tables after calculate_payroll are the ones before
    it. *)
Theorem c8_calculate_payroll_keeps_store (sort_values : sorter)
  (start_date end_date : Date.date) (db : database) :
  let db' := snd (calculate_payroll sort_values start_date end_date db) in
  employees db' = employees db /\
  work_hours db' = work_hours db /\
  adjustments db' = adjustments db.
Proof.
  cbv zeta. rewrite calculate_payroll_read_only. repeat split.
Qed.

(** ** C3: a reversed range *)

Lemma filter_all_false {X : Type} (f : X -> bool) (l : list X) :
  (forall x, f x = false) -> filter f l = [].
Proof.
  intros H. induction l as [|x l IH]; cbn; [reflexivity|].
  rewrite H. exact IH.
Qed.

Lemma select_total_hours_reversed (lo hi : string) (db : database) :
  Sqlite.text_le lo hi = false -> select_total_hours lo hi db = [].
Proof.
  intros H. unfold select_total_hours.
  rewrite filter_all_false; [reflexivity|].
  intros w. apply between_reversed, H.
Qed.

Lemma select_adjustment_total_reversed (kind lo hi : string)
  (db : database) :
  Sqlite.text_le lo hi = false -> select_adjustment_total kind lo hi db = [].
Proof.
  intros H. unfold select_adjustment_total.
  rewrite filter_all_false; [reflexivity|].
  intros a. rewrite between_reversed by exact H. reflexivity.
Qed.

(** A report row without activity. *)
Definition no_activity (r : Payroll.row) : Prop :=
  Payroll.total_hours r = PrimFloat.zero /\
  Payroll.bonus_total r = PrimFloat.zero /\
  Payroll.deduction_total r = PrimFloat.zero.

Definition one_employee : database :=
  mk_database [Employees.mk 1 "Ana" "Cajera" 10 "2020-01-01"] [] [].

(** With January 3rd as start and January 1st as end, calculate_payroll
    raises nothing and returns a row. *)
Lemma c3_calculate_payroll_takes_reversed_range :
  Date.gtb (Date.mk 2024 1 3) (Date.mk 2024 1 1) = true /\
  fst (calculate_payroll stable_sorter (Date.mk 2024 1 3) (Date.mk 2024 1 1)
         one_employee)
  = Ok [Payroll.mk "Ana" 10 0 0 0 0 0].
Proof. split; reflexivity. Qed.

(** C3, amended. For every start_date > end_date, the payroll section
    draws its error message and nothing else: no report, and the
    database is the one before. calculate_payroll has no check of its
    own: on the reversed range it returns, without error, one row per
    employee, each with total_hours, bonus_total and deduction_total
    zero. *)
Theorem c3_reversed_range (sort_values order_by : sorter)
  (start_date end_date : Date.date) (db : database) :
  Date.valid start_date = true -> Date.valid end_date = true ->
  Date.gtb start_date end_date = true ->
  render_payroll_section sort_values order_by start_date end_date db =
    (Ok [St_subheader "Resumen de quincena";
         St_error "La fecha de inicio no puede ser mayor que la fecha fin."],
     db) /\
  match fst (calculate_payroll sort_values start_date end_date db) with
  | Ok rows =>
      List.length rows = List.length (employees db) /\
      Forall no_activity rows
  | Raise _ => False
  end.
Proof.
  intros Hs He Hgt. split.
  { unfold render_payroll_section. rewrite Hgt. reflexivity. }
  rewrite calculate_payroll_returns. cbn [fst].
  destruct (employees db) as [|emp emps] eqn:E; [split; constructor|].
  assert (Hrev : Sqlite.text_le (Date.isoformat start_date)
                   (Date.isoformat end_date) = false).
  { rewrite isoformat_leb by assumption.
    rewrite gtb_spec in Hgt. destruct (Date.leb start_date end_date);
      [discriminate|reflexivity]. }
  assert (Hrows :
            report_rows (Date.isoformat start_date) (Date.isoformat end_date)
              db =
            map (fun e => payroll_row (((e, None), None), None))
              (select_roster db)).
  { unfold report_rows.
    rewrite select_total_hours_reversed by exact Hrev.
    rewrite !select_adjustment_total_reversed by exact Hrev.
    rewrite merge_frames_empty, map_map. reflexivity. }
  split.
  - rewrite <- (Permutation_length (sort_on_perm sort_values _ _ _)).
    rewrite Hrows. unfold select_roster. rewrite !length_map, E.
    reflexivity.
  - eapply Permutation_Forall; [apply sort_on_perm|].
    rewrite Hrows. apply Forall_forall. intros r Hr.
    apply in_map_iff in Hr. destruct Hr as [e [<- _]].
    repeat split.
Qed.

Lemma c3_reversed_range_witness :
  render_payroll_section stable_sorter stable_sorter (Date.mk 2024 1 3)
    (Date.mk 2024 1 1) one_employee =
    (Ok [St_subheader "Resumen de quincena";
         St_error "La fecha de inicio no puede ser mayor que la fecha fin."],
     one_employee) /\
  match
    fst (calculate_payroll stable_sorter (Date.mk 2024 1 3)
           (Date.mk 2024 1 1) one_employee)
  with
  | Ok rows =>
      List.length rows = List.length (employees one_employee) /\
      Forall no_activity rows
  | Raise _ => False
  end.
Proof.
  apply (c3_reversed_range stable_sorter stable_sorter (Date.mk 2024 1 3)
           (Date.mk 2024 1 1) one_employee); reflexivity.
Defined.

(** ** C2: one row per employee, idle employees included *)

(** No work-hour entry and no adjustment entry of the employee has its
    date in the range. *)
Definition idle (lo hi : string) (db : database) (employee_id : Z) : bool :=
  forallb
    (fun w =>
       negb ((WorkHours.employee_id w =? employee_id) &&
             Sqlite.between (WorkHours.work_date w) lo hi))
    (work_hours db) &&
  forallb
    (fun a =>
       negb ((Adjustments.employee_id a =? employee_id) &&
             Sqlite.between (Adjustments.adjustment_date a) lo hi))
    (adjustments db).

Lemma filter_filter_none {X : Type} (p q : X -> bool) (l : list X) :
  forallb (fun x => negb (q x && p x)) l = true ->
  filter q (filter p l) = [].
Proof.
  induction l as [|x l IH]; cbn; [reflexivity|].
  rewrite andb_true_iff. intros [Hx Hl].
  destruct (p x) eqn:Hp; cbn; [|auto].
  destruct (q x); [discriminate|auto].
Qed.


Lemma idle_adjustment_total (kind lo hi : string) (db : database) (k : Z) :
  idle lo hi db k = true ->
  lookup k (select_adjustment_total kind lo hi db) = None.
Proof.
  unfold idle. rewrite andb_true_iff. intros [_ H].
  unfold select_adjustment_total. rewrite group_sum_lookup.
  unfold group_values. rewrite filter_filter_none; [reflexivity|].
  rewrite forallb_forall in *. intros a Ha. specialize (H a Ha).
  destruct (Adjustments.employee_id a =? k); [|reflexivity].
  cbn in *. destruct (Sqlite.between _ _ _); [discriminate|reflexivity].
Qed.

(** 0.0 * rate + 0.0 - 0.0 is 0.0 for every finite rate (the product
    is 0.0 or -0.0). *)
Lemma zero_times_finite (r : float) :
  PrimFloat.is_finite r = true ->
  PrimFloat.mul PrimFloat.zero r = PrimFloat.zero \/
  PrimFloat.mul PrimFloat.zero r = PrimFloat.neg_zero.
Proof.
  unfold PrimFloat.is_finite, PrimFloat.is_nan, PrimFloat.is_infinity.
  rewrite !FloatAxioms.eqb_spec, FloatAxioms.abs_spec. intros H.
  assert (Hs : exists s,
             Prim2SF (PrimFloat.mul PrimFloat.zero r) = S754_zero s).
  { rewrite FloatAxioms.mul_spec.
    destruct (Prim2SF r) as [s|s| |s m e]; cbn in *;
      try (eexists; reflexivity); try discriminate.
    destruct s; discriminate. }
  destruct Hs as [[|] Hs]; [right|left];
    apply FloatAxioms.Prim2SF_inj; rewrite Hs; reflexivity.
Qed.

Lemma idle_net_pay (r : float) :
  PrimFloat.is_finite r = true ->
  PrimFloat.sub
    (PrimFloat.add (PrimFloat.mul PrimFloat.zero r) PrimFloat.zero)
    PrimFloat.zero = PrimFloat.zero.
Proof.
  intros H. destruct (zero_times_finite r H) as [-> | ->]; reflexivity.
Qed.





(** The example of the specification: Ana at rate 10 logs 8 hours on
    January 1st and 2 hours on January 2nd, has a bonus of 50 on the 1st
    and a deduction of 5 on the 2nd; Berta has no entry. *)
Definition january : database :=
  mk_database
    [Employees.mk 1 "Ana" "Cajera" 10 "2020-01-01";
     Employees.mk 2 "Berta" "Gerente" 20 "2021-06-15"]
    [WorkHours.mk 1 1 "2024-01-01" 8 "";
     WorkHours.mk 2 1 "2024-01-02" 2 ""]
    [Adjustments.mk 1 1 "2024-01-01" "bonus" 50 "";
     Adjustments.mk 2 1 "2024-01-02" "deduction" 5 ""].

Lemma january_safe_ids : safe_ids january.
Proof. repeat constructor; unfold safe_integer; cbn; lia. Qed.

Example january_report :
  fst (calculate_payroll stable_sorter (Date.mk 2024 1 1) (Date.mk 2024 1 31)
         january)
  = Ok [Payroll.mk "Ana" 10 10 100 50 5 145;
        Payroll.mk "Berta" 20 0 0 0 0 0].
Proof. reflexivity. Qed.

Example empty_roster_report :
  fst (calculate_payroll stable_sorter (Date.mk 2024 1 1) (Date.mk 2024 1 31)
         empty_database)
  = Ok [].
Proof. reflexivity. Qed.


(** ** C10: entries dated outside the range do not reach the report *)

Lemma filter_andb {X : Type} (p q : X -> bool) (l : list X) :
  filter (fun x => p x && q x) l = filter q (filter p l).
Proof.
  induction l as [|x l IH]; cbn; [reflexivity|].
  destruct (p x); cbn; [destruct (q x)|]; rewrite IH; reflexivity.
Qed.

(** The entries of a table whose date is in the range. *)
Definition work_hours_in (lo hi : string) (db : database)
  : list WorkHours.row :=
  filter (fun w => Sqlite.between (WorkHours.work_date w) lo hi)
    (work_hours db).

Definition adjustments_in (lo hi : string) (db : database)
  : list Adjustments.row :=
  filter (fun a => Sqlite.between (Adjustments.adjustment_date a) lo hi)
    (adjustments db).

Lemma select_adjustment_total_in (kind lo hi : string) (db : database) :
  select_adjustment_total kind lo hi db =
  Sqlite.group_sum Adjustments.employee_id Adjustments.amount
    (filter (fun a => String.eqb (Adjustments.adjustment_type a) kind)
       (adjustments_in lo hi db)).
Proof.
  unfold select_adjustment_total, adjustments_in.
  rewrite filter_andb. reflexivity.
Qed.

(** C10. Two databases with the same employees and the same in-range
    work-hour and adjustment entries, whatever they hold outside the
    range, get the same report from calculate_payroll. *)
Theorem c10_out_of_range_entries_ignored (sort_values : sorter)
  (start_date end_date : Date.date) (db1 db2 : database) :
  employees db1 = employees db2 ->
  work_hours_in (Date.isoformat start_date) (Date.isoformat end_date) db1 =
  work_hours_in (Date.isoformat start_date) (Date.isoformat end_date) db2 ->
  adjustments_in (Date.isoformat start_date) (Date.isoformat end_date) db1 =
  adjustments_in (Date.isoformat start_date) (Date.isoformat end_date) db2 ->
  fst (calculate_payroll sort_values start_date end_date db1) =
  fst (calculate_payroll sort_values start_date end_date db2).
Proof.
  intros He Hw Ha. rewrite !calculate_payroll_returns. cbn [fst].
  unfold report_rows, select_roster. rewrite !select_adjustment_total_in.
  unfold select_total_hours. fold (work_hours_in (Date.isoformat start_date)
    (Date.isoformat end_date) db1).
  fold (work_hours_in (Date.isoformat start_date) (Date.isoformat end_date)
          db2).
  rewrite He, Hw, Ha. reflexivity.
Qed.

(** [january] with a work-hour entry and a bonus dated in February. *)
Definition january_and_february : database :=
  mk_database (employees january)
    (work_hours january ++ [WorkHours.mk 3 2 "2024-02-10" 6 ""])
    (Adjustments.mk 3 1 "2024-02-01" "bonus" 75 "" :: adjustments january).

Lemma c10_out_of_range_entries_ignored_witness :
  fst (calculate_payroll stable_sorter (Date.mk 2024 1 1) (Date.mk 2024 1 31)
         january) =
  fst (calculate_payroll stable_sorter (Date.mk 2024 1 1) (Date.mk 2024 1 31)
         january_and_february).
Proof.
  apply (c10_out_of_range_entries_ignored stable_sorter (Date.mk 2024 1 1)
           (Date.mk 2024 1 31) january january_and_february);
    reflexivity.
Defined.

(** ** C7: both endpoints of the range are inside it *)

Lemma between_endpoints (start_date end_date : Date.date) :
  Date.valid start_date = true -> Date.valid end_date = true ->
  Date.leb start_date end_date = true ->
  Sqlite.between (Date.isoformat start_date) (Date.isoformat start_date)
    (Date.isoformat end_date) = true /\
  Sqlite.between (Date.isoformat end_date) (Date.isoformat start_date)
    (Date.isoformat end_date) = true.
Proof.
  intros Hs He Hle. unfold Sqlite.between.
  rewrite !text_le_refl, isoformat_leb, Hle by assumption. split; reflexivity.
Qed.

Lemma lookup_in (k : Z) (s : float) (frame : list (Z * float)) :
  lookup k frame = Some s -> In (k, s) frame.
Proof.
  induction frame as [|[k' s'] rest IH]; cbn; [discriminate|].
  destruct (Z.eqb_spec k k') as [->|_]; intros H.
  - injection H as ->. left. reflexivity.
  - right. auto.
Qed.

(** An aggregate frame counts a row: the row is among the rows of its
    key that are summed, and the frame holds their SUM under the key. *)
Definition counted {A : Type} (key : A -> Z) (value : A -> float) (x : A)
  (rows : list A) (frame : list (Z * float)) : Prop :=
  In x (filter (fun r => key r =? key x) rows) /\
  In (key x, Sqlite.sum (group_values key value (key x) rows)) frame.

Lemma group_sum_counted {A : Type} (key : A -> Z) (value : A -> float)
  (x : A) (rows : list A) :
  In x rows -> counted key value x rows (Sqlite.group_sum key value rows).
Proof.
  intros Hin.
  assert (Hx : In x (filter (fun r => key r =? key x) rows)).
  { apply filter_In. split; [exact Hin|apply Z.eqb_refl]. }
  split; [exact Hx|].
  apply lookup_in. rewrite group_sum_lookup. unfold group_values.
  destruct (filter (fun r => key r =? key x) rows); [destruct Hx|].
  reflexivity.
Qed.

(** The date text of an entry is the start or the end of the range. *)
Definition on_endpoint (start_date end_date : Date.date) (text : string)
  : Prop :=
  text = Date.isoformat start_date \/ text = Date.isoformat end_date.

Lemma endpoint_between (start_date end_date : Date.date) (text : string) :
  Date.valid start_date = true -> Date.valid end_date = true ->
  Date.leb start_date end_date = true ->
  on_endpoint start_date end_date text ->
  Sqlite.between text (Date.isoformat start_date) (Date.isoformat end_date)
  = true.
Proof.
  intros Hs He Hle [-> | ->];
    apply (between_endpoints start_date end_date Hs He Hle).
Qed.

(** C7. For a range start_date <= end_date: a work-hour entry dated on
    either endpoint is in the result of load_work_hours (with the name
    of its employee), an adjustment dated on either endpoint is in the
    result of load_adjustments, and each of the aggregation queries of
    calculate_payroll counts such an entry in the SUM of its employee. *)
Theorem c7_range_reads_inclusive (order_by : sorter)
  (start_date end_date : Date.date) (db : database) :
  Date.valid start_date = true -> Date.valid end_date = true ->
  Date.leb start_date end_date = true ->
  (forall w emp,
      In w (work_hours db) -> In emp (employees db) ->
      Employees.id emp = WorkHours.employee_id w ->
      on_endpoint start_date end_date (WorkHours.work_date w) ->
      match fst (load_work_hours order_by start_date end_date db) with
      | Ok rows =>
          In (HoursDetail.mk (WorkHours.id w) (Employees.full_name emp)
                (WorkHours.employee_id w) (WorkHours.work_date w)
                (WorkHours.hours w) (WorkHours.notes w)) rows
      | Raise _ => False
      end) /\
  (forall a emp,
      In a (adjustments db) -> In emp (employees db) ->
      Employees.id emp = Adjustments.employee_id a ->
      on_endpoint start_date end_date (Adjustments.adjustment_date a) ->
      match fst (load_adjustments order_by start_date end_date db) with
      | Ok rows =>
          In (AdjustmentDetail.mk (Adjustments.id a)
                (Employees.full_name emp) (Adjustments.employee_id a)
                (Adjustments.adjustment_date a)
                (Adjustments.adjustment_type a) (Adjustments.amount a)
                (Adjustments.description a)) rows
      | Raise _ => False
      end) /\
  (forall w,
      In w (work_hours db) ->
      on_endpoint start_date end_date (WorkHours.work_date w) ->
      counted WorkHours.employee_id WorkHours.hours w
        (work_hours_in (Date.isoformat start_date)
           (Date.isoformat end_date) db)
        (select_total_hours (Date.isoformat start_date)
           (Date.isoformat end_date) db)) /\
  (forall a kind,
      In a (adjustments db) ->
      Adjustments.adjustment_type a = kind ->
      on_endpoint start_date end_date (Adjustments.adjustment_date a) ->
      counted Adjustments.employee_id Adjustments.amount a
        (filter (fun a' => String.eqb (Adjustments.adjustment_type a') kind)
           (adjustments_in (Date.isoformat start_date)
              (Date.isoformat end_date) db))
        (select_adjustment_total kind (Date.isoformat start_date)
           (Date.isoformat end_date) db)).
Proof.
  intros Hs He Hle.
  pose proof (fun text =>
                endpoint_between start_date end_date text Hs He Hle)
    as Hbetween.
  split; [|split; [|split]].
  - intros w emp Hw Hemp Hid Hend. cbn [fst load_work_hours read_sql_query].
    eapply Permutation_in; [apply sort_on_perm|].
    unfold select_work_hours. apply in_flat_map. exists w. split.
    + apply filter_In. split; [exact Hw|]. apply Hbetween, Hend.
    + apply in_map_iff. exists emp. split; [reflexivity|].
      apply filter_In. split; [exact Hemp|]. apply Z.eqb_eq, Hid.
  - intros a emp Ha Hemp Hid Hend.
    cbn [fst load_adjustments read_sql_query].
    eapply Permutation_in; [apply sort_on_perm|].
    unfold select_adjustments. apply in_flat_map. exists a. split.
    + apply filter_In. split; [exact Ha|]. apply Hbetween, Hend.
    + apply in_map_iff. exists emp. split; [reflexivity|].
      apply filter_In. split; [exact Hemp|]. apply Z.eqb_eq, Hid.
  - intros w Hw Hend. apply group_sum_counted. apply filter_In.
    split; [exact Hw|]. apply Hbetween, Hend.
  - intros a kind Ha Hkind Hend.
    rewrite select_adjustment_total_in. apply group_sum_counted.
    apply filter_In. split.
    + apply filter_In. split; [exact Ha|]. apply Hbetween, Hend.
    + apply String.eqb_eq, Hkind.
Qed.

Lemma c7_range_reads_inclusive_witness :
  In (HoursDetail.mk 1 "Ana" 1 "2024-01-01" 8 "")
    (sort_on stable_sorter HoursDetail.work_date
       (select_work_hours "2024-01-01" "2024-01-02" january)) /\
  In (AdjustmentDetail.mk 2 "Ana" 1 "2024-01-02" "deduction" 5 "")
    (sort_on stable_sorter AdjustmentDetail.adjustment_date
       (select_adjustments "2024-01-01" "2024-01-02" january)) /\
  In (1, 10%float) (select_total_hours "2024-01-01" "2024-01-02" january) /\
  In (1, 5%float)
    (select_adjustment_total "deduction" "2024-01-01" "2024-01-02" january).
Proof.
  destruct (c7_range_reads_inclusive stable_sorter (Date.mk 2024 1 1)
              (Date.mk 2024 1 2) january)
    as (Hhours & Hadjustments & Htotal & Hkind); try reflexivity.
  repeat split.
  - apply (Hhours (WorkHours.mk 1 1 "2024-01-01" 8 "")
             (Employees.mk 1 "Ana" "Cajera" 10 "2020-01-01"));
      cbn; auto. left. reflexivity.
  - apply (Hadjustments (Adjustments.mk 2 1 "2024-01-02" "deduction" 5 "")
             (Employees.mk 1 "Ana" "Cajera" 10 "2020-01-01"));
      cbn; auto. right. reflexivity.
  - apply (Htotal (WorkHours.mk 2 1 "2024-01-02" 2 "")); cbn; auto.
    right. reflexivity.
  - apply (Hkind (Adjustments.mk 2 1 "2024-01-02" "deduction" 5 "")
             "deduction"%string); cbn; auto.
    right. reflexivity.
Defined.

(** ** C6: a range and its partitions *)

(** [ranges] cuts [start_date, end_date] into sub-ranges of valid dates,
    each starting the day after the one before ends. *)
Fixpoint is_partition (start_date : Date.date)
  (ranges : list (Date.date * Date.date)) (end_date : Date.date) : bool :=
  match ranges with
  | [] => false
  | (a, b) :: rest =>
      Date.eqb a start_date && Date.valid a && Date.valid b &&
      Date.leb a b &&
      match rest with
      | [] => Date.eqb b end_date
      | _ :: _ =>
          match Date.next_day b with
          | Some a' => is_partition a' rest end_date
          | None => false
          end
      end
  end.

(** Every date text of the two entry tables is the ISO form of a date,
    as add_work_hours and add_adjustment write it. *)
Definition iso_text (text : string) : Prop :=
  exists d, Date.valid d = true /\ text = Date.isoformat d.

Definition dates_written (db : database) : Prop :=
  Forall (fun w => iso_text (WorkHours.work_date w)) (work_hours db) /\
  Forall (fun a => iso_text (Adjustments.adjustment_date a)) (adjustments db).

(** The values the SUM of an aggregation query adds for one employee. *)
Definition hours_summed (lo hi : string) (db : database) (employee_id : Z)
  : list float :=
  group_values WorkHours.employee_id WorkHours.hours employee_id
    (work_hours_in lo hi db).

Definition amounts_summed (kind lo hi : string) (db : database)
  (employee_id : Z) : list float :=
  group_values Adjustments.employee_id Adjustments.amount employee_id
    (filter (fun a => String.eqb (Adjustments.adjustment_type a) kind)
       (adjustments_in lo hi db)).

Lemma select_total_hours_aggregate (lo hi : string) (db : database)
  (k : Z) :
  lookup k (select_total_hours lo hi db) = aggregate (hours_summed lo hi db k).
Proof. unfold select_total_hours. apply group_sum_lookup. Qed.

Lemma select_adjustment_total_aggregate (kind lo hi : string)
  (db : database) (k : Z) :
  lookup k (select_adjustment_total kind lo hi db) =
  aggregate (amounts_summed kind lo hi db k).
Proof. rewrite select_adjustment_total_in. apply group_sum_lookup. Qed.

Lemma date_eqb_eq (a b : Date.date) : Date.eqb a b = true -> a = b.
Proof.
  unfold Date.eqb, Date.compare. destruct a as [y m d], b as [y' m' d']. cbn.
  destruct (Z.compare_spec y y'); try discriminate.
  destruct (Z.compare_spec m m'); try discriminate.
  destruct (Z.compare_spec d d'); try discriminate.
  intros _. subst. reflexivity.
Qed.

Lemma next_day_later (d d' : Date.date) :
  Date.valid d = true -> Date.next_day d = Some d' -> Date.leb d d' = true.
Proof.
  intros Hd Hn.
  pose proof (next_day_adjacent d d' d Hd Hd Hn) as H.
  rewrite leb_refl in H. cbn in H.
  apply leb_false_spec in H. apply leb_spec. lia.
Qed.

Lemma is_partition_bounds (ranges : list (Date.date * Date.date)) :
  forall start_date end_date,
    is_partition start_date ranges end_date = true ->
    Date.valid start_date = true /\ Date.valid end_date = true /\
    Date.leb start_date end_date = true.
Proof.
  induction ranges as [|[a b] rest IH]; cbn; intros s e H; [discriminate|].
  rewrite !andb_true_iff in H. destruct H as [[[[Ha Hva] Hvb] Hab] Hrest].
  apply date_eqb_eq in Ha. subst a.
  destruct rest as [|r rest'].
  - apply date_eqb_eq in Hrest. subst b. auto.
  - destruct (Date.next_day b) as [a'|] eqn:Hn; [|discriminate].
    destruct (IH a' e Hrest) as (Hva' & Hve & Hle).
    repeat split; try assumption.
    eapply leb_trans; [exact Hab|]. eapply leb_trans; [|exact Hle].
    apply next_day_later; assumption.
Qed.

(** Rows selected by one of two exclusive tests. *)
Lemma filter_split {X : Type} (p p1 p2 : X -> bool) (l : list X) :
  Forall (fun x => p x = p1 x || p2 x /\ p1 x && p2 x = false) l ->
  Permutation (filter p l) (filter p1 l ++ filter p2 l).
Proof.
  induction 1 as [|x l [Hp Hex] _ IH]; cbn; [constructor|].
  rewrite Hp. destruct (p1 x), (p2 x); cbn in *; try discriminate.
  - constructor. exact IH.
  - rewrite IH. apply Permutation_middle.
  - exact IH.
Qed.

Lemma filter_permutation {X : Type} (f : X -> bool) (l l' : list X) :
  Permutation l l' -> Permutation (filter f l) (filter f l').
Proof.
  induction 1 as [|x l l' _ IH|x y l|l l' l'' _ IH1 _ IH2]; cbn.
  - constructor.
  - destruct (f x); [constructor|]; exact IH.
  - destruct (f x), (f y); try reflexivity. apply perm_swap.
  - etransitivity; eassumption.
Qed.

(** The range [a, e] is the range [a, b] and the range from the day
    after b to e. *)
Lemma between_split (a b a' e x : Date.date) :
  Date.valid a = true -> Date.valid b = true -> Date.valid a' = true ->
  Date.valid e = true -> Date.valid x = true ->
  Date.leb a b = true -> Date.next_day b = Some a' ->
  Date.leb a' e = true ->
  let t := Date.isoformat x in
  Sqlite.between t (Date.isoformat a) (Date.isoformat e) =
    Sqlite.between t (Date.isoformat a) (Date.isoformat b) ||
    Sqlite.between t (Date.isoformat a') (Date.isoformat e) /\
  Sqlite.between t (Date.isoformat a) (Date.isoformat b) &&
    Sqlite.between t (Date.isoformat a') (Date.isoformat e) = false.
Proof.
  intros Ha Hb Ha' He Hx Hab Hn Hle. cbv zeta.
  rewrite !between_isoformat by assumption.
  rewrite (next_day_adjacent b a' x Hb Hx Hn).
  pose proof (next_day_later b a' Hb Hn) as Hba'.
  destruct (Date.leb x b) eqn:Hxb; cbn [negb].
  - assert (Hxe : Date.leb x e = true).
    { eapply leb_trans; [exact Hxb|]. eapply leb_trans; eassumption. }
    rewrite Hxe. destruct (Date.leb a x); split; reflexivity.
  - assert (Hax : Date.leb a x = true).
    { apply leb_false_spec in Hxb. apply leb_spec in Hab. apply leb_spec.
      lia. }
    rewrite Hax. destruct (Date.leb x e); split; reflexivity.
Qed.

Section Partition.

Context {A : Type} (date_of : A -> string) (q : A -> bool).

(** The rows dated in a range that pass a further test. *)
Definition selected (lo hi : string) (rows : list A) : list A :=
  filter q (filter (fun r => Sqlite.between (date_of r) lo hi) rows).

Lemma selected_partition (rows : list A)
  (ranges : list (Date.date * Date.date)) :
  Forall (fun r => iso_text (date_of r)) rows ->
  forall start_date end_date,
    is_partition start_date ranges end_date = true ->
    Permutation
      (selected (Date.isoformat start_date) (Date.isoformat end_date) rows)
      (flat_map
         (fun range =>
            selected (Date.isoformat (fst range))
              (Date.isoformat (snd range)) rows)
         ranges).
Proof.
  intros Hrows.
  induction ranges as [|[a b] rest IH]; intros s e H; [discriminate|].
  pose proof (is_partition_bounds _ _ _ H) as (Hvs & Hve & Hse).
  cbn [is_partition] in H. rewrite !andb_true_iff in H.
  destruct H as [[[[Ha Hva] Hvb] Hab] Hrest].
  apply date_eqb_eq in Ha. subst a.
  cbn [flat_map fst snd].
  destruct rest as [|r rest'].
  - apply date_eqb_eq in Hrest. subst b. cbn. rewrite app_nil_r.
    reflexivity.
  - destruct (Date.next_day b) as [a'|] eqn:Hn; [|discriminate].
    pose proof (is_partition_bounds _ _ _ Hrest) as (Hva' & _ & Ha'e).
    rewrite <- (IH a' e Hrest).
    unfold selected. rewrite <- filter_app.
    apply filter_permutation.
    apply filter_split.
    eapply Forall_impl; [|exact Hrows].
    intros x [d [Hd ->]].
    apply (between_split s b a' e d); assumption.
Qed.

End Partition.

Lemma map_flat_map {X Y W : Type} (f : Y -> W) (g : X -> list Y)
  (l : list X) :
  map f (flat_map g l) = flat_map (fun x => map f (g x)) l.
Proof.
  induction l as [|x l IH]; cbn; [reflexivity|].
  rewrite map_app, IH. reflexivity.
Qed.

Lemma hours_summed_selected (lo hi : string) (db : database) (k : Z) :
  hours_summed lo hi db k =
  map WorkHours.hours
    (selected WorkHours.work_date
       (fun w => WorkHours.employee_id w =? k) lo hi (work_hours db)).
Proof. reflexivity. Qed.

Lemma amounts_summed_selected (kind lo hi : string) (db : database)
  (k : Z) :
  amounts_summed kind lo hi db k =
  map Adjustments.amount
    (selected Adjustments.adjustment_date
       (fun a =>
          String.eqb (Adjustments.adjustment_type a) kind &&
          (Adjustments.employee_id a =? k))
       lo hi (adjustments db)).
Proof.
  unfold amounts_summed, group_values, selected, adjustments_in.
  rewrite filter_andb. reflexivity.
Qed.

(** The total_hours column of what calculate_payroll returned. *)
Definition total_hours_column (r : result (list Payroll.row)) : list float :=
  match r with
  | Ok rows => map Payroll.total_hours rows
  | Raise _ => []
  end.

(** Ana logs 0.3 hours on January 1st, 0.2 on the 2nd and 0.1 on the
    3rd (the nearest float64 values). *)
Definition fractions : database :=
  mk_database [Employees.mk 1 "Ana" "Cajera" 10 "2020-01-01"]
    [WorkHours.mk 1 1 "2024-01-01" 0x1.3333333333333p-2 "";
     WorkHours.mk 2 1 "2024-01-02" 0x1.999999999999ap-3 "";
     WorkHours.mk 3 1 "2024-01-03" 0x1.999999999999ap-4 ""]
    [].

Lemma float_neq (x y : float) : Prim2SF x <> Prim2SF y -> x <> y.
Proof. intros H E. apply H. rewrite E. reflexivity. Qed.

(** Over January 1st to 3rd Ana's total_hours is 0.6; over the 1st alone
    it is 0.3 and over the 2nd to 3rd 0.30000000000000004, whose float64
    sum is 0.6000000000000001. *)
Lemma c6_partition_totals_differ :
  is_partition (Date.mk 2024 1 1)
    [(Date.mk 2024 1 1, Date.mk 2024 1 1);
     (Date.mk 2024 1 2, Date.mk 2024 1 3)]
    (Date.mk 2024 1 3) = true /\
  total_hours_column
    (fst (calculate_payroll stable_sorter (Date.mk 2024 1 1)
            (Date.mk 2024 1 3) fractions)) = [0x1.3333333333333p-1%float] /\
  total_hours_column
    (fst (calculate_payroll stable_sorter (Date.mk 2024 1 1)
            (Date.mk 2024 1 1) fractions)) = [0x1.3333333333333p-2%float] /\
  total_hours_column
    (fst (calculate_payroll stable_sorter (Date.mk 2024 1 2)
            (Date.mk 2024 1 3) fractions)) = [0x1.3333333333334p-2%float] /\
  PrimFloat.add 0x1.3333333333333p-2 0x1.3333333333334p-2 <>
    0x1.3333333333333p-1%float.
Proof.
  repeat split; try reflexivity.
  apply float_neq. vm_compute. discriminate.
Qed.

(** C6, amended. For every partition of a range into contiguous
    sub-ranges and every employee, the values that the hours query, the
    bonus query and the deduction query sum over the whole range are,
    up to order, the values they sum over the sub-ranges taken together,
    each entry falling in exactly one sub-range; and every such query
    holds for the employee the float64 sum of those values. The totals
    themselves agree up to float64 rounding only. *)
Theorem c6_partition_sums_same_entries (db : database)
  (start_date end_date : Date.date)
  (ranges : list (Date.date * Date.date)) (k : Z) :
  dates_written db ->
  is_partition start_date ranges end_date = true ->
  Permutation
    (hours_summed (Date.isoformat start_date) (Date.isoformat end_date) db k)
    (flat_map
       (fun range =>
          hours_summed (Date.isoformat (fst range))
            (Date.isoformat (snd range)) db k)
       ranges) /\
  (forall kind,
      Permutation
        (amounts_summed kind (Date.isoformat start_date)
           (Date.isoformat end_date) db k)
        (flat_map
           (fun range =>
              amounts_summed kind (Date.isoformat (fst range))
                (Date.isoformat (snd range)) db k)
           ranges)) /\
  (forall lo hi,
      lookup k (select_total_hours lo hi db) =
      aggregate (hours_summed lo hi db k)) /\
  (forall kind lo hi,
      lookup k (select_adjustment_total kind lo hi db) =
      aggregate (amounts_summed kind lo hi db k)).
Proof.
  intros [Hw Ha] Hp. split; [|split; [|split]].
  - rewrite hours_summed_selected.
    erewrite flat_map_ext
      by (intros; rewrite hours_summed_selected; reflexivity).
    rewrite <- map_flat_map. apply Permutation_map.
    apply selected_partition; assumption.
  - intros kind. rewrite amounts_summed_selected.
    erewrite flat_map_ext
      by (intros; rewrite amounts_summed_selected; reflexivity).
    rewrite <- map_flat_map. apply Permutation_map.
    apply selected_partition; assumption.
  - intros lo hi. apply select_total_hours_aggregate.
  - intros kind lo hi. apply select_adjustment_total_aggregate.
Qed.

Lemma january_dates_written : dates_written january.
Proof.
  split; repeat constructor; cbn.
  - exists (Date.mk 2024 1 1). split; reflexivity.
  - exists (Date.mk 2024 1 2). split; reflexivity.
  - exists (Date.mk 2024 1 1). split; reflexivity.
  - exists (Date.mk 2024 1 2). split; reflexivity.
Qed.

Lemma c6_partition_sums_same_entries_witness :
  Permutation (hours_summed "2024-01-01" "2024-01-31" january 1)
    (hours_summed "2024-01-01" "2024-01-01" january 1 ++
     hours_summed "2024-01-02" "2024-01-31" january 1 ++ []) /\
  hours_summed "2024-01-01" "2024-01-31" january 1 = [8%float; 2%float].
Proof.
  split; [|reflexivity].
  apply (c6_partition_sums_same_entries january (Date.mk 2024 1 1)
           (Date.mk 2024 1 31)
           [(Date.mk 2024 1 1, Date.mk 2024 1 1);
            (Date.mk 2024 1 2, Date.mk 2024 1 31)] 1).
  - exact january_dates_written.
  - reflexivity.
Defined.

(** The writes keep the date texts in ISO form. *)
Lemma add_work_hours_dates_written (employee_id : Z) (work_date : Date.date)
  (hours : float) (notes : string) (db : database) :
  Date.valid work_date = true -> dates_written db ->
  dates_written (snd (add_work_hours employee_id work_date hours notes db)).
Proof.
  intros Hd [Hw Ha]. rewrite add_work_hours_outcome.
  destruct (Sqlite.int64 employee_id); [|split; assumption].
  destruct (Sqlite.real_not_null hours); cbn; [|split; assumption].
  split; [|exact Ha]. apply Forall_app. split; [exact Hw|].
  constructor; [|constructor]. exists work_date. split; [exact Hd|reflexivity].
Qed.

Lemma add_adjustment_dates_written (employee_id : Z)
  (adjustment_date : Date.date) (adjustment_type : string) (amount : float)
  (description : string) (db : database) :
  Date.valid adjustment_date = true -> dates_written db ->
  dates_written
    (snd (add_adjustment employee_id adjustment_date adjustment_type amount
            description db)).
Proof.
  intros Hd [Hw Ha]. rewrite add_adjustment_outcome.
  destruct (Sqlite.int64 employee_id); [|split; assumption].
  destruct (Sqlite.real_not_null amount); cbn; [|split; assumption].
  split; [exact Hw|]. apply Forall_app. split; [exact Ha|].
  constructor; [|constructor].
  exists adjustment_date. split; [exact Hd|reflexivity].
Qed.

Lemma empty_database_dates_written : dates_written empty_database.
Proof. split; constructor. Qed.

Lemma add_employee_dates_written (full_name role_title : string)
  (hourly_rate : float) (start_date : Date.date) (db : database) :
  dates_written db ->
  dates_written
    (snd (add_employee full_name role_title hourly_rate start_date db)).
Proof.
  intros [Hw Ha]. unfold add_employee, execute, insert_employee.
  destruct (Sqlite.real_not_null hourly_rate); cbn; split; assumption.
Qed.

(** ** C9: the representation of amounts *)

(** Ana, at rate 1, logs 0.1 hours and receives a bonus of 0.2 (the
    nearest float64 values). *)
Definition dimes : database :=
  mk_database [Employees.mk 1 "Ana" "Cajera" 1 "2020-01-01"]
    [WorkHours.mk 1 1 "2024-01-01" 0x1.999999999999ap-4 ""]
    [Adjustments.mk 1 1 "2024-01-01" "bonus" 0x1.999999999999ap-3 ""].

(** Her net pay is 0.1 + 0.2 - 0 in float64, 0.30000000000000004, and
    not 0.3 as in decimal arithmetic (nor the float64 nearest to 0.3). *)
Lemma c9_net_pay_drifts :
  fst (calculate_payroll stable_sorter (Date.mk 2024 1 1) (Date.mk 2024 1 31)
         dimes)
  = Ok [Payroll.mk "Ana" 1 0x1.999999999999ap-4 0x1.999999999999ap-4
          0x1.999999999999ap-3 0 0x1.3333333333334p-2] /\
  0x1.3333333333334p-2%float <> 0x1.3333333333333p-2%float.
Proof.
  split; [reflexivity|]. apply float_neq. vm_compute. discriminate.
Qed.

(** The total_hours of an employee as the report holds it: the float64
    SUM of the in-range hours in scan order, 0.0 when there is none. *)
Definition unrounded_total_hours (lo hi : string) (db : database)
  (employee_id : Z) : float :=
  match hours_summed lo hi db employee_id with
  | [] => PrimFloat.zero
  | values => fillna (Sqlite.sum values)
  end.

Lemma employee_report_row_total_hours (lo hi : string) (db : database)
  (emp : Employees.row) :
  Payroll.total_hours (employee_report_row lo hi db emp) =
  unrounded_total_hours lo hi db (Employees.id emp).
Proof.
  unfold employee_report_row, employee_row, unrounded_total_hours.
  cbn [frame_match Roster.id payroll_row Payroll.total_hours].
  rewrite select_total_hours_aggregate.
  destruct (hours_summed lo hi db (Employees.id emp)); reflexivity.
Qed.

(** C9, amended. Amounts and their sums are float64 values, so sums
    drift as float64 sums do. No rounding step stands between the
    stored values and the report: in every row, for an employee of the
    roster, total_hours is the float64 SUM of the employee's in-range
    hours (0.0 without any), and gross_pay and net_pay are the float64
    results of the formula on the row's columns. *)
Theorem c9_figures_are_float64_results (sort_values : sorter)
  (start_date end_date : Date.date) (db : database) :
  match fst (calculate_payroll sort_values start_date end_date db) with
  | Ok rows =>
      Forall
        (fun r =>
           exists emp,
             In emp (employees db) /\
             Payroll.full_name r = Employees.full_name emp /\
             Payroll.hourly_rate r = Employees.hourly_rate emp /\
             Payroll.total_hours r =
               unrounded_total_hours (Date.isoformat start_date)
                 (Date.isoformat end_date) db (Employees.id emp) /\
             formula_holds r)
        rows
  | Raise _ => False
  end.
Proof.
  rewrite calculate_payroll_returns. cbn [fst].
  destruct (employees db) as [|emp0 emps] eqn:E; [constructor|].
  rewrite <- E. eapply Permutation_Forall; [apply sort_on_perm|].
  apply Forall_forall. intros r Hr. unfold report_rows in Hr.
  apply in_map_iff in Hr. destruct Hr as [m [<- Hm]].
  apply merge_frames_in in Hm; [|apply select_total_hours_ascending].
  destruct m as [[[e h] b] d]. cbn [fst snd] in Hm.
  destruct Hm as [He Hh]. unfold select_roster in He.
  apply in_map_iff in He. destruct He as [emp [<- Hemp]].
  cbn [Roster.id] in Hh.
  exists emp. split; [exact Hemp|]. split; [reflexivity|].
  split; [reflexivity|]. split; [|apply payroll_row_formula].
  rewrite <- employee_report_row_total_hours. subst h. reflexivity.
Qed.

(** ** C4: the order of the report *)

(** [count] employees of one name, with the ids 1, 2, ... and the id
    as hourly rate, which tells their report rows apart. *)
Definition namesakes (count : nat) : database :=
  mk_database
    (map
       (fun i =>
          Employees.mk (Z.of_nat i) "Ana" "Cajera"
            (PrimFloat.of_uint63 (Uint63.of_Z (Z.of_nat i))) "2020-01-01")
       (seq 1 count))
    [] [].

(** The hourly_rate column of what calculate_payroll returned. *)
Definition hourly_rate_column (r : result (list Payroll.row)) : list float :=
  match r with
  | Ok rows => map Payroll.hourly_rate rows
  | Raise _ => []
  end.

(** Eighteen namesakes, in the employees table in id order, are one
    segment that quicksort partitions, be SMALL_QUICKSORT 16 or 15: the
    pivot, the ninth, goes next to last, the partition loop swaps the
    second with the sixteenth, the third with the fifteenth and so on,
    and insertion leaves the two parts as they are. The report has the
    employees 2 to 16 in descending order of id. With SMALL_QUICKSORT 15
    seventeen namesakes are partitioned as well. *)
Lemma c4_namesakes_not_in_id_order :
  map Employees.id (employees (namesakes 18)) =
    [1; 2; 3; 4; 5; 6; 7; 8; 9; 10; 11; 12; 13; 14; 15; 16; 17; 18] /\
  map Employees.hourly_rate (employees (namesakes 18)) =
    [1; 2; 3; 4; 5; 6; 7; 8; 9; 10; 11; 12; 13; 14; 15; 16; 17; 18]%float /\
  hourly_rate_column
    (fst (calculate_payroll (quicksort_sorter 16 small_quicksort_16)
            (Date.mk 2024 1 1) (Date.mk 2024 1 31) (namesakes 18))) =
    [1; 16; 15; 14; 13; 12; 11; 10; 9; 8; 7; 6; 5; 4; 3; 2; 17; 18]%float /\
  hourly_rate_column
    (fst (calculate_payroll (quicksort_sorter 15 small_quicksort_15)
            (Date.mk 2024 1 1) (Date.mk 2024 1 31) (namesakes 18))) =
    [1; 16; 15; 14; 13; 12; 11; 10; 9; 8; 7; 6; 5; 4; 3; 2; 17; 18]%float /\
  hourly_rate_column
    (fst (calculate_payroll (quicksort_sorter 15 small_quicksort_15)
            (Date.mk 2024 1 1) (Date.mk 2024 1 31) (namesakes 17))) =
    [1; 15; 14; 13; 12; 11; 10; 16; 9; 7; 6; 5; 4; 3; 2; 8; 17]%float.
Proof. repeat split; vm_compute; reflexivity. Qed.

(** Two namesakes, as any report short enough to be sorted by insertion
    alone, stay in the order of the employees table. *)
Example two_namesakes_in_id_order :
  hourly_rate_column
    (fst (calculate_payroll (quicksort_sorter 16 small_quicksort_16)
            (Date.mk 2024 1 1) (Date.mk 2024 1 31) (namesakes 2))) =
    [1; 2]%float.
Proof. vm_compute. reflexivity. Qed.

(** The rows of a name, in the order they have in a report. *)
Definition named (name : string) (rows : list Payroll.row)
  : list Payroll.row :=
  filter (fun r => String.eqb (Payroll.full_name r) name) rows.

(** C4, amended. For every database and date range the rows returned by
    calculate_payroll, sorted by numpy's quicksort, are in ascending
    order of full_name (bytewise): every row's name is at most the name
    of every later row. The program names no second key and no stable
    sort: rows of equal names keep the order they have before the sort,
    that of the employees table, when the report has at most
    SMALL_QUICKSORT + 1 rows, which insertion alone sorts; a longer
    report is partitioned, and there they need not. *)
Theorem c4_report_sorted_by_name (small_quicksort : nat)
  (small_quicksort_ok : (1 <= small_quicksort)%nat)
  (start_date end_date : Date.date) (db : database) :
  match
    fst (calculate_payroll (quicksort_sorter small_quicksort
                              small_quicksort_ok) start_date end_date db)
  with
  | Ok rows =>
      StronglySorted (key_le Payroll.full_name) rows /\
      ((List.length rows <= small_quicksort + 1)%nat ->
       forall name,
         named name rows =
         named name
           (report_rows (Date.isoformat start_date)
              (Date.isoformat end_date) db))
  | Raise _ => False
  end.
Proof.
  rewrite calculate_payroll_returns. cbn [fst].
  set (unsorted := report_rows (Date.isoformat start_date)
                     (Date.isoformat end_date) db).
  assert (Hnone : employees db = [] -> unsorted = []).
  { intros E. unfold unsorted, report_rows, select_roster. rewrite E.
    reflexivity. }
  destruct (employees db) as [|emp emps].
  { split; [constructor|]. intros _ name. rewrite Hnone; reflexivity. }
  split; [apply sorted_strongly, sort_on_sorted|].
  cbn [sort_on quicksort_sorter]. intros Hshort name.
  rewrite <- (Permutation_length (quicksort_perm Payroll.full_name
                                    small_quicksort small_quicksort_ok
                                    unsorted)) in Hshort.
  rewrite (quicksort_small _ _ small_quicksort_ok) by exact Hshort.
  apply insertion_sort_stable.
Qed.

Lemma c4_report_sorted_by_name_witness :
  match
    fst (calculate_payroll (quicksort_sorter 16 small_quicksort_16)
           (Date.mk 2024 1 1) (Date.mk 2024 1 31) (namesakes 18))
  with
  | Ok rows =>
      StronglySorted (key_le Payroll.full_name) rows /\
      ((List.length rows <= 16 + 1)%nat ->
       forall name,
         named name rows =
         named name (report_rows "2024-01-01" "2024-01-31" (namesakes 18)))
  | Raise _ => False
  end.
Proof.
  exact (c4_report_sorted_by_name 16 small_quicksort_16 (Date.mk 2024 1 1)
           (Date.mk 2024 1 31) (namesakes 18)).
Defined.

(** ** C5: entries for an employee that does not exist *)

(** With the pragma on, SQLite refuses the row. *)
Example insert_work_hours_enforced :
  insert_work_hours {| foreign_keys := true |} 42 "2024-01-01" 8 ""
    empty_database
  = Raise (IntegrityError "FOREIGN KEY constraint failed").
Proof. reflexivity. Qed.

(** C5 fails on the code: with no employee in the database,
    add_work_hours and add_adjustment for employee 42 both succeed and
    commit the row. *)
Theorem c5_orphan_entries_are_committed :
  add_work_hours 42 (Date.mk 2024 1 1) 8 "" empty_database =
    (Ok tt,
     mk_database [] [WorkHours.mk 1 42 "2024-01-01" 8 ""] []) /\
  add_adjustment 42 (Date.mk 2024 1 1) "bonus" 50 "" empty_database =
    (Ok tt,
     mk_database [] [] [Adjustments.mk 1 42 "2024-01-01" "bonus" 50 ""]).
Proof. split; reflexivity. Qed.

(** For every database and every 64-bit employee id, existing or not,
    the two writes commit their row unless the amount is NaN. *)
Lemma add_work_hours_commits (employee_id : Z) (work_date : Date.date)
  (hours stored : float) (notes : string) (db : database) :
  Sqlite.int64 employee_id = true ->
  Sqlite.real_not_null hours = Some stored ->
  add_work_hours employee_id work_date hours notes db =
  (Ok tt,
   mk_database (employees db)
     (work_hours db ++
        [WorkHours.mk (Sqlite.next_rowid (map WorkHours.id (work_hours db)))
           employee_id (Date.isoformat work_date) stored notes])
     (adjustments db)).
Proof.
  intros Hid H. rewrite add_work_hours_outcome, Hid, H. reflexivity.
Qed.

Lemma add_adjustment_commits (employee_id : Z) (adjustment_date : Date.date)
  (adjustment_type : string) (amount stored : float) (description : string)
  (db : database) :
  Sqlite.int64 employee_id = true ->
  Sqlite.real_not_null amount = Some stored ->
  add_adjustment employee_id adjustment_date adjustment_type amount
    description db =
  (Ok tt,
   mk_database (employees db) (work_hours db)
     (adjustments db ++
        [Adjustments.mk
           (Sqlite.next_rowid (map Adjustments.id (adjustments db)))
           employee_id (Date.isoformat adjustment_date) adjustment_type
           stored description])).
Proof.
  intros Hid H. rewrite add_adjustment_outcome, Hid, H. reflexivity.
Qed.

(** ** The adjustment columns of the report

    The bonuses and deductions frames are merged on the employee_id
    column that the first merge took from the hours frame. An employee
    without hours in the range has no value there, so the row gets no
    bonus and no deduction, whatever the two queries hold. *)

Definition unrounded_adjustment_total (kind lo hi : string) (db : database)
  (employee_id : Z) : float :=
  match hours_summed lo hi db employee_id with
  | [] => PrimFloat.zero
  | _ =>
      match amounts_summed kind lo hi db employee_id with
      | [] => PrimFloat.zero
      | values => fillna (Sqlite.sum values)
      end
  end.

Lemma employee_report_row_adjustments (lo hi : string) (db : database)
  (emp : Employees.row) :
  Payroll.bonus_total (employee_report_row lo hi db emp) =
    unrounded_adjustment_total "bonus" lo hi db (Employees.id emp) /\
  Payroll.deduction_total (employee_report_row lo hi db emp) =
    unrounded_adjustment_total "deduction" lo hi db (Employees.id emp).
Proof.
  unfold employee_report_row, employee_row, unrounded_adjustment_total.
  cbn [frame_match Roster.id].
  rewrite select_total_hours_aggregate.
  destruct (hours_summed lo hi db (Employees.id emp)) as [|v vs];
    cbn [aggregate option_map key_column frame_match fst];
    [split; reflexivity|].
  rewrite !select_adjustment_total_aggregate.
  destruct (amounts_summed "bonus" lo hi db (Employees.id emp));
    destruct (amounts_summed "deduction" lo hi db (Employees.id emp));
    split; reflexivity.
Qed.

(** Ana works on January 1st and receives a bonus on the 2nd. Over both
    days the report shows the bonus; over the 2nd alone the bonus query
    holds it and the report shows none. *)
Definition bonus_next_day : database :=
  mk_database [Employees.mk 1 "Ana" "Cajera" 10 "2020-01-01"]
    [WorkHours.mk 1 1 "2024-01-01" 8 ""]
    [Adjustments.mk 1 1 "2024-01-02" "bonus" 50 ""].

Example bonus_without_hours_in_range :
  fst (calculate_payroll stable_sorter (Date.mk 2024 1 1) (Date.mk 2024 1 2)
         bonus_next_day) = Ok [Payroll.mk "Ana" 10 8 80 50 0 130] /\
  select_adjustment_total "bonus" "2024-01-02" "2024-01-02" bonus_next_day
    = [(1, 50%float)] /\
  fst (calculate_payroll stable_sorter (Date.mk 2024 1 2) (Date.mk 2024 1 2)
         bonus_next_day) = Ok [Payroll.mk "Ana" 10 0 0 0 0 0].
Proof. repeat split. Qed.

(** The totals of [fractions] and of [dimes] do not depend on how SUM
    accumulates. *)
Example rounding_with_compensated_sum :
  Sqlite.compensated_sum
    [0x1.3333333333333p-2; 0x1.999999999999ap-3; 0x1.999999999999ap-4]%float
    = 0x1.3333333333333p-1%float /\
  Sqlite.compensated_sum [0x1.3333333333333p-2%float]
    = 0x1.3333333333333p-2%float /\
  Sqlite.compensated_sum [0x1.999999999999ap-3; 0x1.999999999999ap-4]%float
    = 0x1.3333333333334p-2%float /\
  Sqlite.compensated_sum [0x1.999999999999ap-4%float]
    = 0x1.999999999999ap-4%float.
Proof. repeat split. Qed.

(* ================================================================= *)
(** * Further properties of the program *)

(** ** The range filter and the aggregate frames *)

(** X1. The WHERE clause of every range query compares ISO texts, and
    on the texts of valid dates it selects exactly the dates of the
    closed calendar interval: start_date <= date <= end_date. *)
Theorem x1_between_is_calendar_interval (d start_date end_date : Date.date) :
  Date.valid d = true -> Date.valid start_date = true ->
  Date.valid end_date = true ->
  (Sqlite.between (Date.isoformat d) (Date.isoformat start_date)
     (Date.isoformat end_date) = true <->
   Date.leb start_date d = true /\ Date.leb d end_date = true).
Proof.
  intros Hd Hs He. rewrite between_isoformat by assumption.
  apply andb_true_iff.
Qed.

Lemma x1_between_is_calendar_interval_witness :
  Sqlite.between "2024-02-29" "2023-12-31" "2024-03-01" = true <->
  Date.leb (Date.mk 2023 12 31) (Date.mk 2024 2 29) = true /\
  Date.leb (Date.mk 2024 2 29) (Date.mk 2024 3 1) = true.
Proof.
  apply (x1_between_is_calendar_interval (Date.mk 2024 2 29)
           (Date.mk 2023 12 31) (Date.mk 2024 3 1)); reflexivity.
Defined.

Lemma keys_ascending_lookup (k : Z) (t : float) (frame : list (Z * float)) :
  keys_ascending frame -> In (k, t) frame -> lookup k frame = Some t.
Proof.
  unfold keys_ascending.
  induction frame as [|[k' s] rest IH]; cbn; intros H Hin; [destruct Hin|].
  inversion H as [|? ? Hrest Hall]; subst.
  destruct Hin as [E|Hin].
  - injection E as -> ->. rewrite Z.eqb_refl. reflexivity.
  - destruct (Z.eqb_spec k k') as [->|_]; [|auto].
    rewrite Forall_forall in Hall.
    specialize (Hall k' (in_map fst _ _ Hin)). cbn in Hall. lia.
Qed.

Lemma frame_rows (k : Z) (t : float) (frame : list (Z * float))
  (values : list float) :
  keys_ascending frame -> lookup k frame = aggregate values ->
  (In (k, t) frame <-> values <> [] /\ t = Sqlite.sum values).
Proof.
  intros Hasc Hlook. split.
  - intros Hin. apply (keys_ascending_lookup k t frame Hasc) in Hin.
    rewrite Hlook in Hin. destruct values; [discriminate|].
    injection Hin as <-. split; [discriminate|reflexivity].
  - intros [Hne ->]. apply lookup_in. rewrite Hlook.
    destruct values; [congruence|reflexivity].
Qed.

(** X2. Each aggregation query of calculate_payroll yields its rows in
    strictly ascending employee_id order, so at most one per employee;
    it has a row for an employee exactly when an entry of the employee
    passes the WHERE clause, and the row holds the SUM of the values of
    those entries. *)
Theorem x2_aggregate_frames (lo hi : string) (db : database) :
  keys_ascending (select_total_hours lo hi db) /\
  (forall k t,
      In (k, t) (select_total_hours lo hi db) <->
      hours_summed lo hi db k <> [] /\
      t = Sqlite.sum (hours_summed lo hi db k)) /\
  (forall kind,
      keys_ascending (select_adjustment_total kind lo hi db) /\
      forall k t,
        In (k, t) (select_adjustment_total kind lo hi db) <->
        amounts_summed kind lo hi db k <> [] /\
        t = Sqlite.sum (amounts_summed kind lo hi db k)).
Proof.
  split; [apply group_sum_ascending|]. split.
  - intros k t. apply frame_rows; [apply group_sum_ascending|].
    apply select_total_hours_aggregate.
  - intros kind. split; [apply group_sum_ascending|].
    intros k t. apply frame_rows; [apply group_sum_ascending|].
    apply select_adjustment_total_aggregate.
Qed.

(** ** calculate_payroll as a direct computation per employee *)

(** The report row of an employee computed from the in-range entries,
    without frames and merges. *)
Definition direct_row (lo hi : string) (db : database) (emp : Employees.row)
  : Payroll.row :=
  let total_hours := unrounded_total_hours lo hi db (Employees.id emp) in
  let bonus_total :=
    unrounded_adjustment_total "bonus" lo hi db (Employees.id emp) in
  let deduction_total :=
    unrounded_adjustment_total "deduction" lo hi db (Employees.id emp) in
  let gross_pay := PrimFloat.mul total_hours (Employees.hourly_rate emp) in
  Payroll.mk (Employees.full_name emp) (Employees.hourly_rate emp)
    total_hours gross_pay bonus_total deduction_total
    (PrimFloat.sub (PrimFloat.add gross_pay bonus_total) deduction_total).

Lemma employee_report_row_direct (lo hi : string) (db : database)
  (emp : Employees.row) :
  employee_report_row lo hi db emp = direct_row lo hi db emp.
Proof.
  pose proof (employee_report_row_total_hours lo hi db emp) as Hh.
  pose proof (employee_report_row_adjustments lo hi db emp) as [Hb Hd].
  unfold direct_row. rewrite <- Hh, <- Hb, <- Hd.
  unfold employee_report_row.
  destruct (employee_row _ _ _ _) as [[[e h] b] d] eqn:E.
  unfold employee_row in E. injection E as <- _ _ _. reflexivity.
Qed.

Lemma sort_on_nil (sort_values : sorter) {A : Type} (key : A -> string) :
  sort_on sort_values key [] = [].
Proof.
  apply Permutation_nil. apply sort_on_perm.
Qed.

Lemma calculate_payroll_direct (sort_values : sorter)
  (start_date end_date : Date.date) (db : database) :
  safe_ids db ->
  calculate_payroll sort_values start_date end_date db =
  (Ok
     (sort_on sort_values Payroll.full_name
        (map
           (direct_row (Date.isoformat start_date)
              (Date.isoformat end_date) db)
           (employees db))), db).
Proof.
  intros Hsafe.
  rewrite calculate_payroll_returns, report_rows_per_employee by exact Hsafe.
  rewrite (map_ext _ _ (employee_report_row_direct _ _ db)).
  destruct (employees db); [|reflexivity].
  cbn [map]. rewrite sort_on_nil. reflexivity.
Qed.

(** X3. When every employee id is a safe integer (below 2^53 in
    absolute value, so that the float64 employee_id column of the
    merges holds it exactly), the three aggregate frames, the three left
    merges, the fillna lines and the formula of calculate_payroll amount
    to this: the report is sort_values of one row per employee, in which
    total_hours is the SUM of the employee's in-range hours (0 without
    any), and bonus_total and deduction_total are the SUM of the
    employee's in-range bonuses and deductions when the employee has
    in-range hours, and 0 otherwise. *)
Theorem x3_calculate_payroll_per_employee (sort_values : sorter)
  (start_date end_date : Date.date) (db : database) :
  safe_ids db ->
  fst (calculate_payroll sort_values start_date end_date db) =
  Ok
    (sort_on sort_values Payroll.full_name
       (map
          (direct_row (Date.isoformat start_date) (Date.isoformat end_date)
             db)
          (employees db))).
Proof.
  intros Hsafe. rewrite calculate_payroll_direct by exact Hsafe. reflexivity.
Qed.

Lemma x3_calculate_payroll_per_employee_witness :
  safe_ids january /\
  fst (calculate_payroll stable_sorter (Date.mk 2024 1 1) (Date.mk 2024 1 31)
         january) =
  Ok
    (sort_on stable_sorter Payroll.full_name
       (map (direct_row "2024-01-01" "2024-01-31" january)
          (employees january))).
Proof.
  split; [exact january_safe_ids|].
  apply (x3_calculate_payroll_per_employee stable_sorter (Date.mk 2024 1 1)
           (Date.mk 2024 1 31) january).
  repeat constructor; unfold safe_integer; cbn; lia.
Defined.

(** X4. An employee with no work-hour entry in the range, and a finite
    hourly rate, has a report row in which bonus_total and
    deduction_total are zero like total_hours, whatever bonuses and
    deductions the employee has in the range: the adjustment frames are
    merged on the employee_id column of the hours frame, which is
    missing for such an employee. *)
Theorem x4_adjustments_need_hours (sort_values : sorter)
  (start_date end_date : Date.date) (db : database) (emp : Employees.row) :
  In emp (employees db) ->
  hours_summed (Date.isoformat start_date) (Date.isoformat end_date) db
    (Employees.id emp) = [] ->
  PrimFloat.is_finite (Employees.hourly_rate emp) = true ->
  match fst (calculate_payroll sort_values start_date end_date db) with
  | Ok rows =>
      In
        (Payroll.mk (Employees.full_name emp) (Employees.hourly_rate emp)
           PrimFloat.zero
           (PrimFloat.mul PrimFloat.zero (Employees.hourly_rate emp))
           PrimFloat.zero PrimFloat.zero PrimFloat.zero)
        rows
  | Raise _ => False
  end.
Proof.
  intros Hin Hnone Hfin. rewrite calculate_payroll_returns. cbn [fst].
  destruct (employees db) as [|e0 es] eqn:E; [contradiction|].
  rewrite <- E in Hin. clear E e0 es.
  eapply Permutation_in; [apply sort_on_perm|].
  unfold report_rows. apply in_map_iff.
  exists ((((Roster.mk (Employees.id emp) (Employees.full_name emp)
               (Employees.hourly_rate emp)), None), None), None).
  split.
  - cbn [payroll_row total_column Roster.full_name Roster.hourly_rate].
    change (fillna PrimFloat.nan) with PrimFloat.zero.
    rewrite idle_net_pay by exact Hfin. reflexivity.
  - apply merge_frames_without_hours.
    + apply select_total_hours_ascending.
    + unfold select_roster. apply in_map_iff. exists emp.
      split; [reflexivity|exact Hin].
    + cbn [Roster.id]. rewrite select_total_hours_aggregate, Hnone.
      reflexivity.
Qed.

Lemma x4_adjustments_need_hours_witness :
  amounts_summed "bonus" "2024-01-02" "2024-01-02" bonus_next_day 1 =
    [50%float] /\
  match
    fst (calculate_payroll stable_sorter (Date.mk 2024 1 2)
           (Date.mk 2024 1 2) bonus_next_day)
  with
  | Ok rows => In (Payroll.mk "Ana" 10 0 0 0 0 0) rows
  | Raise _ => False
  end.
Proof.
  split; [reflexivity|].
  apply (x4_adjustments_need_hours stable_sorter (Date.mk 2024 1 2)
           (Date.mk 2024 1 2) bonus_next_day
           (Employees.mk 1 "Ana" "Cajera" 10 "2020-01-01"));
    [left; reflexivity | reflexivity | reflexivity].
Defined.

(** ** Entries the report never counts *)

Lemma filter_filter_implied {X : Type} (p q : X -> bool) (l : list X) :
  (forall x, p x = true -> q x = true) ->
  filter p (filter q l) = filter p l.
Proof.
  intros H. induction l as [|x l IH]; cbn; [reflexivity|].
  destruct (q x) eqn:Hq; cbn.
  - destruct (p x); rewrite IH; reflexivity.
  - destruct (p x) eqn:Hp; [|exact IH].
    apply H in Hp. congruence.
Qed.

(** The adjustment types the report has a column for. *)
Definition is_bonus_or_deduction (a : Adjustments.row) : bool :=
  String.eqb (Adjustments.adjustment_type a) "bonus" ||
  String.eqb (Adjustments.adjustment_type a) "deduction".

Lemma select_adjustment_total_typed (kind lo hi : string) (db : database) :
  kind = "bonus"%string \/ kind = "deduction"%string ->
  select_adjustment_total kind lo hi db =
  Sqlite.group_sum Adjustments.employee_id Adjustments.amount
    (filter
       (fun a =>
          Sqlite.between (Adjustments.adjustment_date a) lo hi &&
          String.eqb (Adjustments.adjustment_type a) kind)
       (filter is_bonus_or_deduction (adjustments db))).
Proof.
  intros Hkind. unfold select_adjustment_total.
  rewrite filter_filter_implied; [reflexivity|].
  intros a Ha. apply andb_true_iff in Ha. destruct Ha as [_ Ha].
  unfold is_bonus_or_deduction.
  destruct Hkind as [-> | ->]; rewrite Ha; [reflexivity|apply orb_true_r].
Qed.

(** X5. add_adjustment stores any adjustment_type text, and
    calculate_payroll counts only the types 'bonus' and 'deduction',
    compared exactly: two databases that differ only in adjustments of
    other types ('Bonus', say) get the same report. *)
Theorem x5_other_adjustment_types_ignored (sort_values : sorter)
  (start_date end_date : Date.date) (db1 db2 : database) :
  employees db1 = employees db2 ->
  work_hours db1 = work_hours db2 ->
  filter is_bonus_or_deduction (adjustments db1) =
  filter is_bonus_or_deduction (adjustments db2) ->
  fst (calculate_payroll sort_values start_date end_date db1) =
  fst (calculate_payroll sort_values start_date end_date db2).
Proof.
  intros He Hw Ha. rewrite !calculate_payroll_returns. cbn [fst].
  unfold report_rows, select_roster, select_total_hours.
  rewrite !(select_adjustment_total_typed "bonus") by (left; reflexivity).
  rewrite !(select_adjustment_total_typed "deduction")
    by (right; reflexivity).
  rewrite He, Hw, Ha. reflexivity.
Qed.

(** [january] after add_adjustment(1, 2024-01-01, "Bonus", 75, ""). *)
Definition january_capital_bonus : database :=
  snd (add_adjustment 1 (Date.mk 2024 1 1) "Bonus" 75 "" january).

Lemma x5_other_adjustment_types_ignored_witness :
  adjustments january_capital_bonus =
    adjustments january ++ [Adjustments.mk 3 1 "2024-01-01" "Bonus" 75 ""] /\
  fst (calculate_payroll stable_sorter (Date.mk 2024 1 1) (Date.mk 2024 1 31)
         january) =
  fst (calculate_payroll stable_sorter (Date.mk 2024 1 1) (Date.mk 2024 1 31)
         january_capital_bonus).
Proof.
  split; [reflexivity|].
  apply (x5_other_adjustment_types_ignored stable_sorter (Date.mk 2024 1 1)
           (Date.mk 2024 1 31) january january_capital_bonus);
    reflexivity.
Defined.

Lemma group_values_restrict {X : Type} (key : X -> Z) (value : X -> float)
  (k : Z) (p q : X -> bool) (l : list X) :
  (forall x, key x = k -> q x = true) ->
  group_values key value k (filter p (filter q l)) =
  group_values key value k (filter p l).
Proof.
  intros H. unfold group_values. f_equal.
  induction l as [|x l IH]; cbn; [reflexivity|].
  destruct (q x) eqn:Hq; cbn.
  - destruct (p x); cbn; [destruct (key x =? k)|]; rewrite IH; reflexivity.
  - destruct (p x); cbn; [|exact IH].
    destruct (Z.eqb_spec (key x) k) as [E|_]; [|exact IH].
    apply H in E. congruence.
Qed.

(** The entries of a table whose employee_id is the id of an employee. *)
Definition work_hours_of_employees (db : database) : list WorkHours.row :=
  filter (fun w => employee_exists db (WorkHours.employee_id w))
    (work_hours db).

Definition adjustments_of_employees (db : database)
  : list Adjustments.row :=
  filter (fun a => employee_exists db (Adjustments.employee_id a))
    (adjustments db).

Lemma employee_exists_in (db : database) (emp : Employees.row) :
  In emp (employees db) -> employee_exists db (Employees.id emp) = true.
Proof.
  intros Hin. unfold employee_exists. apply existsb_exists.
  exists emp. split; [exact Hin|apply Z.eqb_refl].
Qed.

Lemma hours_summed_of_employees (lo hi : string) (db : database) (k : Z) :
  employee_exists db k = true ->
  hours_summed lo hi db k =
  group_values WorkHours.employee_id WorkHours.hours k
    (filter (fun w => Sqlite.between (WorkHours.work_date w) lo hi)
       (work_hours_of_employees db)).
Proof.
  intros Hk. unfold hours_summed, work_hours_in, work_hours_of_employees.
  rewrite group_values_restrict; [reflexivity|].
  intros w <-. exact Hk.
Qed.

Lemma amounts_summed_of_employees (kind lo hi : string) (db : database)
  (k : Z) :
  employee_exists db k = true ->
  amounts_summed kind lo hi db k =
  group_values Adjustments.employee_id Adjustments.amount k
    (filter
       (fun a =>
          Sqlite.between (Adjustments.adjustment_date a) lo hi &&
          String.eqb (Adjustments.adjustment_type a) kind)
       (adjustments_of_employees db)).
Proof.
  intros Hk. unfold amounts_summed, adjustments_in, adjustments_of_employees.
  rewrite <- filter_andb.
  rewrite group_values_restrict; [reflexivity|].
  intros a <-. exact Hk.
Qed.

(** X6. When every employee id is a safe integer (below 2^53 in
    absolute value), entries whose employee_id is no employee's id never
    reach the report: two databases with the same employees and the same
    entries of those employees get the same report from
    calculate_payroll. (The ids of the other entries need not be safe:
    as float64 they equal no safe id.) *)
Theorem x6_orphan_entries_ignored (sort_values : sorter)
  (start_date end_date : Date.date) (db1 db2 : database) :
  safe_ids db1 ->
  employees db1 = employees db2 ->
  work_hours_of_employees db1 = work_hours_of_employees db2 ->
  adjustments_of_employees db1 = adjustments_of_employees db2 ->
  fst (calculate_payroll sort_values start_date end_date db1) =
  fst (calculate_payroll sort_values start_date end_date db2).
Proof.
  intros Hsafe He Hw Ha.
  rewrite (calculate_payroll_direct _ _ _ db1) by exact Hsafe.
  rewrite (calculate_payroll_direct _ _ _ db2)
    by (unfold safe_ids; rewrite <- He; exact Hsafe).
  cbn [fst]. rewrite <- He. do 2 f_equal. apply map_ext_in. intros emp Hin.
  assert (H1 : employee_exists db1 (Employees.id emp) = true)
    by (apply employee_exists_in, Hin).
  assert (H2 : employee_exists db2 (Employees.id emp) = true)
    by (apply employee_exists_in; rewrite <- He; exact Hin).
  unfold direct_row, unrounded_total_hours, unrounded_adjustment_total.
  rewrite (hours_summed_of_employees _ _ db1) by exact H1.
  rewrite (hours_summed_of_employees _ _ db2) by exact H2.
  rewrite !(amounts_summed_of_employees _ _ _ db1) by exact H1.
  rewrite !(amounts_summed_of_employees _ _ _ db2) by exact H2.
  rewrite Hw, Ha. reflexivity.
Qed.

(** [january] after add_work_hours(42, 2024-01-05, 9, "") and
    add_adjustment(42, 2024-01-05, "bonus", 500, ""), for an employee 42
    that does not exist. *)
Definition january_with_orphans : database :=
  snd (add_adjustment 42 (Date.mk 2024 1 5) "bonus" 500 ""
         (snd (add_work_hours 42 (Date.mk 2024 1 5) 9 "" january))).

Lemma x6_orphan_entries_ignored_witness :
  List.length (work_hours january_with_orphans) = 3%nat /\
  List.length (adjustments january_with_orphans) = 3%nat /\
  fst (calculate_payroll stable_sorter (Date.mk 2024 1 1) (Date.mk 2024 1 31)
         january) =
  fst (calculate_payroll stable_sorter (Date.mk 2024 1 1) (Date.mk 2024 1 31)
         january_with_orphans).
Proof.
  split; [reflexivity|]. split; [reflexivity|].
  apply (x6_orphan_entries_ignored stable_sorter (Date.mk 2024 1 1)
           (Date.mk 2024 1 31) january january_with_orphans);
    [repeat constructor; unfold safe_integer; cbn; lia | reflexivity ..].
Defined.

(** ** The writes *)

(** The ids of each table in rowid order, strictly ascending. *)
Definition ids_ascending (db : database) : Prop :=
  StronglySorted Z.lt (map Employees.id (employees db)) /\
  StronglySorted Z.lt (map WorkHours.id (work_hours db)) /\
  StronglySorted Z.lt (map Adjustments.id (adjustments db)).

Lemma next_rowid_above (ids : list Z) :
  Forall (fun i => i < Sqlite.next_rowid ids) ids.
Proof.
  unfold Sqlite.next_rowid. induction ids as [|a ids IH]; constructor.
  - cbn [fold_right]. lia.
  - eapply Forall_impl; [|exact IH]. cbn [fold_right]. intros; lia.
Qed.

Lemma ascending_snoc (ids : list Z) (x : Z) :
  StronglySorted Z.lt ids -> Forall (fun i => i < x) ids ->
  StronglySorted Z.lt (ids ++ [x]).
Proof.
  induction 1 as [|a ids Hs IH Ha]; intros Hx; cbn.
  - repeat constructor.
  - inversion Hx; subst. constructor; [auto|].
    apply Forall_app. split; [exact Ha|]. repeat constructor. assumption.
Qed.

Lemma ascending_next_rowid (ids : list Z) :
  StronglySorted Z.lt ids ->
  StronglySorted Z.lt (ids ++ [Sqlite.next_rowid ids]).
Proof. intros H. apply ascending_snoc; [exact H|apply next_rowid_above]. Qed.

(** X7. The ids the three writes assign are above every id of their
    table: if the ids of each table are strictly ascending in rowid
    order (so no two rows share an id), they still are after
    add_employee, add_work_hours and add_adjustment, whatever the
    arguments and whether the write succeeds or fails. *)
Theorem x7_writes_keep_ids_ascending (db : database) :
  ids_ascending db ->
  (forall full_name role_title hourly_rate start_date,
      ids_ascending
        (snd (add_employee full_name role_title hourly_rate start_date db)))
  /\
  (forall employee_id work_date hours notes,
      ids_ascending
        (snd (add_work_hours employee_id work_date hours notes db))) /\
  (forall employee_id adjustment_date adjustment_type amount description,
      ids_ascending
        (snd (add_adjustment employee_id adjustment_date adjustment_type
                amount description db))).
Proof.
  intros (He & Hw & Ha). unfold ids_ascending. split; [|split].
  - intros. unfold add_employee, execute, insert_employee.
    destruct (Sqlite.real_not_null hourly_rate);
      cbn [snd employees work_hours adjustments]; [|auto].
    split; [|auto]. rewrite map_app. apply ascending_next_rowid, He.
  - intros. rewrite add_work_hours_outcome.
    destruct (Sqlite.int64 employee_id); [|auto].
    destruct (Sqlite.real_not_null hours);
      cbn [snd employees work_hours adjustments]; [|auto].
    split; [auto|]. split; [|auto].
    rewrite map_app. apply ascending_next_rowid, Hw.
  - intros. rewrite add_adjustment_outcome.
    destruct (Sqlite.int64 employee_id); [|auto].
    destruct (Sqlite.real_not_null amount);
      cbn [snd employees work_hours adjustments]; [|auto].
    split; [auto|]. split; [auto|].
    rewrite map_app. apply ascending_next_rowid, Ha.
Qed.

Lemma january_ids_ascending : ids_ascending january.
Proof. repeat split; cbn; repeat constructor. Qed.

Lemma x7_writes_keep_ids_ascending_witness :
  ids_ascending
    (snd (add_employee "Carla" "Chofer" 15 (Date.mk 2024 2 1) january)) /\
  map Employees.id
    (employees
       (snd (add_employee "Carla" "Chofer" 15 (Date.mk 2024 2 1) january)))
  = [1; 2; 3].
Proof.
  split; [|reflexivity].
  apply (x7_writes_keep_ids_ascending january january_ids_ascending).
Defined.

Lemma real_not_null_nan (x : float) :
  Sqlite.real_not_null x = None <-> PrimFloat.is_nan x = true.
Proof.
  unfold Sqlite.real_not_null. destruct (PrimFloat.is_nan x).
  - split; reflexivity.
  - destruct (PrimFloat.is_zero x); split; discriminate.
Qed.

(** How an entry write fails: the employee_id does not fit a signed
    64-bit integer and binding it raises OverflowError before the
    statement runs, or else the amount is NaN, which SQLite binds as
    NULL, and the NOT NULL column raises IntegrityError. *)
Definition entry_write_fails (employee_id : Z) (amount : float)
  (column : string) (e : error) : Prop :=
  (Sqlite.int64 employee_id = false /\
   e = OverflowError "Python int too large to convert to SQLite INTEGER") \/
  (Sqlite.int64 employee_id = true /\ PrimFloat.is_nan amount = true /\
   e = IntegrityError ("NOT NULL constraint failed: " ++ column)).

(** X8. add_work_hours and add_adjustment fail exactly when the
    employee_id is outside the signed 64-bit range (OverflowError, from
    binding the parameter) or, the id being in range, the amount is NaN
    (SQLite binds it as NULL and the column is NOT NULL:
    IntegrityError); nothing is committed then. Otherwise they succeed,
    whether or not the employee_id names an employee, and commit exactly
    one row, at the end of their own table, with that employee_id and
    the ISO text of the date; the other tables are untouched. *)
Theorem x8_entry_writes (employee_id : Z) (day : Date.date)
  (amount : float) (text kind : string) (db : database) :
  match add_work_hours employee_id day amount text db with
  | (Ok _, db') =>
      Sqlite.int64 employee_id = true /\
      PrimFloat.is_nan amount = false /\
      employees db' = employees db /\ adjustments db' = adjustments db /\
      exists row,
        work_hours db' = work_hours db ++ [row] /\
        WorkHours.employee_id row = employee_id /\
        WorkHours.work_date row = Date.isoformat day /\
        WorkHours.notes row = text
  | (Raise e, db') =>
      entry_write_fails employee_id amount "work_hours.hours" e /\ db' = db
  end /\
  match add_adjustment employee_id day kind amount text db with
  | (Ok _, db') =>
      Sqlite.int64 employee_id = true /\
      PrimFloat.is_nan amount = false /\
      employees db' = employees db /\ work_hours db' = work_hours db /\
      exists row,
        adjustments db' = adjustments db ++ [row] /\
        Adjustments.employee_id row = employee_id /\
        Adjustments.adjustment_date row = Date.isoformat day /\
        Adjustments.adjustment_type row = kind /\
        Adjustments.description row = text
  | (Raise e, db') =>
      entry_write_fails employee_id amount "adjustments.amount" e /\ db' = db
  end.
Proof.
  rewrite add_work_hours_outcome, add_adjustment_outcome.
  unfold entry_write_fails.
  destruct (Sqlite.int64 employee_id) eqn:Hid.
  - destruct (Sqlite.real_not_null amount) as [stored|] eqn:E.
    + assert (Hnan : PrimFloat.is_nan amount = false).
      { destruct (PrimFloat.is_nan amount) eqn:N; [|reflexivity].
        apply real_not_null_nan in N. congruence. }
      split; (split; [reflexivity|]); (split; [exact Hnan|]); repeat split;
        eexists; repeat split; reflexivity.
    + apply real_not_null_nan in E.
      split; (split; [right; repeat split; assumption|reflexivity]).
  - split; (split; [left; split; reflexivity|reflexivity]).
Qed.

(** ** A write followed by a read *)

Lemma between_dates (d start_date end_date : Date.date) :
  Date.valid d = true -> Date.valid start_date = true ->
  Date.valid end_date = true ->
  Date.leb start_date d = true -> Date.leb d end_date = true ->
  Sqlite.between (Date.isoformat d) (Date.isoformat start_date)
    (Date.isoformat end_date) = true.
Proof.
  intros Hd Hs He H1 H2. rewrite between_isoformat by assumption.
  rewrite H1, H2. reflexivity.
Qed.

(** X9. Hours logged with add_work_hours for an employee of the
    database (whose id is a signed 64-bit integer, as every id an
    INTEGER PRIMARY KEY column holds), on a date within
    [start_date, end_date], are in the result of load_work_hours for
    that range, under the new id, with the employee's name and the
    logged date, hours and notes. *)
Theorem x9_logged_hours_are_listed (order_by : sorter)
  (emp : Employees.row) (work_date start_date end_date : Date.date)
  (hours stored : float) (notes : string) (db : database) :
  In emp (employees db) ->
  Sqlite.int64 (Employees.id emp) = true ->
  Sqlite.real_not_null hours = Some stored ->
  Date.valid work_date = true -> Date.valid start_date = true ->
  Date.valid end_date = true ->
  Date.leb start_date work_date = true ->
  Date.leb work_date end_date = true ->
  match
    fst (load_work_hours order_by start_date end_date
           (snd (add_work_hours (Employees.id emp) work_date hours notes
                   db)))
  with
  | Ok rows =>
      In (HoursDetail.mk
            (Sqlite.next_rowid (map WorkHours.id (work_hours db)))
            (Employees.full_name emp) (Employees.id emp)
            (Date.isoformat work_date) stored notes) rows
  | Raise _ => False
  end.
Proof.
  intros Hemp Hid Hstored Hd Hs He H1 H2.
  rewrite (add_work_hours_commits _ _ _ stored) by assumption.
  cbn [snd fst load_work_hours read_sql_query].
  eapply Permutation_in; [apply sort_on_perm|].
  unfold select_work_hours. cbn [work_hours employees]. apply in_flat_map.
  eexists. split.
  - apply filter_In. split; [apply in_or_app; right; left; reflexivity|].
    cbn [WorkHours.work_date]. apply between_dates; assumption.
  - apply in_map_iff. exists emp. split; [reflexivity|].
    apply filter_In. split; [exact Hemp|apply Z.eqb_refl].
Qed.

Lemma x9_logged_hours_are_listed_witness :
  match
    fst (load_work_hours stable_sorter (Date.mk 2024 1 1) (Date.mk 2024 1 31)
           (snd (add_work_hours 2 (Date.mk 2024 1 15) 6 "turno" january)))
  with
  | Ok rows => In (HoursDetail.mk 3 "Berta" 2 "2024-01-15" 6 "turno") rows
  | Raise _ => False
  end.
Proof.
  apply (x9_logged_hours_are_listed stable_sorter
           (Employees.mk 2 "Berta" "Gerente" 20 "2021-06-15")
           (Date.mk 2024 1 15) (Date.mk 2024 1 1) (Date.mk 2024 1 31)
           6 6 "turno" january);
    try reflexivity.
  right. left. reflexivity.
Defined.

(** X10. An adjustment recorded with add_adjustment for an employee of
    the database (whose id is a signed 64-bit integer, as every id an
    INTEGER PRIMARY KEY column holds), on a date within
    [start_date, end_date], is in the result of load_adjustments for
    that range, under the new id, with the employee's name and the
    recorded date, type, amount and description. *)
Theorem x10_recorded_adjustment_is_listed (order_by : sorter)
  (emp : Employees.row) (adjustment_date start_date end_date : Date.date)
  (adjustment_type : string) (amount stored : float) (description : string)
  (db : database) :
  In emp (employees db) ->
  Sqlite.int64 (Employees.id emp) = true ->
  Sqlite.real_not_null amount = Some stored ->
  Date.valid adjustment_date = true -> Date.valid start_date = true ->
  Date.valid end_date = true ->
  Date.leb start_date adjustment_date = true ->
  Date.leb adjustment_date end_date = true ->
  match
    fst (load_adjustments order_by start_date end_date
           (snd (add_adjustment (Employees.id emp) adjustment_date
                   adjustment_type amount description db)))
  with
  | Ok rows =>
      In (AdjustmentDetail.mk
            (Sqlite.next_rowid (map Adjustments.id (adjustments db)))
            (Employees.full_name emp) (Employees.id emp)
            (Date.isoformat adjustment_date) adjustment_type stored
            description) rows
  | Raise _ => False
  end.
Proof.
  intros Hemp Hid Hstored Hd Hs He H1 H2.
  rewrite (add_adjustment_commits _ _ _ _ stored) by assumption.
  cbn [snd fst load_adjustments read_sql_query].
  eapply Permutation_in; [apply sort_on_perm|].
  unfold select_adjustments. cbn [adjustments employees]. apply in_flat_map.
  eexists. split.
  - apply filter_In. split; [apply in_or_app; right; left; reflexivity|].
    cbn [Adjustments.adjustment_date]. apply between_dates; assumption.
  - apply in_map_iff. exists emp. split; [reflexivity|].
    apply filter_In. split; [exact Hemp|apply Z.eqb_refl].
Qed.

Lemma x10_recorded_adjustment_is_listed_witness :
  match
    fst (load_adjustments stable_sorter (Date.mk 2024 1 1)
           (Date.mk 2024 1 31)
           (snd (add_adjustment 2 (Date.mk 2024 1 31) "deduction" 12
                   "uniforme" january)))
  with
  | Ok rows =>
      In (AdjustmentDetail.mk 3 "Berta" 2 "2024-01-31" "deduction" 12
            "uniforme") rows
  | Raise _ => False
  end.
Proof.
  apply (x10_recorded_adjustment_is_listed stable_sorter
           (Employees.mk 2 "Berta" "Gerente" 20 "2021-06-15")
           (Date.mk 2024 1 31) (Date.mk 2024 1 1) (Date.mk 2024 1 31)
           "deduction" 12 12 "uniforme" january);
    try reflexivity.
  right. left. reflexivity.
Defined.

Lemma group_values_snoc {X : Type} (key : X -> Z) (value : X -> float)
  (k : Z) (l : list X) (x : X) :
  group_values key value k (l ++ [x]) =
  group_values key value k l ++
  (if key x =? k then [value x] else []).
Proof.
  unfold group_values. rewrite filter_app, map_app. cbn.
  destruct (key x =? k); reflexivity.
Qed.

Lemma sum_snoc (values : list float) (v : float) :
  Sqlite.sum (values ++ [v]) = PrimFloat.add (Sqlite.sum values) v.
Proof. unfold Sqlite.sum. rewrite fold_left_app. reflexivity. Qed.

Lemma hours_summed_after_add (employee_id k : Z) (work_date : Date.date)
  (hours stored : float) (notes lo hi : string) (db : database) :
  Sqlite.int64 employee_id = true ->
  Sqlite.real_not_null hours = Some stored ->
  hours_summed lo hi
    (snd (add_work_hours employee_id work_date hours notes db)) k =
  hours_summed lo hi db k ++
  (if Sqlite.between (Date.isoformat work_date) lo hi &&
      (employee_id =? k)
   then [stored] else []).
Proof.
  intros Hid Hstored.
  rewrite (add_work_hours_commits _ _ _ stored) by assumption.
  unfold hours_summed, work_hours_in. cbn [snd work_hours].
  rewrite filter_app. cbn [filter WorkHours.work_date].
  destruct (Sqlite.between (Date.isoformat work_date) lo hi); cbn [andb].
  - rewrite group_values_snoc. reflexivity.
  - rewrite app_nil_r, app_nil_r. reflexivity.
Qed.

(** X11. After add_work_hours logs hours (not NaN) for an employee id
    that is a signed 64-bit integer, on a date within
    [start_date, end_date], the values the hours query of
    calculate_payroll sums for that employee over the range are the
    values it summed before followed by the stored hours, its row for
    the employee holds the SUM of that list, and it holds for every
    other employee what it held before. *)
Theorem x11_logged_hours_add_to_total (employee_id : Z)
  (work_date start_date end_date : Date.date) (hours stored : float)
  (notes : string) (db : database) :
  Sqlite.int64 employee_id = true ->
  Sqlite.real_not_null hours = Some stored ->
  Date.valid work_date = true -> Date.valid start_date = true ->
  Date.valid end_date = true ->
  Date.leb start_date work_date = true ->
  Date.leb work_date end_date = true ->
  let lo := Date.isoformat start_date in
  let hi := Date.isoformat end_date in
  let db' := snd (add_work_hours employee_id work_date hours notes db) in
  hours_summed lo hi db' employee_id =
    hours_summed lo hi db employee_id ++ [stored] /\
  In (employee_id,
      Sqlite.sum (hours_summed lo hi db employee_id ++ [stored]))
    (select_total_hours lo hi db') /\
  (forall k t,
      k <> employee_id ->
      (In (k, t) (select_total_hours lo hi db') <->
       In (k, t) (select_total_hours lo hi db))).
Proof.
  intros Hid Hstored Hd Hs He H1 H2 lo hi db'.
  pose proof (between_dates work_date start_date end_date Hd Hs He H1 H2)
    as Hin.
  fold lo hi in Hin.
  assert (Hsum : forall k,
             hours_summed lo hi db' k =
             hours_summed lo hi db k ++
             (if employee_id =? k then [stored] else [])).
  { intros k. unfold db'.
    rewrite (hours_summed_after_add _ _ _ _ stored) by assumption.
    rewrite Hin. reflexivity. }
  split; [|split].
  - rewrite Hsum, Z.eqb_refl. reflexivity.
  - apply lookup_in. rewrite select_total_hours_aggregate, Hsum.
    rewrite Z.eqb_refl.
    destruct (hours_summed lo hi db employee_id); reflexivity.
  - intros k t Hk.
    assert (E : lookup k (select_total_hours lo hi db') =
                lookup k (select_total_hours lo hi db)).
    { rewrite !select_total_hours_aggregate, Hsum.
      destruct (Z.eqb_spec employee_id k); [congruence|].
      rewrite app_nil_r. reflexivity. }
    split; intros H; apply lookup_in;
      apply keys_ascending_lookup in H;
      try (unfold select_total_hours; apply group_sum_ascending);
      congruence.
Qed.

Lemma x11_logged_hours_add_to_total_witness :
  In (1, 16%float)
    (select_total_hours "2024-01-01" "2024-01-31"
       (snd (add_work_hours 1 (Date.mk 2024 1 15) 6 "" january))) /\
  hours_summed "2024-01-01" "2024-01-31" january 1 = [8%float; 2%float].
Proof.
  split; [|reflexivity].
  destruct (x11_logged_hours_add_to_total 1 (Date.mk 2024 1 15)
              (Date.mk 2024 1 1) (Date.mk 2024 1 31) 6 6 "" january)
    as (_ & H & _); try reflexivity.
  exact H.
Defined.

(** X12. Hours logged or an adjustment recorded on a date outside
    [start_date, end_date] leave the report of calculate_payroll for
    that range as it was. *)
Theorem x12_writes_outside_range (sort_values : sorter)
  (employee_id : Z) (day start_date end_date : Date.date) (amount : float)
  (kind text : string) (db : database) :
  Date.valid day = true -> Date.valid start_date = true ->
  Date.valid end_date = true ->
  Date.leb start_date day && Date.leb day end_date = false ->
  fst (calculate_payroll sort_values start_date end_date
         (snd (add_work_hours employee_id day amount text db))) =
  fst (calculate_payroll sort_values start_date end_date db) /\
  fst (calculate_payroll sort_values start_date end_date
         (snd (add_adjustment employee_id day kind amount text db))) =
  fst (calculate_payroll sort_values start_date end_date db).
Proof.
  intros Hd Hs He Hout.
  assert (Hbetween :
            Sqlite.between (Date.isoformat day) (Date.isoformat start_date)
              (Date.isoformat end_date) = false)
    by (rewrite between_isoformat by assumption; exact Hout).
  rewrite !calculate_payroll_returns. cbn [fst].
  rewrite add_work_hours_outcome, add_adjustment_outcome.
  destruct (Sqlite.int64 employee_id); [|split; reflexivity].
  destruct (Sqlite.real_not_null amount); cbn [snd]; [|split; reflexivity].
  unfold report_rows, select_roster, select_total_hours,
    select_adjustment_total.
  cbn [employees work_hours adjustments].
  rewrite !filter_app. cbn [filter WorkHours.work_date
    Adjustments.adjustment_date].
  rewrite Hbetween. cbn [andb]. rewrite !app_nil_r.
  split; reflexivity.
Qed.

Lemma x12_writes_outside_range_witness :
  fst (calculate_payroll stable_sorter (Date.mk 2024 1 1) (Date.mk 2024 1 31)
         (snd (add_work_hours 1 (Date.mk 2024 2 1) 8 "" january))) =
  fst (calculate_payroll stable_sorter (Date.mk 2024 1 1) (Date.mk 2024 1 31)
         january) /\
  fst (calculate_payroll stable_sorter (Date.mk 2024 1 1) (Date.mk 2024 1 31)
         (snd (add_adjustment 1 (Date.mk 2023 12 31) "bonus" 8 "" january))) =
  fst (calculate_payroll stable_sorter (Date.mk 2024 1 1) (Date.mk 2024 1 31)
         january).
Proof.
  split.
  - apply (x12_writes_outside_range stable_sorter 1 (Date.mk 2024 2 1)
             (Date.mk 2024 1 1) (Date.mk 2024 1 31) 8 "bonus" "" january);
      reflexivity.
  - apply (x12_writes_outside_range stable_sorter 1 (Date.mk 2023 12 31)
             (Date.mk 2024 1 1) (Date.mk 2024 1 31) 8 "bonus" "" january);
      reflexivity.
Defined.

(** ** load_work_hours and load_adjustments *)

(** X13. load_work_hours returns its rows in ascending order of
    work_date, and a row is returned exactly when it is a work-hour
    entry whose date text is within the range, joined with an employee
    whose id is the entry's employee_id; an entry without such an
    employee is not listed. *)
Theorem x13_load_work_hours_rows (order_by : sorter)
  (start_date end_date : Date.date) (db : database) :
  match fst (load_work_hours order_by start_date end_date db) with
  | Ok rows =>
      StronglySorted (key_le HoursDetail.work_date) rows /\
      forall r,
        In r rows <->
        exists w emp,
          In w (work_hours db) /\ In emp (employees db) /\
          Employees.id emp = WorkHours.employee_id w /\
          Sqlite.between (WorkHours.work_date w)
            (Date.isoformat start_date) (Date.isoformat end_date) = true /\
          r = HoursDetail.mk (WorkHours.id w) (Employees.full_name emp)
                (WorkHours.employee_id w) (WorkHours.work_date w)
                (WorkHours.hours w) (WorkHours.notes w)
  | Raise _ => False
  end.
Proof.
  cbn [fst load_work_hours read_sql_query]. split.
  { apply sorted_strongly, sort_on_sorted. }
  intros r. split.
  - intros Hr.
    apply (Permutation_in _ (Permutation_sym (sort_on_perm order_by _ _ _)))
      in Hr.
    unfold select_work_hours in Hr. apply in_flat_map in Hr.
    destruct Hr as [w [Hw Hr]]. apply filter_In in Hw. destruct Hw as [Hw Hb].
    apply in_map_iff in Hr. destruct Hr as [emp [<- Hemp]].
    apply filter_In in Hemp. destruct Hemp as [Hemp Hid].
    exists w, emp. repeat split; try assumption. apply Z.eqb_eq, Hid.
  - intros (w & emp & Hw & Hemp & Hid & Hb & ->).
    eapply Permutation_in; [apply sort_on_perm|].
    unfold select_work_hours. apply in_flat_map. exists w. split.
    + apply filter_In. split; assumption.
    + apply in_map_iff. exists emp. split; [reflexivity|].
      apply filter_In. split; [exact Hemp|apply Z.eqb_eq, Hid].
Qed.

(** X14. load_adjustments returns its rows in ascending order of
    adjustment_date, and a row is returned exactly when it is an
    adjustment, of any type, whose date text is within the range,
    joined with an employee whose id is the adjustment's employee_id. *)
Theorem x14_load_adjustments_rows (order_by : sorter)
  (start_date end_date : Date.date) (db : database) :
  match fst (load_adjustments order_by start_date end_date db) with
  | Ok rows =>
      StronglySorted (key_le AdjustmentDetail.adjustment_date) rows /\
      forall r,
        In r rows <->
        exists a emp,
          In a (adjustments db) /\ In emp (employees db) /\
          Employees.id emp = Adjustments.employee_id a /\
          Sqlite.between (Adjustments.adjustment_date a)
            (Date.isoformat start_date) (Date.isoformat end_date) = true /\
          r = AdjustmentDetail.mk (Adjustments.id a)
                (Employees.full_name emp) (Adjustments.employee_id a)
                (Adjustments.adjustment_date a)
                (Adjustments.adjustment_type a) (Adjustments.amount a)
                (Adjustments.description a)
  | Raise _ => False
  end.
Proof.
  cbn [fst load_adjustments read_sql_query]. split.
  { apply sorted_strongly, sort_on_sorted. }
  intros r. split.
  - intros Hr.
    apply (Permutation_in _ (Permutation_sym (sort_on_perm order_by _ _ _)))
      in Hr.
    unfold select_adjustments in Hr. apply in_flat_map in Hr.
    destruct Hr as [a [Ha Hr]]. apply filter_In in Ha. destruct Ha as [Ha Hb].
    apply in_map_iff in Hr. destruct Hr as [emp [<- Hemp]].
    apply filter_In in Hemp. destruct Hemp as [Hemp Hid].
    exists a, emp. repeat split; try assumption. apply Z.eqb_eq, Hid.
  - intros (a & emp & Ha & Hemp & Hid & Hb & ->).
    eapply Permutation_in; [apply sort_on_perm|].
    unfold select_adjustments. apply in_flat_map. exists a. split.
    + apply filter_In. split; assumption.
    + apply in_map_iff. exists emp. split; [reflexivity|].
      apply filter_In. split; [exact Hemp|apply Z.eqb_eq, Hid].
Qed.

Lemma filter_none_in {X : Type} (f : X -> bool) (l : list X) :
  (forall x, In x l -> f x = false) -> filter f l = [].
Proof.
  induction l as [|x l IH]; cbn; intros H; [reflexivity|].
  rewrite (H x) by (left; reflexivity). apply IH. intros y Hy.
  apply H. right. exact Hy.
Qed.

Lemma unique_id_matches (k : Z) (emps : list Employees.row) :
  StronglySorted Z.lt (map Employees.id emps) ->
  List.length (filter (fun e => Employees.id e =? k) emps) =
  if existsb (fun e => Employees.id e =? k) emps then 1%nat else 0%nat.
Proof.
  induction emps as [|e emps IH]; cbn; intros H; [reflexivity|].
  inversion H as [|? ? Hrest Hall]; subst.
  destruct (Z.eqb_spec (Employees.id e) k) as [E|_]; cbn; [|auto].
  rewrite filter_none_in; [reflexivity|].
  intros e' Hin. apply Z.eqb_neq.
  rewrite Forall_forall in Hall.
  specialize (Hall _ (in_map Employees.id _ _ Hin)). lia.
Qed.

Lemma flat_map_length_filter {X Y : Type} (f : X -> list Y) (p : X -> bool)
  (l : list X) :
  (forall x, List.length (f x) = if p x then 1%nat else 0%nat) ->
  List.length (flat_map f l) = List.length (filter p l).
Proof.
  intros H. induction l as [|x l IH]; cbn; [reflexivity|].
  rewrite length_app, H, IH. destruct (p x); reflexivity.
Qed.

(** X15. When no two employees share an id, the join of load_work_hours
    and of load_adjustments yields exactly one row for each in-range
    entry whose employee_id is the id of an employee, and none for the
    others. *)
Theorem x15_load_one_row_per_entry (order_by : sorter)
  (start_date end_date : Date.date) (db : database) :
  StronglySorted Z.lt (map Employees.id (employees db)) ->
  match fst (load_work_hours order_by start_date end_date db) with
  | Ok rows =>
      List.length rows =
      List.length
        (filter (fun w => employee_exists db (WorkHours.employee_id w))
           (work_hours_in (Date.isoformat start_date)
              (Date.isoformat end_date) db))
  | Raise _ => False
  end /\
  match fst (load_adjustments order_by start_date end_date db) with
  | Ok rows =>
      List.length rows =
      List.length
        (filter (fun a => employee_exists db (Adjustments.employee_id a))
           (adjustments_in (Date.isoformat start_date)
              (Date.isoformat end_date) db))
  | Raise _ => False
  end.
Proof.
  intros Hids.
  cbn [fst load_work_hours load_adjustments read_sql_query]. split.
  - rewrite <- (Permutation_length (sort_on_perm order_by _ _ _)).
    unfold select_work_hours. apply flat_map_length_filter. intros w.
    rewrite length_map. apply unique_id_matches, Hids.
  - rewrite <- (Permutation_length (sort_on_perm order_by _ _ _)).
    unfold select_adjustments. apply flat_map_length_filter. intros a.
    rewrite length_map. apply unique_id_matches, Hids.
Qed.

Lemma x15_load_one_row_per_entry_witness :
  match
    fst (load_work_hours stable_sorter (Date.mk 2024 1 1) (Date.mk 2024 1 31)
           january_with_orphans)
  with
  | Ok rows => List.length rows = 2%nat
  | Raise _ => False
  end /\
  match
    fst (load_adjustments stable_sorter (Date.mk 2024 1 1)
           (Date.mk 2024 1 31) january_with_orphans)
  with
  | Ok rows => List.length rows = 2%nat
  | Raise _ => False
  end.
Proof.
  apply (x15_load_one_row_per_entry stable_sorter (Date.mk 2024 1 1)
           (Date.mk 2024 1 31) january_with_orphans).
  cbn. repeat constructor.
Defined.

(** X16. For valid dates with start_date > end_date, load_work_hours and
    load_adjustments return no row. *)
Theorem x16_load_reversed_range (order_by : sorter)
  (start_date end_date : Date.date) (db : database) :
  Date.valid start_date = true -> Date.valid end_date = true ->
  Date.gtb start_date end_date = true ->
  fst (load_work_hours order_by start_date end_date db) = Ok [] /\
  fst (load_adjustments order_by start_date end_date db) = Ok [].
Proof.
  intros Hs He Hgt.
  assert (Hrev : Sqlite.text_le (Date.isoformat start_date)
                   (Date.isoformat end_date) = false).
  { rewrite isoformat_leb by assumption.
    rewrite gtb_spec in Hgt. destruct (Date.leb start_date end_date);
      [discriminate|reflexivity]. }
  cbn [fst load_work_hours load_adjustments read_sql_query].
  unfold select_work_hours, select_adjustments.
  rewrite !filter_all_false by (intros; apply between_reversed, Hrev).
  cbn [flat_map]. rewrite !sort_on_nil. split; reflexivity.
Qed.

Lemma x16_load_reversed_range_witness :
  fst (load_work_hours stable_sorter (Date.mk 2024 1 31) (Date.mk 2024 1 1)
         january) = Ok [] /\
  fst (load_adjustments stable_sorter (Date.mk 2024 1 31) (Date.mk 2024 1 1)
         january) = Ok [].
Proof.
  apply (x16_load_reversed_range stable_sorter (Date.mk 2024 1 31)
           (Date.mk 2024 1 1) january); reflexivity.
Defined.

(** ** render_payroll_section on a range in order *)

(** X17. For start_date <= end_date, render_payroll_section never
    fails and leaves the database as it was. It draws the message "No
    hay movimientos para el rango seleccionado." exactly when the
    database has no employee, whatever entries the range holds;
    otherwise it draws the report of calculate_payroll, which has at
    least one row per employee (exactly one when every employee id is a
    safe integer, below 2^53 in absolute value), and the metric over its
    net_pay column. *)
Theorem x17_render_payroll_section_in_order (sort_values order_by : sorter)
  (start_date end_date : Date.date) (db : database) :
  Date.gtb start_date end_date = false ->
  exists page,
    render_payroll_section sort_values order_by start_date end_date db =
      (Ok page, db) /\
    (In (St_info "No hay movimientos para el rango seleccionado.") page <->
     employees db = []) /\
    (employees db <> [] ->
     exists rows,
       fst (calculate_payroll sort_values start_date end_date db) = Ok rows /\
       (List.length (employees db) <= List.length rows)%nat /\
       (safe_ids db -> List.length rows = List.length (employees db)) /\
       In (St_dataframe rows) page /\
       In (St_metric "Total a depositar" (map Payroll.net_pay rows)) page).
Proof.
  intros Hgt. unfold render_payroll_section. rewrite Hgt. unfold bind.
  rewrite calculate_payroll_returns.
  destruct (employees db) as [|emp emps] eqn:E.
  - eexists. split; [reflexivity|]. split.
    + split; [reflexivity|]. intros _. right. left. reflexivity.
    + intros H. congruence.
  - assert (Hlen :
              (List.length (emp :: emps) <=
               List.length
                 (sort_on sort_values Payroll.full_name
                    (report_rows (Date.isoformat start_date)
                       (Date.isoformat end_date) db)))%nat).
    { rewrite <- (Permutation_length (sort_on_perm sort_values _ _ _)).
      unfold report_rows. rewrite length_map.
      etransitivity; [|apply merge_frames_length].
      unfold select_roster. rewrite length_map, E. reflexivity. }
    assert (Hsafe :
              safe_ids db ->
              List.length
                (sort_on sort_values Payroll.full_name
                   (report_rows (Date.isoformat start_date)
                      (Date.isoformat end_date) db)) =
              List.length (emp :: emps)).
    { intros Hsafe.
      rewrite <- (Permutation_length (sort_on_perm sort_values _ _ _)).
      rewrite report_rows_per_employee by exact Hsafe.
      rewrite length_map, E. reflexivity. }
    destruct (sort_on sort_values Payroll.full_name
                (report_rows (Date.isoformat start_date)
                   (Date.isoformat end_date) db)) as [|r rows] eqn:S;
      [cbn [List.length] in Hlen; lia|].
    cbn [load_work_hours load_adjustments read_sql_query ret].
    eexists. split; [reflexivity|]. split.
    + split; [|discriminate]. cbn [app In].
      intros [H|[H|[H|[H|[H|[]]]]]]; discriminate.
    + intros _. exists (r :: rows). split; [reflexivity|].
      split; [exact Hlen|]. split; [exact Hsafe|]. split.
      * right. left. reflexivity.
      * right. right. left. reflexivity.
Qed.

Lemma x17_render_payroll_section_in_order_witness :
  exists page,
    render_payroll_section stable_sorter stable_sorter (Date.mk 2024 1 1)
      (Date.mk 2024 1 31) january = (Ok page, january) /\
    In (St_metric "Total a depositar" [145%float; 0%float]) page.
Proof.
  destruct (x17_render_payroll_section_in_order stable_sorter stable_sorter
              (Date.mk 2024 1 1) (Date.mk 2024 1 31) january)
    as (page & Hrun & _ & Hrows); [reflexivity|].
  exists page. split; [exact Hrun|].
  destruct Hrows as (rows & Hcalc & _ & _ & _ & Hmetric); [discriminate|].
  injection Hcalc as <-. exact Hmetric.
Defined.

(* ================================================================= *)
(** * The entry sections, init_db and main *)

(** ** The script: a database, a page, and exceptions *)

(** What ends a run of the script: an error of a statement
    (sqlite3.IntegrityError, or OverflowError from binding), the
    IndexError of [.iloc[0]] on an empty selection, the OperationalError
    of a query on a table that does not exist. *)
Inductive exception : Type :=
| Sqlite3_error (e : error)
| IndexError
| OperationalError (message : string).

Inductive outcome (A : Type) : Type :=
| Returned (value : A)
| Raised (exc : exception).

Arguments Returned {A} _.
Arguments Raised {A} _.

(** What the entry sections and main draw, besides the widgets of the
    payroll section. *)
Inductive element : Type :=
| El_title (text : string)
| El_write (text : string)
| El_divider
| El_subheader (text : string)
| El_error (text : string)
| El_success (text : string)
| El_info (text : string)
| El_employees (rows : list Employees.row)
| El_payroll (w : widget).

(** The database and the page drawn so far. *)
Record world : Type := mk_world {
  store : database;
  screen : list element
}.

Definition script (A : Type) : Type := world -> outcome A * world.

Definition script_ret {A : Type} (a : A) : script A :=
  fun w => (Returned a, w).

Definition script_bind {A B : Type} (c : script A) (k : A -> script B)
  : script B :=
  fun w =>
    match c w with
    | (Returned a, w') => k a w'
    | (Raised exc, w') => (Raised exc, w')
    end.

Notation "x <-- c ;; k" := (script_bind c (fun x => k))
  (at level 61, c at next level, right associativity).

Definition raise {A : Type} (exc : exception) : script A :=
  fun w => (Raised exc, w).

(** A call of one of the database functions. *)
Definition run_sql {A : Type} (c : sql A) : script A :=
  fun w =>
    match c (store w) with
    | (Ok a, db) => (Returned a, mk_world db (screen w))
    | (Raise e, db) => (Raised (Sqlite3_error e), mk_world db (screen w))
    end.

(** A call of [st.title], [st.subheader], [st.error], ... *)
Definition draw (elements : list element) : script unit :=
  fun w => (Returned tt, mk_world (store w) (screen w ++ elements)).

(** ** The forms: what their widgets hold when the script runs *)

Module EmployeeForm.
Record inputs : Type := mk {
  full_name : string;
  role_title : string;
  hourly_rate : float;
  start_date : Date.date;
  submitted : bool
}.
End EmployeeForm.

Module HoursForm.
Record inputs : Type := mk {
  employee_label : string;
  work_date : Date.date;
  hours : float;
  notes : string;
  submitted : bool
}.
End HoursForm.

Module AdjustmentsForm.
Record inputs : Type := mk {
  employee_label : string;
  adjustment_date : Date.date;
  adjustment_type : string;
  amount : float;
  description : string;
  submitted : bool
}.
End AdjustmentsForm.

(** [not text] for a Python str. *)
Definition is_empty (text : string) : bool := String.eqb text "".

Definition render_employee_section (employees : list Employees.row)
  (form : EmployeeForm.inputs) : script unit :=
  _ <-- draw [El_subheader "Registrar empleado"] ;;
  _ <--
    (if EmployeeForm.submitted form then
       if is_empty (EmployeeForm.full_name form) ||
          is_empty (EmployeeForm.role_title form)
       then draw [El_error "Completa el nombre y el puesto para continuar."]
       else
         _ <--
           run_sql
             (add_employee (EmployeeForm.full_name form)
                (EmployeeForm.role_title form)
                (EmployeeForm.hourly_rate form)
                (EmployeeForm.start_date form)) ;;
         draw [El_success "Empleado registrado."]
     else script_ret tt) ;;
  match employees with
  | [] => script_ret tt
  | _ => draw [El_employees employees]
  end.

(** [int(employees.loc[employees["full_name"] == employee_label,
    "id"].iloc[0])] *)
Definition employee_id_of_label (employees : list Employees.row)
  (employee_label : string) : script Z :=
  match
    filter (fun e => String.eqb (Employees.full_name e) employee_label)
      employees
  with
  | [] => raise IndexError
  | e :: _ => script_ret (Employees.id e)
  end.

Definition render_hours_section (employees : list Employees.row)
  (form : HoursForm.inputs) : script unit :=
  _ <-- draw [El_subheader "Registrar horas trabajadas"] ;;
  match employees with
  | [] => draw [El_info "Primero registra al menos un empleado."]
  | _ =>
      if HoursForm.submitted form then
        employee_id <--
          employee_id_of_label employees (HoursForm.employee_label form) ;;
        _ <--
          run_sql
            (add_work_hours employee_id (HoursForm.work_date form)
               (HoursForm.hours form) (HoursForm.notes form)) ;;
        draw [El_success "Horas registradas."]
      else script_ret tt
  end.

Definition render_adjustments_section (employees : list Employees.row)
  (form : AdjustmentsForm.inputs) : script unit :=
  _ <-- draw [El_subheader "Registrar bonificaciones o deducciones"] ;;
  match employees with
  | [] => draw [El_info "Primero registra al menos un empleado."]
  | _ =>
      if AdjustmentsForm.submitted form then
        employee_id <--
          employee_id_of_label employees
            (AdjustmentsForm.employee_label form) ;;
        _ <--
          run_sql
            (add_adjustment employee_id
               (AdjustmentsForm.adjustment_date form)
               (AdjustmentsForm.adjustment_type form)
               (AdjustmentsForm.amount form)
               (AdjustmentsForm.description form)) ;;
        draw [El_success "Movimiento registrado."]
      else script_ret tt
  end.

(** ** init_db and main *)

(** The database file: each table with its rows, or not created yet. *)
Record db_file : Type := mk_file {
  employees_table : option (list Employees.row);
  work_hours_table : option (list WorkHours.row);
  adjustments_table : option (list Adjustments.row)
}.

(** The file [sqlite3.connect] creates when there is none. *)
Definition new_file : db_file := mk_file None None None.

(** CREATE TABLE IF NOT EXISTS *)
Definition create_table_if_not_exists {A : Type} (table : option (list A))
  : option (list A) :=
  match table with
  | Some rows => Some rows
  | None => Some []
  end.

Definition init_db (file : db_file) : db_file :=
  mk_file (create_table_if_not_exists (employees_table file))
    (create_table_if_not_exists (work_hours_table file))
    (create_table_if_not_exists (adjustments_table file)).

(** The tables of a file that has the three of them. *)
Definition tables (file : db_file) : option database :=
  match employees_table file, work_hours_table file, adjustments_table file
  with
  | Some e, Some w, Some a => Some (mk_database e w a)
  | _, _, _ => None
  end.

Definition file_of (db : database) : db_file :=
  mk_file (Some (employees db)) (Some (work_hours db))
    (Some (adjustments db)).

(** What the widgets of the page hold in one run of the script. *)
Record inputs : Type := mk_inputs {
  employee_form : EmployeeForm.inputs;
  hours_form : HoursForm.inputs;
  adjustments_form : AdjustmentsForm.inputs;
  payroll_start : Date.date;
  payroll_end : Date.date
}.

(** The title and the text main draws first. *)
Definition heading : list element :=
  [El_title "Gestor de empleados y n贸mina";
   El_write
     "Administra empleados, registra horas, bonificaciones y deducciones, y calcula la n贸mina por quincena."].

(** main from load_employees on: the employees are loaded once, before
    the sections run. *)
Definition main_page (sort_values order_by : sorter) (given : inputs)
  : script unit :=
  employees <-- run_sql load_employees ;;
  _ <-- render_employee_section employees (employee_form given) ;;
  _ <-- draw [El_divider] ;;
  _ <-- render_hours_section employees (hours_form given) ;;
  _ <-- draw [El_divider] ;;
  _ <-- render_adjustments_section employees (adjustments_form given) ;;
  _ <-- draw [El_divider] ;;
  widgets <--
    run_sql
      (render_payroll_section sort_values order_by (payroll_start given)
         (payroll_end given)) ;;
  draw (map El_payroll widgets).

Definition main (sort_values order_by : sorter) (given : inputs)
  (file : db_file) : outcome unit * (db_file * list element) :=
  let file := init_db file in
  match tables file with
  | Some db =>
      let (r, w) :=
        main_page sort_values order_by given (mk_world db heading) in
      (r, (file_of (store w), screen w))
  | None => (Raised (OperationalError "no such table"), (file, heading))
  end.

(* ================================================================= *)
(** * Properties of the entry sections, init_db and main *)

(** ** A property of the database that a script keeps *)

Definition keeps {A : Type} (P : database -> Prop) (c : script A) : Prop :=
  forall w, P (store w) -> P (store (snd (c w))).

Lemma keeps_ret {A : Type} (P : database -> Prop) (a : A) :
  keeps P (script_ret a).
Proof. intros w H. exact H. Qed.

Lemma keeps_raise {A : Type} (P : database -> Prop) (exc : exception) :
  keeps P (@raise A exc).
Proof. intros w H. exact H. Qed.

Lemma keeps_draw (P : database -> Prop) (elements : list element) :
  keeps P (draw elements).
Proof. intros w H. exact H. Qed.

Lemma keeps_bind {A B : Type} (P : database -> Prop) (c : script A)
  (k : A -> script B) :
  keeps P c -> (forall a, keeps P (k a)) -> keeps P (script_bind c k).
Proof.
  intros Hc Hk w H. unfold script_bind. specialize (Hc w H).
  destruct (c w) as [[a|exc] w']; cbn in *; [apply Hk; exact Hc|exact Hc].
Qed.

Lemma keeps_run_sql {A : Type} (P : database -> Prop) (c : sql A) :
  (forall db, P db -> P (snd (c db))) -> keeps P (run_sql c).
Proof.
  intros Hc w H. unfold run_sql. specialize (Hc (store w) H).
  destruct (c (store w)) as [[a|e] db]; exact Hc.
Qed.

Lemma keeps_read_only {A : Type} (P : database -> Prop) (c : sql A) :
  read_only c -> keeps P (run_sql c).
Proof.
  intros Hc. apply keeps_run_sql. intros db H. rewrite Hc. exact H.
Qed.

Lemma render_payroll_section_read_only (sort_values order_by : sorter)
  (start_date end_date : Date.date) :
  read_only (render_payroll_section sort_values order_by start_date end_date).
Proof.
  unfold render_payroll_section.
  destruct (Date.gtb start_date end_date); [apply read_only_ret|].
  apply read_only_bind; [apply calculate_payroll_read_only|].
  intros [|r rows]; [apply read_only_ret|].
  apply read_only_bind; [apply read_only_read_sql_query|intros hours].
  apply read_only_bind; [apply read_only_read_sql_query|intros adjustments].
  apply read_only_ret.
Qed.

(** ** Every entry names an employee *)

(** Every work-hour entry and every adjustment has the id of an
    employee of the database. *)
Definition referential (db : database) : Prop :=
  Forall (fun w => employee_exists db (WorkHours.employee_id w) = true)
    (work_hours db) /\
  Forall (fun a => employee_exists db (Adjustments.employee_id a) = true)
    (adjustments db).

(** The same, and the employees of a frame loaded earlier are still
    employees of the database. *)
Definition referential_with (frame : list Employees.row) (db : database)
  : Prop :=
  referential db /\
  Forall (fun e => employee_exists db (Employees.id e) = true) frame.

Lemma employee_exists_after_add (full_name role_title : string)
  (hourly_rate : float) (start_date : Date.date) (db : database) (k : Z) :
  employee_exists db k = true ->
  employee_exists
    (snd (add_employee full_name role_title hourly_rate start_date db)) k
  = true.
Proof.
  intros H. unfold add_employee, execute, insert_employee.
  destruct (Sqlite.real_not_null hourly_rate); cbn [snd]; [|exact H].
  unfold employee_exists in *. cbn [employees].
  rewrite existsb_app, H. reflexivity.
Qed.

Lemma add_employee_referential (frame : list Employees.row)
  (full_name role_title : string) (hourly_rate : float)
  (start_date : Date.date) (db : database) :
  referential_with frame db ->
  referential_with frame
    (snd (add_employee full_name role_title hourly_rate start_date db)).
Proof.
  intros [[Hw Ha] Hf].
  assert (Hsame :
            work_hours
              (snd (add_employee full_name role_title hourly_rate start_date
                      db)) = work_hours db /\
            adjustments
              (snd (add_employee full_name role_title hourly_rate start_date
                      db)) = adjustments db).
  { unfold add_employee, execute, insert_employee.
    destruct (Sqlite.real_not_null hourly_rate); split; reflexivity. }
  destruct Hsame as [Ew Ea].
  split; [split|].
  - rewrite Ew. eapply Forall_impl; [|exact Hw].
    intros w. apply employee_exists_after_add.
  - rewrite Ea. eapply Forall_impl; [|exact Ha].
    intros a. apply employee_exists_after_add.
  - eapply Forall_impl; [|exact Hf].
    intros e. apply employee_exists_after_add.
Qed.

Lemma add_work_hours_referential (frame : list Employees.row)
  (employee_id : Z) (work_date : Date.date) (hours : float) (notes : string)
  (db : database) :
  employee_exists db employee_id = true ->
  referential_with frame db ->
  referential_with frame
    (snd (add_work_hours employee_id work_date hours notes db)).
Proof.
  intros Hk [[Hw Ha] Hf]. rewrite add_work_hours_outcome.
  destruct (Sqlite.int64 employee_id); [|split; [split|]; assumption].
  destruct (Sqlite.real_not_null hours); cbn [snd];
    [|split; [split|]; assumption].
  split; [split|]; [|exact Ha|exact Hf].
  cbn [work_hours]. apply Forall_app. split; [exact Hw|].
  constructor; [exact Hk|constructor].
Qed.

Lemma add_adjustment_referential (frame : list Employees.row)
  (employee_id : Z) (adjustment_date : Date.date)
  (adjustment_type : string) (amount : float) (description : string)
  (db : database) :
  employee_exists db employee_id = true ->
  referential_with frame db ->
  referential_with frame
    (snd (add_adjustment employee_id adjustment_date adjustment_type amount
            description db)).
Proof.
  intros Hk [[Hw Ha] Hf]. rewrite add_adjustment_outcome.
  destruct (Sqlite.int64 employee_id); [|split; [split|]; assumption].
  destruct (Sqlite.real_not_null amount); cbn [snd];
    [|split; [split|]; assumption].
  split; [split|]; [exact Hw| |exact Hf].
  cbn [adjustments]. apply Forall_app. split; [exact Ha|].
  constructor; [exact Hk|constructor].
Qed.

(** The id found for a label is the id of the first employee of the
    frame with that name. *)
Lemma first_with_name (frame : list Employees.row) (label : string) :
  match
    filter (fun e => String.eqb (Employees.full_name e) label) frame
  with
  | [] => ~ In label (map Employees.full_name frame)
  | e :: _ =>
      exists before after,
        frame = before ++ e :: after /\
        Employees.full_name e = label /\
        ~ In label (map Employees.full_name before)
  end.
Proof.
  induction frame as [|x frame IH]; cbn; [tauto|].
  destruct (String.eqb_spec (Employees.full_name x) label) as [E|N].
  - exists [], frame. repeat split; [exact E|]. cbn. tauto.
  - destruct (filter _ frame) as [|e rest].
    + intros [H|H]; [congruence|tauto].
    + destruct IH as (before & after & -> & Hname & Hnot).
      exists (x :: before), after. repeat split; [exact Hname|].
      cbn. intros [H|H]; [congruence|tauto].
Qed.

(** ** The entry sections *)

(** The table of employees the section draws: the frame it was given,
    when not empty. *)
Definition employees_drawn (frame : list Employees.row) : list element :=
  match frame with
  | [] => []
  | _ => [El_employees frame]
  end.

(** X18. render_employee_section registers an employee exactly when
    the form is submitted with a non-empty name and a non-empty role:
    then add_employee commits the row with the next id and the success
    message is drawn (a NaN rate ends the run with the sqlite3 error and
    nothing committed). Submitted with an empty name or role, it draws
    the error message and leaves the database as it was, as it does
    when not submitted. The table it draws is the frame it was given,
    without the employee just registered. *)
Theorem x18_render_employee_section (frame : list Employees.row)
  (form : EmployeeForm.inputs) (w : world) :
  let registers :=
    EmployeeForm.submitted form &&
    negb (is_empty (EmployeeForm.full_name form) ||
          is_empty (EmployeeForm.role_title form)) in
  match render_employee_section frame form w with
  | (Returned _, w') =>
      (registers = true ->
       exists stored,
         Sqlite.real_not_null (EmployeeForm.hourly_rate form) = Some stored /\
         store w' =
           mk_database
             (employees (store w) ++
                [Employees.mk
                   (Sqlite.next_rowid
                      (map Employees.id (employees (store w))))
                   (EmployeeForm.full_name form)
                   (EmployeeForm.role_title form) stored
                   (Date.isoformat (EmployeeForm.start_date form))])
             (work_hours (store w)) (adjustments (store w)) /\
         screen w' =
           screen w ++
           [El_subheader "Registrar empleado";
            El_success "Empleado registrado."] ++ employees_drawn frame) /\
      (registers = false ->
       store w' = store w /\
       screen w' =
         screen w ++ [El_subheader "Registrar empleado"] ++
         (if EmployeeForm.submitted form
          then [El_error "Completa el nombre y el puesto para continuar."]
          else []) ++ employees_drawn frame)
  | (Raised exc, w') =>
      registers = true /\
      PrimFloat.is_nan (EmployeeForm.hourly_rate form) = true /\
      store w' = store w
  end.
Proof.
  cbv zeta.
  unfold render_employee_section, script_bind, draw, run_sql, script_ret,
    add_employee, execute, insert_employee.
  cbn [store screen].
  destruct (EmployeeForm.submitted form); cbn [andb].
  - destruct (is_empty (EmployeeForm.full_name form) ||
              is_empty (EmployeeForm.role_title form)); cbn [negb].
    + cbn [store screen]. destruct frame; cbn [store screen];
        (split; [discriminate|]); intros _; split; try reflexivity;
        rewrite <- ?app_assoc; cbn [app employees_drawn];
        rewrite ?app_nil_r; reflexivity.
    + destruct (Sqlite.real_not_null (EmployeeForm.hourly_rate form))
        as [stored|] eqn:E; cbn [store screen].
      * destruct frame; cbn [store screen];
          (split; [|discriminate]); intros _; exists stored;
          (split; [reflexivity|]); (split; [reflexivity|]);
          rewrite <- ?app_assoc; cbn [app employees_drawn];
          rewrite ?app_nil_r; reflexivity.
      * split; [reflexivity|]. split; [|reflexivity].
        apply real_not_null_nan, E.
  - destruct frame; cbn [store screen];
      (split; [discriminate|]); intros _; split; try reflexivity;
      rewrite <- ?app_assoc; cbn [app employees_drawn];
      rewrite ?app_nil_r; reflexivity.
Qed.

(** The id column of a frame read from the employees table is int64:
    every id in it is a signed 64-bit integer. *)
Definition int64_ids (frame : list Employees.row) : Prop :=
  Forall (fun e => Sqlite.int64 (Employees.id e) = true) frame.

(** X19. Submitted with the name of an employee of the frame (a frame
    read from the employees table, its id column int64),
    render_hours_section logs the hours for the first employee of the
    frame with that name: a later employee of the same name never
    receives them. The entry gets the next id of work_hours, the other
    tables are untouched, and the success message is drawn. *)
Theorem x19_hours_go_to_first_namesake (frame : list Employees.row)
  (form : HoursForm.inputs) (stored : float) (w : world) :
  int64_ids frame ->
  HoursForm.submitted form = true ->
  In (HoursForm.employee_label form) (map Employees.full_name frame) ->
  Sqlite.real_not_null (HoursForm.hours form) = Some stored ->
  exists before emp after,
    frame = before ++ emp :: after /\
    Employees.full_name emp = HoursForm.employee_label form /\
    ~ In (HoursForm.employee_label form) (map Employees.full_name before) /\
    render_hours_section frame form w =
    (Returned tt,
     mk_world
       (mk_database (employees (store w))
          (work_hours (store w) ++
             [WorkHours.mk
                (Sqlite.next_rowid (map WorkHours.id (work_hours (store w))))
                (Employees.id emp)
                (Date.isoformat (HoursForm.work_date form)) stored
                (HoursForm.notes form)])
          (adjustments (store w)))
       (screen w ++
          [El_subheader "Registrar horas trabajadas";
           El_success "Horas registradas."])).
Proof.
  intros Hids Hsub Hlabel Hstored.
  pose proof (first_with_name frame (HoursForm.employee_label form)) as Hfirst.
  unfold render_hours_section, employee_id_of_label, script_bind, draw.
  cbn [store screen]. rewrite Hsub.
  destruct frame as [|x frame']; [destruct Hlabel|].
  destruct (filter _ (x :: frame')) as [|emp rest]; [contradiction|].
  destruct Hfirst as (before & after & Hframe & Hname & Hnot).
  assert (Hid : Sqlite.int64 (Employees.id emp) = true).
  { unfold int64_ids in Hids. rewrite Forall_forall in Hids. apply Hids.
    rewrite Hframe. apply in_or_app. right. left. reflexivity. }
  exists before, emp, after. repeat split; try assumption.
  unfold script_ret, run_sql. cbn [store screen].
  rewrite (add_work_hours_commits _ _ _ stored) by assumption.
  cbn [store screen]. rewrite <- app_assoc. reflexivity.
Qed.

Lemma x19_hours_go_to_first_namesake_witness :
  map WorkHours.employee_id
    (work_hours
       (store
          (snd (render_hours_section (employees (namesakes 2))
                  (HoursForm.mk "Ana" (Date.mk 2024 1 1) 8 "" true)
                  (mk_world (namesakes 2) [])))))
  = [1].
Proof.
  destruct (x19_hours_go_to_first_namesake (employees (namesakes 2))
              (HoursForm.mk "Ana" (Date.mk 2024 1 1) 8 "" true) 8
              (mk_world (namesakes 2) []))
    as (before & emp & after & _ & _ & _ & Hrun);
    [repeat constructor | reflexivity | left; reflexivity | reflexivity |].
  reflexivity.
Defined.

(** X20. Submitted with the name of an employee of the frame (a frame
    read from the employees table, its id column int64),
    render_adjustments_section records the adjustment for the first
    employee of the frame with that name, with the next id of
    adjustments, and draws the success message; the other tables are
    untouched. *)
Theorem x20_adjustment_goes_to_first_namesake (frame : list Employees.row)
  (form : AdjustmentsForm.inputs) (stored : float) (w : world) :
  int64_ids frame ->
  AdjustmentsForm.submitted form = true ->
  In (AdjustmentsForm.employee_label form) (map Employees.full_name frame) ->
  Sqlite.real_not_null (AdjustmentsForm.amount form) = Some stored ->
  exists before emp after,
    frame = before ++ emp :: after /\
    Employees.full_name emp = AdjustmentsForm.employee_label form /\
    ~ In (AdjustmentsForm.employee_label form)
        (map Employees.full_name before) /\
    render_adjustments_section frame form w =
    (Returned tt,
     mk_world
       (mk_database (employees (store w)) (work_hours (store w))
          (adjustments (store w) ++
             [Adjustments.mk
                (Sqlite.next_rowid
                   (map Adjustments.id (adjustments (store w))))
                (Employees.id emp)
                (Date.isoformat (AdjustmentsForm.adjustment_date form))
                (AdjustmentsForm.adjustment_type form) stored
                (AdjustmentsForm.description form)]))
       (screen w ++
          [El_subheader "Registrar bonificaciones o deducciones";
           El_success "Movimiento registrado."])).
Proof.
  intros Hids Hsub Hlabel Hstored.
  pose proof (first_with_name frame (AdjustmentsForm.employee_label form))
    as Hfirst.
  unfold render_adjustments_section, employee_id_of_label, script_bind, draw.
  cbn [store screen]. rewrite Hsub.
  destruct frame as [|x frame']; [destruct Hlabel|].
  destruct (filter _ (x :: frame')) as [|emp rest]; [contradiction|].
  destruct Hfirst as (before & after & Hframe & Hname & Hnot).
  assert (Hid : Sqlite.int64 (Employees.id emp) = true).
  { unfold int64_ids in Hids. rewrite Forall_forall in Hids. apply Hids.
    rewrite Hframe. apply in_or_app. right. left. reflexivity. }
  exists before, emp, after. repeat split; try assumption.
  unfold script_ret, run_sql. cbn [store screen].
  rewrite (add_adjustment_commits _ _ _ _ stored) by assumption.
  cbn [store screen]. rewrite <- app_assoc. reflexivity.
Qed.

Lemma x20_adjustment_goes_to_first_namesake_witness :
  map Adjustments.employee_id
    (adjustments
       (store
          (snd (render_adjustments_section (employees (namesakes 2))
                  (AdjustmentsForm.mk "Ana" (Date.mk 2024 1 1) "bonus" 50 ""
                     true)
                  (mk_world (namesakes 2) [])))))
  = [1].
Proof.
  destruct (x20_adjustment_goes_to_first_namesake (employees (namesakes 2))
              (AdjustmentsForm.mk "Ana" (Date.mk 2024 1 1) "bonus" 50 ""
                 true) 50 (mk_world (namesakes 2) []))
    as (before & emp & after & _ & _ & _ & Hrun);
    [repeat constructor | reflexivity | left; reflexivity | reflexivity |].
  reflexivity.
Defined.

(** X21. render_hours_section and render_adjustments_section write
    nothing when the frame of employees is empty (they draw the message
    to register an employee first, submitted or not), when the form is
    not submitted, and when the label names no employee of the frame:
    then the lookup of the id raises IndexError before any write. *)
Theorem x21_entry_sections_without_write (frame : list Employees.row)
  (hours_form : HoursForm.inputs) (adjustments_form : AdjustmentsForm.inputs)
  (w : world) :
  (frame = [] ->
   render_hours_section frame hours_form w =
     (Returned tt,
      mk_world (store w)
        (screen w ++
           [El_subheader "Registrar horas trabajadas";
            El_info "Primero registra al menos un empleado."])) /\
   render_adjustments_section frame adjustments_form w =
     (Returned tt,
      mk_world (store w)
        (screen w ++
           [El_subheader "Registrar bonificaciones o deducciones";
            El_info "Primero registra al menos un empleado."]))) /\
  (frame <> [] -> HoursForm.submitted hours_form = false ->
   render_hours_section frame hours_form w =
     (Returned tt,
      mk_world (store w)
        (screen w ++ [El_subheader "Registrar horas trabajadas"]))) /\
  (frame <> [] -> AdjustmentsForm.submitted adjustments_form = false ->
   render_adjustments_section frame adjustments_form w =
     (Returned tt,
      mk_world (store w)
        (screen w ++ [El_subheader "Registrar bonificaciones o deducciones"])))
  /\
  (frame <> [] -> HoursForm.submitted hours_form = true ->
   ~ In (HoursForm.employee_label hours_form)
       (map Employees.full_name frame) ->
   render_hours_section frame hours_form w =
     (Raised IndexError,
      mk_world (store w)
        (screen w ++ [El_subheader "Registrar horas trabajadas"]))) /\
  (frame <> [] -> AdjustmentsForm.submitted adjustments_form = true ->
   ~ In (AdjustmentsForm.employee_label adjustments_form)
       (map Employees.full_name frame) ->
   render_adjustments_section frame adjustments_form w =
     (Raised IndexError,
      mk_world (store w)
        (screen w ++ [El_subheader "Registrar bonificaciones o deducciones"]))).
Proof.
  unfold render_hours_section, render_adjustments_section,
    employee_id_of_label, script_bind, draw, script_ret, raise.
  cbn [store screen].
  split; [|split; [|split; [|split]]].
  - intros ->. cbn [store screen]. rewrite <- !app_assoc.
    split; reflexivity.
  - intros Hne Hsub. rewrite Hsub. destruct frame; [congruence|reflexivity].
  - intros Hne Hsub. rewrite Hsub. destruct frame; [congruence|reflexivity].
  - intros Hne Hsub Hnot. rewrite Hsub.
    pose proof (first_with_name frame (HoursForm.employee_label hours_form))
      as Hfirst.
    destruct frame as [|x frame']; [congruence|].
    destruct (filter _ (x :: frame')) as [|emp rest]; [reflexivity|].
    destruct Hfirst as (before & after & Hframe & Hname & _).
    exfalso. apply Hnot. rewrite Hframe, map_app. apply in_or_app.
    right. left. exact Hname.
  - intros Hne Hsub Hnot. rewrite Hsub.
    pose proof (first_with_name frame
                  (AdjustmentsForm.employee_label adjustments_form))
      as Hfirst.
    destruct frame as [|x frame']; [congruence|].
    destruct (filter _ (x :: frame')) as [|emp rest]; [reflexivity|].
    destruct Hfirst as (before & after & Hframe & Hname & _).
    exfalso. apply Hnot. rewrite Hframe, map_app. apply in_or_app.
    right. left. exact Hname.
Qed.

(** ** init_db *)

Lemma tables_init_db (file : db_file) :
  exists db, tables (init_db file) = Some db.
Proof.
  destruct file as [[e|] [w|] [a|]]; eexists; reflexivity.
Qed.

Lemma tables_file_of (file : db_file) (db : database) :
  tables file = Some db -> file_of db = file.
Proof.
  destruct file as [[e|] [w|] [a|]]; cbn; intros H; try discriminate.
  injection H as <-. reflexivity.
Qed.

Lemma tables_of_file_of (db : database) : tables (file_of db) = Some db.
Proof. destruct db. reflexivity. Qed.

(** X22. init_db creates the tables that are missing, empty, and keeps
    every table that exists with its rows: on a file that has the three
    tables it changes nothing, on a new file it leaves three empty
    tables, and running it twice is running it once. After it the three
    tables exist. *)
Theorem x22_init_db (file : db_file) :
  init_db (init_db file) = init_db file /\
  (exists db, tables (init_db file) = Some db) /\
  tables (init_db new_file) = Some empty_database /\
  (forall db, tables file = Some db -> init_db file = file) /\
  (forall rows,
      employees_table file = Some rows ->
      employees_table (init_db file) = Some rows) /\
  (forall rows,
      work_hours_table file = Some rows ->
      work_hours_table (init_db file) = Some rows) /\
  (forall rows,
      adjustments_table file = Some rows ->
      adjustments_table (init_db file) = Some rows).
Proof.
  split; [destruct file as [[e|] [w|] [a|]]; reflexivity|].
  split; [apply tables_init_db|]. split; [reflexivity|].
  split; [|repeat split; intros rows H; cbn; rewrite H; reflexivity].
  intros db H. apply tables_file_of in H. subst file. reflexivity.
Qed.

(** ** main *)

Lemma render_employee_section_keeps (P : database -> Prop)
  (frame : list Employees.row) (form : EmployeeForm.inputs) :
  (forall full_name role_title hourly_rate start_date db,
      P db ->
      P (snd (add_employee full_name role_title hourly_rate start_date db)))
  ->
  keeps P (render_employee_section frame form).
Proof.
  intros Hadd. unfold render_employee_section.
  apply keeps_bind; [apply keeps_draw|intros _].
  apply keeps_bind.
  - destruct (EmployeeForm.submitted form); [|apply keeps_ret].
    destruct (is_empty _ || is_empty _); [apply keeps_draw|].
    apply keeps_bind; [|intros _; apply keeps_draw].
    apply keeps_run_sql. intros db. apply Hadd.
  - intros _. destruct frame; [apply keeps_ret|apply keeps_draw].
Qed.

Lemma frame_employee_exists (frame : list Employees.row) (label : string)
  (db : database) :
  referential_with frame db ->
  match
    filter (fun e => String.eqb (Employees.full_name e) label) frame
  with
  | [] => True
  | e :: _ => employee_exists db (Employees.id e) = true
  end.
Proof.
  intros [_ Hf].
  destruct (filter _ frame) as [|e rest] eqn:E; [exact I|].
  assert (Hin : In e (filter (fun e => String.eqb (Employees.full_name e)
                                          label) frame))
    by (rewrite E; left; reflexivity).
  apply filter_In in Hin. destruct Hin as [Hin _].
  rewrite Forall_forall in Hf. apply Hf, Hin.
Qed.

Lemma render_hours_section_referential (frame : list Employees.row)
  (form : HoursForm.inputs) :
  keeps (referential_with frame) (render_hours_section frame form).
Proof.
  intros w H. unfold render_hours_section, employee_id_of_label,
    script_bind, draw, script_ret, raise, run_sql.
  cbn [store screen].
  pose proof (frame_employee_exists frame (HoursForm.employee_label form)
                (store w) H) as Hk.
  destruct frame as [|x frame']; [exact H|].
  destruct (HoursForm.submitted form); [|exact H].
  destruct (filter _ (x :: frame')) as [|emp rest]; [exact H|].
  cbn [store screen].
  pose proof (add_work_hours_referential (x :: frame') (Employees.id emp)
                (HoursForm.work_date form) (HoursForm.hours form)
                (HoursForm.notes form) (store w) Hk H) as Hafter.
  destruct (add_work_hours _ _ _ _ (store w)) as [[u|e] db']; exact Hafter.
Qed.

Lemma render_adjustments_section_referential (frame : list Employees.row)
  (form : AdjustmentsForm.inputs) :
  keeps (referential_with frame) (render_adjustments_section frame form).
Proof.
  intros w H. unfold render_adjustments_section, employee_id_of_label,
    script_bind, draw, script_ret, raise, run_sql.
  cbn [store screen].
  pose proof (frame_employee_exists frame
                (AdjustmentsForm.employee_label form) (store w) H) as Hk.
  destruct frame as [|x frame']; [exact H|].
  destruct (AdjustmentsForm.submitted form); [|exact H].
  destruct (filter _ (x :: frame')) as [|emp rest]; [exact H|].
  cbn [store screen].
  pose proof (add_adjustment_referential (x :: frame') (Employees.id emp)
                (AdjustmentsForm.adjustment_date form)
                (AdjustmentsForm.adjustment_type form)
                (AdjustmentsForm.amount form)
                (AdjustmentsForm.description form) (store w) Hk H) as Hafter.
  destruct (add_adjustment _ _ _ _ _ (store w)) as [[u|e] db']; exact Hafter.
Qed.

Lemma sections_referential (sort_values order_by : sorter) (given : inputs)
  (frame : list Employees.row) :
  keeps (referential_with frame)
    (_ <-- render_employee_section frame (employee_form given) ;;
     _ <-- draw [El_divider] ;;
     _ <-- render_hours_section frame (hours_form given) ;;
     _ <-- draw [El_divider] ;;
     _ <-- render_adjustments_section frame (adjustments_form given) ;;
     _ <-- draw [El_divider] ;;
     widgets <--
       run_sql
         (render_payroll_section sort_values order_by (payroll_start given)
            (payroll_end given)) ;;
     draw (map El_payroll widgets)).
Proof.
  apply keeps_bind.
  { apply render_employee_section_keeps. intros.
    apply add_employee_referential. assumption. }
  intros _. apply keeps_bind; [apply keeps_draw|intros _].
  apply keeps_bind; [apply render_hours_section_referential|intros _].
  apply keeps_bind; [apply keeps_draw|intros _].
  apply keeps_bind; [apply render_adjustments_section_referential|intros _].
  apply keeps_bind; [apply keeps_draw|intros _].
  apply keeps_bind; [|intros widgets; apply keeps_draw].
  apply keeps_read_only, render_payroll_section_read_only.
Qed.

Lemma main_page_referential (sort_values order_by : sorter) (given : inputs)
  (w : world) :
  referential (store w) ->
  referential (store (snd (main_page sort_values order_by given w))).
Proof.
  intros H. unfold main_page, script_bind at 1.
  unfold run_sql at 1, load_employees, read_sql_query.
  apply (sections_referential sort_values order_by given
           (employees (store w)) (mk_world (store w) (screen w))).
  split; [exact H|]. apply Forall_forall. intros e He.
  apply employee_exists_in, He.
Qed.

(** X23. A run of main keeps every entry tied to an employee, whatever
    its widgets hold: if every work-hour entry and every adjustment of
    the file names an employee of the file before the run, so it is
    after it. The forms only offer the employees loaded at the start of
    the run, and no run removes an employee. *)
Theorem x23_main_keeps_entries_tied (sort_values order_by : sorter)
  (given : inputs) (file : db_file) (db : database) :
  tables (init_db file) = Some db -> referential db ->
  exists db',
    tables (fst (snd (main sort_values order_by given file))) = Some db' /\
    referential db'.
Proof.
  intros Htables Href. unfold main. cbv zeta. rewrite Htables.
  pose proof (main_page_referential sort_values order_by given
                (mk_world db heading) Href) as H.
  destruct (main_page sort_values order_by given (mk_world db heading))
    as [r w].
  cbn [fst snd] in *. exists (store w). split; [|exact H].
  apply tables_of_file_of.
Qed.

Lemma january_referential : referential january.
Proof. split; repeat constructor. Qed.

Lemma x23_main_keeps_entries_tied_witness :
  exists db',
    tables
      (fst (snd (main stable_sorter stable_sorter
                   (mk_inputs
                      (EmployeeForm.mk "Carla" "Chofer" 15 (Date.mk 2024 2 1)
                         true)
                      (HoursForm.mk "Berta" (Date.mk 2024 1 15) 6 "" true)
                      (AdjustmentsForm.mk "Ana" (Date.mk 2024 1 15) "bonus"
                         20 "" true)
                      (Date.mk 2024 1 1) (Date.mk 2024 1 31))
                   (file_of january)))) = Some db' /\
    referential db'.
Proof.
  apply (x23_main_keeps_entries_tied stable_sorter stable_sorter _
           (file_of january) january); [reflexivity|].
  exact january_referential.
Defined.

Lemma render_payroll_section_returns (sort_values order_by : sorter)
  (start_date end_date : Date.date) (db : database) :
  exists page,
    render_payroll_section sort_values order_by start_date end_date db =
    (Ok page, db).
Proof.
  unfold render_payroll_section.
  destruct (Date.gtb start_date end_date); [eexists; reflexivity|].
  unfold bind. rewrite calculate_payroll_returns.
  destruct (match employees db with [] => [] | _ => _ end);
    eexists; reflexivity.
Qed.

(** X24. A run of main in which no form is submitted never fails and
    leaves every table of the file as init_db left it, whatever the
    other widgets hold, the two dates of the payroll section included. *)
Theorem x24_main_without_submit (sort_values order_by : sorter)
  (given : inputs) (file : db_file) :
  EmployeeForm.submitted (employee_form given) = false ->
  HoursForm.submitted (hours_form given) = false ->
  AdjustmentsForm.submitted (adjustments_form given) = false ->
  fst (main sort_values order_by given file) = Returned tt /\
  fst (snd (main sort_values order_by given file)) = init_db file.
Proof.
  intros He Hh Ha. unfold main. cbv zeta.
  destruct (tables_init_db file) as [db Hdb]. rewrite Hdb.
  apply tables_file_of in Hdb. rewrite <- Hdb.
  destruct (render_payroll_section_returns sort_values order_by
              (payroll_start given) (payroll_end given) db) as [page Hpage].
  unfold main_page, script_bind, run_sql, load_employees, read_sql_query,
    render_employee_section, render_hours_section,
    render_adjustments_section, script_bind, draw, script_ret.
  cbn [store screen]. rewrite He, Hh, Ha.
  destruct (employees db); cbn [store screen]; rewrite Hpage;
    cbn [store screen fst snd]; split; reflexivity.
Qed.

Lemma x24_main_without_submit_witness :
  fst (main stable_sorter stable_sorter
         (mk_inputs
            (EmployeeForm.mk "" "" 0 (Date.mk 2024 2 1) false)
            (HoursForm.mk "Ana" (Date.mk 2024 1 15) 0 "" false)
            (AdjustmentsForm.mk "Ana" (Date.mk 2024 1 15) "bonus" 0 "" false)
            (Date.mk 2024 1 31) (Date.mk 2024 1 1))
         new_file) = Returned tt /\
  fst (snd (main stable_sorter stable_sorter
              (mk_inputs
                 (EmployeeForm.mk "" "" 0 (Date.mk 2024 2 1) false)
                 (HoursForm.mk "Ana" (Date.mk 2024 1 15) 0 "" false)
                 (AdjustmentsForm.mk "Ana" (Date.mk 2024 1 15) "bonus" 0 ""
                    false)
                 (Date.mk 2024 1 31) (Date.mk 2024 1 1))
              new_file)) = file_of empty_database.
Proof.
  apply (x24_main_without_submit stable_sorter stable_sorter _ new_file);
    reflexivity.
Defined.

(** The tables of [after] start with the rows of [before]. *)
Definition extends (before after : database) : Prop :=
  (exists rows, employees after = employees before ++ rows) /\
  (exists rows, work_hours after = work_hours before ++ rows) /\
  (exists rows, adjustments after = adjustments before ++ rows).

Lemma extends_refl (db : database) : extends db db.
Proof. repeat split; exists []; rewrite app_nil_r; reflexivity. Qed.

Lemma add_employee_extends (before : database) (full_name role_title : string)
  (hourly_rate : float) (start_date : Date.date) (db : database) :
  extends before db ->
  extends before
    (snd (add_employee full_name role_title hourly_rate start_date db)).
Proof.
  intros ([e He] & Hw & Ha). unfold add_employee, execute, insert_employee.
  destruct (Sqlite.real_not_null hourly_rate); cbn [snd];
    [|repeat split; [exists e|..]; assumption].
  repeat split; try assumption. cbn [employees]. rewrite He, <- app_assoc.
  eexists. reflexivity.
Qed.

Lemma add_work_hours_extends (before : database) (employee_id : Z)
  (work_date : Date.date) (hours : float) (notes : string) (db : database) :
  extends before db ->
  extends before (snd (add_work_hours employee_id work_date hours notes db)).
Proof.
  intros (He & [r Hw] & Ha). rewrite add_work_hours_outcome.
  destruct (Sqlite.int64 employee_id);
    [|repeat split; [|exists r|]; assumption].
  destruct (Sqlite.real_not_null hours); cbn [snd];
    [|repeat split; [|exists r|]; assumption].
  repeat split; try assumption. cbn [work_hours]. rewrite Hw, <- app_assoc.
  eexists. reflexivity.
Qed.

Lemma add_adjustment_extends (before : database) (employee_id : Z)
  (adjustment_date : Date.date) (adjustment_type : string) (amount : float)
  (description : string) (db : database) :
  extends before db ->
  extends before
    (snd (add_adjustment employee_id adjustment_date adjustment_type amount
            description db)).
Proof.
  intros (He & Hw & [r Ha]). rewrite add_adjustment_outcome.
  destruct (Sqlite.int64 employee_id);
    [|repeat split; [| |exists r]; assumption].
  destruct (Sqlite.real_not_null amount); cbn [snd];
    [|repeat split; [| |exists r]; assumption].
  repeat split; try assumption. cbn [adjustments]. rewrite Ha, <- app_assoc.
  eexists. reflexivity.
Qed.

Lemma writes_ids_ascending (db : database) :
  ids_ascending db ->
  (forall full_name role_title hourly_rate start_date,
      ids_ascending
        (snd (add_employee full_name role_title hourly_rate start_date db)))
  /\
  (forall employee_id work_date hours notes,
      ids_ascending
        (snd (add_work_hours employee_id work_date hours notes db))) /\
  (forall employee_id adjustment_date adjustment_type amount description,
      ids_ascending
        (snd (add_adjustment employee_id adjustment_date adjustment_type
                amount description db))).
Proof.
  intros (He & Hw & Ha). unfold ids_ascending. split; [|split].
  - intros. unfold add_employee, execute, insert_employee.
    destruct (Sqlite.real_not_null hourly_rate);
      cbn [snd employees work_hours adjustments]; [|auto].
    split; [|auto]. rewrite map_app. apply ascending_next_rowid, He.
  - intros. rewrite add_work_hours_outcome.
    destruct (Sqlite.int64 employee_id); [|auto].
    destruct (Sqlite.real_not_null hours);
      cbn [snd employees work_hours adjustments]; [|auto].
    split; [auto|]. split; [|auto].
    rewrite map_app. apply ascending_next_rowid, Hw.
  - intros. rewrite add_adjustment_outcome.
    destruct (Sqlite.int64 employee_id); [|auto].
    destruct (Sqlite.real_not_null amount);
      cbn [snd employees work_hours adjustments]; [|auto].
    split; [auto|]. split; [auto|].
    rewrite map_app. apply ascending_next_rowid, Ha.
Qed.

(** What every write of the program keeps: the rows there were, in
    place, and ascending ids. *)
Definition grown_from (before db : database) : Prop :=
  extends before db /\ (ids_ascending before -> ids_ascending db).

Lemma entry_section_keeps (P : database -> Prop)
  (frame : list Employees.row) (label : string) (write : Z -> sql unit)
  (info success : list element) (submitted : bool) :
  (forall k db, P db -> P (snd (write k db))) ->
  keeps P
    (match frame with
     | [] => draw info
     | _ =>
         if submitted then
           employee_id <-- employee_id_of_label frame label ;;
           _ <-- run_sql (write employee_id) ;;
           draw success
         else script_ret tt
     end).
Proof.
  intros Hwrite. destruct frame as [|x frame']; [apply keeps_draw|].
  destruct submitted; [|apply keeps_ret].
  apply keeps_bind.
  - unfold employee_id_of_label.
    destruct (filter _ (x :: frame')); [apply keeps_raise|apply keeps_ret].
  - intros k. apply keeps_bind; [|intros _; apply keeps_draw].
    apply keeps_run_sql. intros db. apply Hwrite.
Qed.

Lemma main_page_grows (sort_values order_by : sorter) (given : inputs)
  (before : database) :
  keeps (grown_from before) (main_page sort_values order_by given).
Proof.
  unfold main_page.
  apply keeps_bind;
    [apply keeps_read_only; intros db; reflexivity|intros frame].
  apply keeps_bind.
  { apply render_employee_section_keeps. intros ? ? ? ? db [Hx Hids].
    split; [apply add_employee_extends, Hx|].
    intros H. apply (writes_ids_ascending db (Hids H)). }
  intros _. apply keeps_bind; [apply keeps_draw|intros _].
  apply keeps_bind.
  { unfold render_hours_section.
    apply keeps_bind; [apply keeps_draw|intros _].
    apply (entry_section_keeps _ frame _
             (fun k =>
                add_work_hours k (HoursForm.work_date (hours_form given))
                  (HoursForm.hours (hours_form given))
                  (HoursForm.notes (hours_form given)))).
    intros k db [Hx Hids].
    split; [apply add_work_hours_extends, Hx|].
    intros H. apply (writes_ids_ascending db (Hids H)). }
  intros _. apply keeps_bind; [apply keeps_draw|intros _].
  apply keeps_bind.
  { unfold render_adjustments_section.
    apply keeps_bind; [apply keeps_draw|intros _].
    apply (entry_section_keeps _ frame _
             (fun k =>
                add_adjustment k
                  (AdjustmentsForm.adjustment_date (adjustments_form given))
                  (AdjustmentsForm.adjustment_type (adjustments_form given))
                  (AdjustmentsForm.amount (adjustments_form given))
                  (AdjustmentsForm.description (adjustments_form given)))).
    intros k db [Hx Hids].
    split; [apply add_adjustment_extends, Hx|].
    intros H. apply (writes_ids_ascending db (Hids H)). }
  intros _. apply keeps_bind; [apply keeps_draw|intros _].
  apply keeps_bind; [|intros widgets; apply keeps_draw].
  apply keeps_read_only, render_payroll_section_read_only.
Qed.

(** X25. A run of main only appends: whatever its widgets hold and
    however it ends, every table of the file after the run starts with
    the rows it had after init_db, unchanged and in place, and if the
    ids of each table were strictly ascending they still are. *)
Theorem x25_main_only_appends (sort_values order_by : sorter)
  (given : inputs) (file : db_file) (db : database) :
  tables (init_db file) = Some db ->
  exists db',
    tables (fst (snd (main sort_values order_by given file))) = Some db' /\
    extends db db' /\
    (ids_ascending db -> ids_ascending db').
Proof.
  intros Htables. unfold main. cbv zeta. rewrite Htables.
  pose proof (main_page_grows sort_values order_by given db
                (mk_world db heading)
                (conj (extends_refl db) (fun H => H))) as [Hx Hids].
  destruct (main_page sort_values order_by given (mk_world db heading))
    as [r w].
  cbn [fst snd] in *. exists (store w).
  split; [apply tables_of_file_of|]. split; assumption.
Qed.

Lemma x25_main_only_appends_witness :
  exists db',
    tables
      (fst (snd (main stable_sorter stable_sorter
                   (mk_inputs
                      (EmployeeForm.mk "Carla" "Chofer" 15 (Date.mk 2024 2 1)
                         true)
                      (HoursForm.mk "Berta" (Date.mk 2024 1 15) 6 "" true)
                      (AdjustmentsForm.mk "Ana" (Date.mk 2024 1 15) "bonus"
                         20 "" true)
                      (Date.mk 2024 1 1) (Date.mk 2024 1 31))
                   (file_of january)))) = Some db' /\
    extends january db' /\
    (ids_ascending january -> ids_ascending db').
Proof.
  apply (x25_main_only_appends stable_sorter stable_sorter _
           (file_of january) january).
  reflexivity.
Defined.

(** ** A new employee and the report *)

Lemma direct_row_entries (lo hi : string) (db db' : database)
  (emp : Employees.row) :
  work_hours db' = work_hours db -> adjustments db' = adjustments db ->
  direct_row lo hi db' emp = direct_row lo hi db emp.
Proof.
  intros Hw Ha.
  unfold direct_row, unrounded_total_hours, unrounded_adjustment_total,
    hours_summed, amounts_summed, work_hours_in, adjustments_in.
  rewrite Hw, Ha. reflexivity.
Qed.

(** X26. When every employee id, the new one included, is a safe
    integer (below 2^53 in absolute value): after add_employee registers
    an employee, the report of calculate_payroll has the rows it had,
    unchanged, and one more for the new employee. The figures of the new
    row come from the entries that already carry the new id, if any:
    entries written for an id that no employee had are counted for the
    employee who gets it. *)
Theorem x26_report_after_add_employee (sort_values : sorter)
  (full_name role_title : string) (hourly_rate stored : float)
  (hired start_date end_date : Date.date) (db : database) :
  safe_ids db ->
  safe_integer (Sqlite.next_rowid (map Employees.id (employees db))) ->
  Sqlite.real_not_null hourly_rate = Some stored ->
  fst (calculate_payroll sort_values start_date end_date
         (snd (add_employee full_name role_title hourly_rate hired db))) =
  Ok
    (sort_on sort_values Payroll.full_name
       (map
          (direct_row (Date.isoformat start_date) (Date.isoformat end_date)
             db)
          (employees db ++
             [Employees.mk
                (Sqlite.next_rowid (map Employees.id (employees db)))
                full_name role_title stored (Date.isoformat hired)]))).
Proof.
  intros Hsafe Hnew Hstored.
  assert (Hadd :
            snd (add_employee full_name role_title hourly_rate hired db) =
            mk_database
              (employees db ++
                 [Employees.mk
                    (Sqlite.next_rowid (map Employees.id (employees db)))
                    full_name role_title stored (Date.isoformat hired)])
              (work_hours db) (adjustments db)).
  { unfold add_employee, execute, insert_employee. rewrite Hstored.
    reflexivity. }
  rewrite Hadd. rewrite calculate_payroll_direct.
  - cbn [fst employees]. apply f_equal. apply f_equal.
    apply map_ext. intros emp. apply direct_row_entries; reflexivity.
  - unfold safe_ids. cbn [employees]. apply Forall_app. split; [exact Hsafe|].
    constructor; [exact Hnew|constructor].
Qed.

(** [january] after add_work_hours(3, 2024-01-10, 7, "") for an id that
    no employee has yet. *)
Definition january_early_entry : database :=
  snd (add_work_hours 3 (Date.mk 2024 1 10) 7 "" january).

Lemma x26_report_after_add_employee_witness :
  fst (calculate_payroll stable_sorter (Date.mk 2024 1 1) (Date.mk 2024 1 31)
         (snd (add_employee "Carla" "Chofer" 15 (Date.mk 2024 2 1)
                 january_early_entry))) =
  Ok [Payroll.mk "Ana" 10 10 100 50 5 145;
      Payroll.mk "Berta" 20 0 0 0 0 0;
      Payroll.mk "Carla" 15 7 105 0 0 105].
Proof.
  rewrite (x26_report_after_add_employee stable_sorter "Carla" "Chofer" 15 15
             (Date.mk 2024 2 1) (Date.mk 2024 1 1) (Date.mk 2024 1 31)
             january_early_entry);
    [reflexivity
    | repeat constructor; unfold safe_integer; cbn; lia
    | unfold safe_integer; cbn; lia
    | reflexivity].
Defined.
